(** * Sky Fox / Chack'n Pop video: a shallow embedding of the rasteriser

    The development follows [src/mame/jaleco/skyfox_v.cpp] (star field,
    sprites, screen update) and the address map of
    [src/mame/taito/chaknpop.cpp].  C [int] values are modelled as [Z]; every
    quantity the renderer computes is far below 2^31, so no wrap-around is
    written out.  RAM and ROM regions are lists of bytes. *)

From Stdlib Require Import String ZArith List Bool Lia Strings.Byte Sorting.Sorted.
Import ListNotations.
Local Open Scope Z_scope.

(** ** Bytes and memory regions *)

Definition byte_val (b : byte) : Z := Z.of_N (Byte.to_N b).

Definition region := list byte.

(** [m[a]] for a [uint8_t] region.  An index outside the region is undefined
    behaviour in the source; the embedding reads 0 there, and the bound
    theorems below state when an index is inside. *)
Definition rd (m : region) (a : Z) : Z :=
  if a <? 0 then 0
  else match nth_error m (Z.to_nat a) with
       | Some b => byte_val b
       | None => 0
       end.

Definition in_region (m : region) (a : Z) : Prop :=
  0 <= a < Z.of_nat (length m).

(** ** The indexed bitmap

    [bitmap_ind16] is addressed as [pix(y, x)]: row first. *)

Definition bitmap_ind16 := Z -> Z -> Z.

Definition pix_set (b : bitmap_ind16) (y x v : Z) : bitmap_ind16 :=
  fun y' x' => if (y' =? y) && (x' =? x) then v else b y' x'.

(** Modelled from the spec: the ClipRectangle of section 3 (the framework's
    [rectangle] class is not part of these sources): inclusive minimum,
    exclusive maximum. *)
Record rectangle := mkRect { min_x : Z; min_y : Z; max_x : Z; max_y : Z }.

Definition contains (r : rectangle) (x y : Z) : bool :=
  (min_x r <=? x) && (x <? max_x r) && (min_y r <=? y) && (y <? max_y r).

(** Modelled from the spec: [bitmap.fill(v, cliprect)] sets every pixel of
    the clip rectangle to [v] and leaves the others. *)
Definition fill (v : Z) (clip : rectangle) (b : bitmap_ind16) : bitmap_ind16 :=
  fun y x => if contains clip x y then v else b y x.

(** ** Counted loops *)

(** [for (i = start; count iterations; i++)] over a state. *)
Fixpoint for_up {S : Type} (count : nat) (i : Z) (body : Z -> S -> S) (st : S) : S :=
  match count with
  | O => st
  | Datatypes.S c => for_up c (i + 1) body (body i st)
  end.

(** ** Sky Fox machine state *)

Module Skyfox.

(** Modelled from the spec: the decoded graphics element [m_gfxdecode->gfx(0)]
    (its layout lives in the driver file, which is not part of these
    sources).  [gfx_pixel code tx ty] is the palette-index byte of a tile
    pixel; [gfx_elements] is the tile count used to mask a code. *)
Record gfx_element := mkGfx {
  gfx_width : Z;
  gfx_height : Z;
  gfx_elements : Z;
  gfx_pixel : Z -> Z -> Z -> Z
}.

Record skyfox_state := mkState {
  m_bg_ctrl : Z;
  m_bgram : region;
  m_spriteram : region;
  gfx2_rom : region;          (* memregion("gfx2") *)
  gfx0 : gfx_element;         (* m_gfxdecode->gfx(0) *)
  screen_width : Z;           (* m_screen->width() *)
  screen_height : Z           (* m_screen->height() *)
}.

(** *** Background rendering (draw_background) *)

(** [bool blinking = (m_bg_ctrl & 0x8)] *)
Definition blinking (s : skyfox_state) : bool :=
  negb (Z.land (m_bg_ctrl s) 0x8 =? 0).

(** [int pattern = (m_bg_ctrl & 0x6) >> 1] *)
Definition pattern (s : skyfox_state) : Z :=
  Z.shiftr (Z.land (m_bg_ctrl s) 0x6) 1.

Definition ramoffset (i : Z) : Z := 0xe0 + Z.land i 0xf * 2.

Definition star_pos (s : skyfox_state) (i : Z) : Z :=
  rd (m_bgram s) (ramoffset i + 1) * 2
  + (if Z.land (rd (m_bgram s) (ramoffset i)) 0x80 =? 0 then 0 else 1).

(** [int offs = (i * 2) % 0x2000 + pattern * 0x2000]; C's [%] truncates. *)
Definition star_offs (s : skyfox_state) (i : Z) : Z :=
  Z.rem (i * 2) 0x2000 + pattern s * 0x2000.

Definition star_pen (s : skyfox_state) (i : Z) : Z :=
  rd (gfx2_rom s) (star_offs s i).

Definition star_x (s : skyfox_state) (i : Z) : Z :=
  rd (gfx2_rom s) (star_offs s i + 1) * 2 + star_pos s i + 0x5b.

Definition star_y (i : Z) : Z := Z.shiftr i 4 + 1.

(** [((m_bg_ctrl >> 4) & 3) != (pen & 3) || !blinking] *)
Definition star_drawn (s : skyfox_state) (i : Z) : bool :=
  negb (Z.land (Z.shiftr (m_bg_ctrl s) 4) 3 =? Z.land (star_pen s i) 3)
  || negb (blinking s).

(** One iteration of the loop body; note that [cliprect] is not consulted. *)
Definition draw_star (s : skyfox_state) (i : Z) (bitmap : bitmap_ind16) : bitmap_ind16 :=
  if star_drawn s i
  then pix_set bitmap (Z.rem (star_y i) 256) (Z.rem (star_x s i) 512) (star_pen s i)
  else bitmap.

Definition draw_background (s : skyfox_state) (bitmap : bitmap_ind16)
    (cliprect : rectangle) : bitmap_ind16 :=
  for_up (Z.to_nat 0x1000) 0 (draw_star s) bitmap.

(** *** Sprites drawing (draw_sprites) *)

(** The arguments of one
    [gfx->transpen(bitmap, cliprect, code, color, flipx, flipy, destx, desty, trans_pen)]. *)
Record gfx_call := mkCall {
  c_code : Z;
  c_color : Z;
  c_flipx : Z;
  c_flipy : Z;
  c_destx : Z;
  c_desty : Z;
  c_transpen : Z
}.

(** What an entry decodes to before its tiles are drawn (lines 135-156). *)
Record sprite := mkSprite {
  sp_n : Z;
  sp_low_code : Z;
  sp_high_code : Z;
  sp_flipx : Z;
  sp_flipy : Z;
  sp_x : Z;
  sp_y : Z
}.

(** C's [!] on an [int]. *)
Definition lnot_int (v : Z) : Z := if v =? 0 then 1 else 0.

(** [int shift = (m_bg_ctrl & 0x80) ? (4 - 1) : 4] *)
Definition sprite_shift (s : skyfox_state) : Z :=
  if Z.land (m_bg_ctrl s) 0x80 =? 0 then 4 else 4 - 1.

(** [m_spriteram[offs + 3] << 8 | m_spriteram[offs + 2]] *)
Definition sprite_code16 (s : skyfox_state) (offs : Z) : Z :=
  Z.lor (Z.shiftl (rd (m_spriteram s) (offs + 3)) 8) (rd (m_spriteram s) (offs + 2)).

Definition decode_sprite (s : skyfox_state) (offs : Z) : sprite :=
  let code := sprite_code16 s offs in
  let flipx := Z.land code 0x2 in
  let flipy := Z.land code 0x4 in
  let y := rd (m_spriteram s) (offs + 0) in
  let x := Z.lor (Z.shiftl (rd (m_spriteram s) (offs + 1)) 1) (Z.land code 1) in
  let high_code :=
    Z.land (Z.shiftr code 4) 0x7f0 + Z.shiftr (Z.land code 0x8000) (sprite_shift s) in
  let '(n, low_code) :=
    let sel := Z.land code 0x88 in
    if sel =? 0x88 then (4, 0)
    else if sel =? 0x08
         then (2, Z.lor (Z.shiftr (Z.land code 0x20) 2) (Z.shiftr (Z.land code 0x10) 3))
         else (1, Z.land (Z.shiftr code 4) 0xf) in
  if Z.land (m_bg_ctrl s) 1 =? 0
  then mkSprite n low_code high_code flipx flipy x y
  else mkSprite n low_code high_code (lnot_int flipx) (lnot_int flipy)
         (screen_width s - x - n * 8) (screen_height s - y - n * 8).

(** [for (i = start; i != end; i += inc)]: the source's tile loops.  The
    fuel bounds the number of iterations; [None] is fuel exhaustion. *)
Fixpoint for_ne {S : Type} (fuel : nat) (i iend inc : Z)
    (body : Z -> S -> option S) (st : S) : option S :=
  if i =? iend then Some st
  else match fuel with
       | O => None
       | Datatypes.S f =>
           match body i st with
           | Some st' => for_ne f (i + inc) iend inc body st'
           | None => None
           end
       end.

(** [for (i = start; i < bound; i += step)]: the sprite-table loop. *)
Fixpoint for_lt {S : Type} (fuel : nat) (i bound step : Z)
    (body : Z -> S -> option S) (st : S) : option S :=
  if i <? bound
  then match fuel with
       | O => None
       | Datatypes.S f =>
           match body i st with
           | Some st' => for_lt f (i + step) bound step body st'
           | None => None
           end
       end
  else Some st.

Section Target.

(** The drawing target: a bitmap, or the list of calls made. *)
Context {T : Type} (transpen_op : gfx_call -> T -> T).

(** Body of the inner loop with its [code++]; the state is [(code, target)]. *)
Definition draw_tile (sp : sprite) (dy dx : Z) (st : Z * T) : option (Z * T) :=
  let '(code, t) := st in
  let t := transpen_op
             (mkCall code 0 (sp_flipx sp) (sp_flipy sp)
                (dx * 8 + sp_x sp) (dy * 8 + sp_y sp) 0xff) t in
  let t := transpen_op
             (mkCall code 0 (sp_flipx sp) (sp_flipy sp)
                (dx * 8 + sp_x sp) (dy * 8 + sp_y sp - 256) 0xff) t in
  Some (code + 1, t).

Definition draw_row (fuel : nat) (sp : sprite) (dy : Z) (st : Z * T) : option (Z * T) :=
  let '(xstart, xend, xinc) :=
    if sp_flipx sp =? 0 then (0, sp_n sp, 1) else (sp_n sp - 1, -1, -1) in
  match for_ne fuel xstart xend xinc (draw_tile sp dy) st with
  | Some (code, t) => Some (if sp_n sp =? 2 then code + 2 else code, t)
  | None => None
  end.

Definition draw_sprite (fuel : nat) (s : skyfox_state) (offs : Z) (t : T) : option T :=
  let sp := decode_sprite s offs in
  let '(ystart, yend, yinc) :=
    if sp_flipy sp =? 0 then (0, sp_n sp, 1) else (sp_n sp - 1, -1, -1) in
  match for_ne fuel ystart yend yinc (draw_row fuel sp)
          (sp_low_code sp + sp_high_code sp, t) with
  | Some (_, t') => Some t'
  | None => None
  end.

Definition draw_sprites (fuel : nat) (s : skyfox_state) (t : T) : option T :=
  for_lt fuel 0 (Z.of_nat (List.length (m_spriteram s))) 4 (draw_sprite fuel s) t.

End Target.

(** Modelled from the spec: the TileBlitter of section 4.2 with the masking
    of section 7 ([gfx_element::transpen] is framework code outside these
    sources).  Every pixel of the tile box is decoded at the flipped
    coordinate; a pixel equal to the transparent index is skipped, the
    others are written as [palette_base | decoded] when inside the clip. *)
Definition blit_pixel (g : gfx_element) (cliprect : rectangle) (c : gfx_call)
    (ty tx : Z) (b : bitmap_ind16) : bitmap_ind16 :=
  let d := gfx_pixel g (c_code c mod gfx_elements g)
             (if c_flipx c =? 0 then tx else gfx_width g - 1 - tx)
             (if c_flipy c =? 0 then ty else gfx_height g - 1 - ty) in
  if d =? c_transpen c then b
  else if contains cliprect (c_destx c + tx) (c_desty c + ty)
       then pix_set b (c_desty c + ty) (c_destx c + tx) (Z.lor (c_color c) d)
       else b.

Definition transpen (g : gfx_element) (cliprect : rectangle) (c : gfx_call)
    (bitmap : bitmap_ind16) : bitmap_ind16 :=
  for_up (Z.to_nat (gfx_height g)) 0
    (fun ty b => for_up (Z.to_nat (gfx_width g)) 0 (blit_pixel g cliprect c ty) b)
    bitmap.

(** What one pixel of the tile box contributes: [None] when it is
    transparent or clipped away, otherwise the value written. *)
Definition pixel_write (g : gfx_element) (cliprect : rectangle) (c : gfx_call)
    (ty tx : Z) : option Z :=
  let d := gfx_pixel g (c_code c mod gfx_elements g)
             (if c_flipx c =? 0 then tx else gfx_width g - 1 - tx)
             (if c_flipy c =? 0 then ty else gfx_height g - 1 - ty) in
  if d =? c_transpen c then None
  else if contains cliprect (c_destx c + tx) (c_desty c + ty)
       then Some (Z.lor (c_color c) d)
       else None.

(** The value a call deposits at bitmap position [(y, x)], if any. *)
Definition call_pixel (g : gfx_element) (cliprect : rectangle) (c : gfx_call)
    (y x : Z) : option Z :=
  let tx := x - c_destx c in
  let ty := y - c_desty c in
  if (0 <=? tx) && (tx <? gfx_width g) && (0 <=? ty) && (ty <? gfx_height g)
  then pixel_write g cliprect c ty tx
  else None.

(** The value a sequence of calls leaves at [(y, x)]: that of the last call
    that deposits one. *)
Fixpoint last_paint (g : gfx_element) (cliprect : rectangle) (calls : list gfx_call)
    (y x : Z) : option Z :=
  match calls with
  | [] => None
  | c :: calls' =>
      match last_paint g cliprect calls' y x with
      | Some v => Some v
      | None => call_pixel g cliprect c y x
      end
  end.

(** [draw_sprites] on a bitmap. *)
Definition draw_sprites_bitmap (fuel : nat) (s : skyfox_state)
    (bitmap : bitmap_ind16) (cliprect : rectangle) : option bitmap_ind16 :=
  draw_sprites (transpen (gfx0 s) cliprect) fuel s bitmap.

(** [draw_sprites] recording the [transpen] calls in the order made. *)
Definition record_call (c : gfx_call) (l : list gfx_call) : list gfx_call := l ++ [c].

Definition draw_sprite_calls (fuel : nat) (s : skyfox_state) (offs : Z) : option (list gfx_call) :=
  draw_sprite record_call fuel s offs [].

Definition draw_sprites_calls (fuel : nat) (s : skyfox_state) : option (list gfx_call) :=
  draw_sprites record_call fuel s [].

(** *** Screen drawing (screen_update_skyfox) *)

Definition screen_update_skyfox (fuel : nat) (s : skyfox_state)
    (bitmap : bitmap_ind16) (cliprect : rectangle) : option bitmap_ind16 :=
  let bitmap := fill 0xff cliprect bitmap in
  let bitmap := draw_background s bitmap cliprect in
  draw_sprites_bitmap fuel s bitmap cliprect.

(** *** The renderer as section 4 of the specification words it *)

(** Running a loop body over a list of index values. *)
Fixpoint fold_opt {S : Type} (body : Z -> S -> option S) (l : list Z) (st : S) : option S :=
  match l with
  | [] => Some st
  | j :: l' =>
      match body j st with
      | Some st' => fold_opt body l' st'
      | None => None
      end
  end.

(** Applying a list of [transpen] calls, first to last. *)
Definition run_calls {T : Type} (transpen_op : gfx_call -> T -> T)
    (calls : list gfx_call) (t : T) : T :=
  fold_left (fun a c => transpen_op c a) calls t.

Definition zrange (n : Z) : list Z := map Z.of_nat (seq 0 (Z.to_nat n)).

(** Rows [dy] in [[0,n)], or reversed under the flip flag. *)
Definition walk (flip : Z) (n : Z) : list Z :=
  if flip =? 0 then zrange n else rev (zrange n).

(** The size table of section 4.4: [(n, low_code)] from [code16 & 0x88]. *)
Definition spec_size_low (code16 : Z) : Z * Z :=
  let sel := Z.land code16 0x88 in
  if sel =? 0x88 then (4, 0)
  else if sel =? 0x08
       then (2, Z.lor (Z.shiftr (Z.land code16 0x20) 2) (Z.shiftr (Z.land code16 0x10) 3))
       else (1, Z.land (Z.shiftr code16 4) 0xF).

Definition spec_high_code (bg_ctrl code16 : Z) : Z :=
  let shift := if Z.testbit bg_ctrl 7 then 3 else 4 in
  Z.land (Z.shiftr code16 4) 0x7F0 + Z.shiftr (Z.land code16 0x8000) shift.

(** The two blits of one tile: at [(dx*8 + x, dy*8 + y)] and 256 rows up. *)
Definition spec_blits (fx fy x y code dx dy : Z) : list gfx_call :=
  [ mkCall code 0 fx fy (dx * 8 + x) (dy * 8 + y) 0xFF;
    mkCall code 0 fx fy (dx * 8 + x) (dy * 8 + y - 256) 0xFF ].

(** One row of the walk: [code] is incremented after every tile. *)
Fixpoint spec_row (fx fy x y dy : Z) (cols : list Z) (code : Z) : list gfx_call * Z :=
  match cols with
  | [] => ([], code)
  | dx :: cols' =>
      let '(l, code') := spec_row fx fy x y dy cols' (code + 1) in
      (spec_blits fx fy x y code dx dy ++ l, code')
  end.

(** All rows: after every row [code] advances by 2 when [n == 2]. *)
Fixpoint spec_rows (n fx fy x y : Z) (rows cols : list Z) (code : Z) : list gfx_call :=
  match rows with
  | [] => []
  | dy :: rows' =>
      let '(l, code') := spec_row fx fy x y dy cols code in
      l ++ spec_rows n fx fy x y rows' cols (if n =? 2 then code' + 2 else code')
  end.

Definition spec_sprite_calls (sp : sprite) : list gfx_call :=
  spec_rows (sp_n sp) (sp_flipx sp) (sp_flipy sp) (sp_x sp) (sp_y sp)
    (walk (sp_flipy sp) (sp_n sp)) (walk (sp_flipx sp) (sp_n sp))
    (sp_low_code sp + sp_high_code sp).

(** Offsets [0, 4, 8, ...] below the table size. *)
Definition sprite_offsets (s : skyfox_state) : list Z :=
  map (fun k => 4 * k) (zrange ((Z.of_nat (List.length (m_spriteram s)) + 3) / 4)).

(** All calls of a frame: the entries' walks in increasing offset order. *)
Definition spec_table_calls (s : skyfox_state) : list gfx_call :=
  flat_map (fun o => spec_sprite_calls (decode_sprite s o)) (sprite_offsets s).

(** What one entry, drawn alone, deposits at [(y, x)]. *)
Definition entry_paint (s : skyfox_state) (cliprect : rectangle) (offs y x : Z) : option Z :=
  last_paint (gfx0 s) cliprect (spec_sprite_calls (decode_sprite s offs)) y x.

(** Fuel that suffices for the three loops of [draw_sprites]. *)
Definition enough_fuel (s : skyfox_state) (fuel : nat) : Prop :=
  (4 <= fuel)%nat /\ (List.length (m_spriteram s) <= fuel)%nat.

(** *** Inputs of the star field and concrete snapshots *)

(** Two snapshots agree on what the star field reads: [bg_ctrl], the ROM,
    the odd bytes of [bgram] in [0xE1..0xFF] and bit 7 of the even bytes in
    [0xE0..0xFE]. *)
Definition star_inputs_agree (s1 s2 : skyfox_state) : Prop :=
  m_bg_ctrl s1 = m_bg_ctrl s2 /\
  gfx2_rom s1 = gfx2_rom s2 /\
  forall k, 0 <= k < 16 ->
    rd (m_bgram s1) (0xE1 + 2 * k) = rd (m_bgram s2) (0xE1 + 2 * k) /\
    Z.testbit (rd (m_bgram s1) (0xE0 + 2 * k)) 7
    = Z.testbit (rd (m_bgram s2) (0xE0 + 2 * k)) 7.

(** A graphics element of 8x8 tiles whose every pixel is [v]. *)
Definition solid_gfx (v : Z) : gfx_element := mkGfx 8 8 0x1800 (fun _ _ _ => v).

(** The full 512x256 frame as a clip rectangle, and the visible area. *)
Definition full_frame : rectangle := mkRect 0 0 512 256.
Definition visible_area : rectangle := mkRect 0x60 0x10 0x1a0 0xf0.

(** Scenario A: [bg_ctrl = 0], work RAM and star ROM all zero; the sprite
    tiles are transparent everywhere. *)
(** A snapshot whose star pattern register selects chunk 1. *)
Definition pattern1_state : skyfox_state :=
  mkState 0x02 (repeat x00 (Z.to_nat 256)) [] (repeat x00 (Z.to_nat 0x8000))
    (solid_gfx 0xFF) 512 256.

(** Two snapshots that differ in work RAM outside what the star field
    reads: byte 0 and the low seven bits of byte 0xE0. *)
Definition bgram_a : region := repeat x00 (Z.to_nat 256).
Definition bgram_b : region :=
  [x55] ++ repeat x00 (Z.to_nat 0xDF) ++ [x7f] ++ repeat x00 (Z.to_nat 0x1F).

Definition noninterf_a : skyfox_state :=
  mkState 0x2A bgram_a [] (repeat x07 (Z.to_nat 0x8000)) (solid_gfx 0xFF) 512 256.
Definition noninterf_b : skyfox_state :=
  mkState 0x2A bgram_b [x10; x40; x88; x00] (repeat x07 (Z.to_nat 0x8000))
    (solid_gfx 0x01) 512 256.

(** One 16x16 entry, and Scenario C: an 8x8 entry under flip-screen. *)
Definition sprite16_state : skyfox_state :=
  mkState 0 [] [x10; x40; x0e; x03] [] (solid_gfx 0x01) 512 256.
Definition scenario_c : skyfox_state :=
  mkState 0x01 [] [x20; x30; x00; x50] [] (solid_gfx 0x01) 512 256.

(** A graphics element whose tile [code] is solid with value [code + 1],
    and a table of two 8x8 entries at (0, 0): an all-zero entry, then tile 1. *)
Definition code_gfx : gfx_element := mkGfx 8 8 0x1800 (fun code _ _ => code + 1).
Definition two_sprites : skyfox_state :=
  mkState 0 [] [x00; x00; x00; x00; x00; x00; x10; x00] [] code_gfx 512 256.

(** Scenario B: a 1024-byte table whose first entry is the 32x32 sprite
    [{0x10, 0x40, 0x88, 0x00}] and whose 255 other entries select pattern
    tile 1; the sixteen 8x8 tiles of pattern tile 0 are solid 0x01, every
    other tile is transparent; the star ROM holds 0xFF so that the stars
    repeat the clear colour. *)
Definition tile0_gfx : gfx_element :=
  mkGfx 8 8 0x1800 (fun code _ _ => if code <? 16 then 0x01 else 0xFF).
Definition scenario_b_table : region :=
  [x10; x40; x88; x00] ++ concat (repeat [x00; x00; x00; x01] 255).
Definition scenario_b : skyfox_state :=
  mkState 0 (repeat x00 (Z.to_nat 256)) scenario_b_table
    (repeat xff (Z.to_nat 0x8000)) tile0_gfx 512 256.

(** The blits of that 32x32 sprite: codes 0..15 row by row, each tile at
    [(0x80 + dx*8, 0x10 + dy*8)] and again 256 rows up. *)
Definition block_calls : list gfx_call :=
  flat_map (fun dy => flat_map (fun dx =>
     [ mkCall (4 * dy + dx) 0 0 0 (0x80 + dx * 8) (0x10 + dy * 8) 0xff;
       mkCall (4 * dy + dx) 0 0 0 (0x80 + dx * 8) (0x10 + dy * 8 - 256) 0xff ])
    (zrange 4)) (zrange 4).

(** Every blit of the entry at [o] fetches a tile outside pattern tile 0,
    with transparent pen 0xff. *)
Definition entry_avoids_tile0 (s : skyfox_state) (o : Z) : bool :=
  forallb (fun c => (16 <=? c_code c) && (c_code c <? 0x1800) && (c_transpen c =? 0xff))
    (spec_sprite_calls (decode_sprite s o)).

(** Checking a predicate on every pixel of the 512x256 frame. *)
Definition frame_check (f : Z -> Z -> bool) : bool :=
  forallb (fun y => forallb (fun x => f y x) (zrange 512)) (zrange 256).

Definition opt_eqb (a b : option Z) : bool :=
  match a, b with
  | Some u, Some v => u =? v
  | None, None => true
  | _, _ => false
  end.

Definition scenario_a (spriteram : region) : skyfox_state :=
  mkState 0 (repeat x00 (Z.to_nat 256)) spriteram (repeat x00 (Z.to_nat 0x8000))
    (solid_gfx 0xFF) 512 256.

(** *** The star field seen from a pixel *)

(** Star [i] is drawn and lands on bitmap position [(y, x)]. *)
Definition star_hits (s : skyfox_state) (i y x : Z) : bool :=
  star_drawn s i && (y =? Z.rem (star_y i) 256) && (x =? Z.rem (star_x s i) 512).

(** The pen that the stars of index below [n] leave at [(y, x)]: that of the
    highest index landing there. *)
Fixpoint star_at_upto (s : skyfox_state) (n : nat) (y x : Z) : option Z :=
  match n with
  | O => None
  | Datatypes.S k =>
      if star_hits s (Z.of_nat k) y x then Some (star_pen s (Z.of_nat k))
      else star_at_upto s k y x
  end.

Definition star_at (s : skyfox_state) (y x : Z) : option Z :=
  star_at_upto s (Z.to_nat 0x1000) y x.

(** Stars 14 and 15 carry pens 1 and 2; with the work RAM and the rest of
    the ROM zero, all sixteen stars of row 1 land on column 0x5B. *)
Definition two_pen_rom : region :=
  repeat x00 (Z.to_nat 28) ++ [x01; x00; x02] ++ repeat x00 (Z.to_nat (0x8000 - 31)).
Definition two_pen_state : skyfox_state :=
  mkState 0 (repeat x00 (Z.to_nat 256)) [] two_pen_rom (solid_gfx 0xFF) 512 256.

(** The same snapshot with the bits of [bg_ctrl] that the star field does
    not read (0, 6 and 7) set. *)
Definition two_pen_state_flipped : skyfox_state :=
  mkState 0xC1 (repeat x00 (Z.to_nat 256)) [] two_pen_rom (solid_gfx 0xFF) 512 256.

(** *** Sprite codes seen as cells of a 32x32 tile *)

(** The 32x32 tile an entry selects: byte 3 of the entry, tiles 0x80..0xFF
    being moved up by 0x80 when bit 7 of [bg_ctrl] is set ("Tiles $80-ff are
    bankswitched to cover $180 tiles"). *)
Definition tile32 (s : skyfox_state) (offs : Z) : Z :=
  let b3 := rd (m_spriteram s) (offs + 3) in
  if Z.testbit (m_bg_ctrl s) 7 && (0x80 <=? b3) then b3 + 0x80 else b3.

(** Checking a predicate on every pair of byte values. *)
Definition byte_pairs_check (f : Z -> Z -> bool) : bool :=
  forallb (fun b3 => forallb (fun b2 => f b2 b3) (zrange 256)) (zrange 256).

(** For code bytes [b2], [b3] and a bank shift: [high_code] is sixteen times
    the 32x32 tile, and [low_code] names an aligned n-by-n block of the 4x4
    grid of 8x8 cells. *)
Definition code_fields_ok (shift b2 b3 : Z) : bool :=
  let code16 := Z.lor (Z.shiftl b3 8) b2 in
  let n := fst (spec_size_low code16) in
  let low := snd (spec_size_low code16) in
  let high := Z.land (Z.shiftr code16 4) 0x7f0 + Z.shiftr (Z.land code16 0x8000) shift in
  let tile := if (shift =? 3) && (0x80 <=? b3) then b3 + 0x80 else b3 in
  (high =? 16 * tile) && (0 <=? low)
  && (low / 4 + n <=? 4) && (low mod 4 + n <=? 4)
  && ((low / 4) mod n =? 0) && ((low mod 4) mod n =? 0).

(** A table of two entries on tile 0x90 with the bank bit set: a 16x16
    sprite of its lower right quadrant, then an 8x8 sprite. *)
Definition banked_state : skyfox_state :=
  mkState 0x80 [] [x10; x40; x38; x90; x20; x50; xd0; x90] [] (solid_gfx 0x01) 512 256.

(** *** Main blits and wrap-around copies *)

(** The elements at even positions: of a sprite's calls, the main blits. *)
Fixpoint evens {A : Type} (l : list A) : list A :=
  match l with
  | [] => []
  | a :: l' => a :: match l' with
                    | [] => []
                    | _ :: r => evens r
                    end
  end.

(** A blit moved up by 256 rows, and a main blit followed by that copy. *)
Definition up256 (c : gfx_call) : gfx_call :=
  mkCall (c_code c) (c_color c) (c_flipx c) (c_flipy c)
    (c_destx c) (c_desty c - 256) (c_transpen c).

Definition with_clone (c : gfx_call) : list gfx_call := [c; up256 c].

(** An 8x8 blit reflected through a screen of [w] by [h] pixels: both flip
    flags negated, the box mirrored. *)
Definition reflect_call (w h : Z) (c : gfx_call) : gfx_call :=
  mkCall (c_code c) (c_color c) (lnot_int (c_flipx c)) (lnot_int (c_flipy c))
    (w - c_destx c - 8) (h - c_desty c - 8) (c_transpen c).

(** The snapshot with bit 0 of [bg_ctrl] (flip-screen) set. *)
Definition set_flip_screen (s : skyfox_state) : skyfox_state :=
  mkState (Z.lor (m_bg_ctrl s) 1) (m_bgram s) (m_spriteram s) (gfx2_rom s)
    (gfx0 s) (screen_width s) (screen_height s).

(** The loop header of [draw_sprites] alone, recording the offsets visited. *)
Definition visited_offsets (fuel : nat) (s : skyfox_state) : option (list Z) :=
  for_lt fuel 0 (Z.of_nat (List.length (m_spriteram s))) 4
    (fun o l => Some (l ++ [o])) [].

(** A sprite table cut short: six bytes, one and a half entries. *)
Definition ragged_state : skyfox_state :=
  mkState 0 [] [x10; x40; x38; x90; x20; x50] [] (solid_gfx 0x01) 512 256.

(** A 32x32 sprite at y = 0xF0, leaving the screen at the bottom; tile
    pixels are solid 0x01. *)
Definition wrapping_state : skyfox_state :=
  mkState 0 (repeat x00 (Z.to_nat 256)) [xf0; x40; x88; x00]
    (repeat xff (Z.to_nat 0x8000)) (solid_gfx 0x01) 512 256.

(** A table of two entries: the 16x16 entry of [sprite16_state], then the
    8x8 entry of Scenario C. *)
Definition sprite_pair : skyfox_state :=
  mkState 0 [] [x10; x40; x0e; x03; x20; x30; x00; x50] [] (solid_gfx 0x01) 512 256.

(** The same table under flip-screen. *)
Definition flipped_pair : skyfox_state :=
  mkState 0x01 [] [x10; x40; x0e; x03; x20; x30; x00; x50] [] (solid_gfx 0x01) 512 256.

(** A 1024-byte table of all-zero entries under flip-screen. *)
Definition zero_table_flipped : skyfox_state :=
  mkState 0x01 [] (repeat x00 (Z.to_nat 1024)) [] (solid_gfx 0x01) 512 256.

End Skyfox.

(** ** Chack'n Pop address map *)

Module Chaknpop.

(** How a range of the address map is handled. *)
Inductive handler :=
| Rom
| Ram
| RamWrite        (* ram().w(...) *)
| ReadWrite       (* rw(...) *)
| ReadOnly        (* r(...) *)
| WriteOnly       (* w(...) *)
| PortRead        (* portr(...) *)
| BankReadWrite.  (* bankrw(...) *)

Record map_entry := mkEntry {
  addr_start : Z;
  addr_end : Z;            (* inclusive *)
  entry_handler : handler;
  entry_share : option string
}.

Definition chaknpop_map : list map_entry :=
  [ mkEntry 0x0000 0x7fff Rom None;
    mkEntry 0x8000 0x87ff Ram None;
    mkEntry 0x8800 0x8800 ReadWrite None;
    mkEntry 0x8801 0x8801 ReadOnly None;
    mkEntry 0x8802 0x8802 WriteOnly None;
    mkEntry 0x8804 0x8805 ReadWrite None;
    mkEntry 0x8806 0x8807 ReadWrite None;
    mkEntry 0x8808 0x8808 PortRead None;
    mkEntry 0x8809 0x8809 PortRead None;
    mkEntry 0x880a 0x880a PortRead None;
    mkEntry 0x880b 0x880b PortRead None;
    mkEntry 0x880c 0x880c ReadWrite None;
    mkEntry 0x880d 0x880d WriteOnly None;
    mkEntry 0x9000 0x93ff RamWrite (Some "tx_ram"%string);
    mkEntry 0x9800 0x983f RamWrite (Some "attr_ram"%string);
    mkEntry 0x9840 0x98ff Ram (Some "spr_ram"%string);
    mkEntry 0xa000 0xbfff Rom None;
    mkEntry 0xc000 0xffff BankReadWrite None ].

Definition entry_bytes (e : map_entry) : Z := addr_end e - addr_start e + 1.

(** The ranges of the map that carry a given share tag. *)
Definition shares (tag : string) : list map_entry :=
  filter (fun e => match entry_share e with
                   | Some t => String.eqb t tag
                   | None => false
                   end) chaknpop_map.

Definition share_bytes (tag : string) : Z :=
  fold_right Z.add 0 (map entry_bytes (shares tag)).

(** Modelled from the spec: the sprite entry of section 4.7, four bytes in
    the order tile / colour / y / x (the Chack'n Pop sprite renderer is not
    part of these sources). *)
Record sprite_entry := mkSpriteEntry {
  se_tile : Z;
  se_colour : Z;
  se_y : Z;
  se_x : Z
}.

Definition sprite_entry_at (spr_ram : region) (k : Z) : sprite_entry :=
  mkSpriteEntry (rd spr_ram (4 * k)) (rd spr_ram (4 * k + 1))
                (rd spr_ram (4 * k + 2)) (rd spr_ram (4 * k + 3)).

(** Number of 4-byte entries a sprite table holds. *)
Definition sprite_count (spr_ram : region) : Z := Z.of_nat (List.length spr_ram) / 4.

End Chaknpop.

(** ** Pooyan: interrupt gating and address map *)

Module Pooyan.

Inductive line_state := CLEAR_LINE | ASSERT_LINE.

(** What the two interrupt handlers touch: the enable flag and the NMI
    input line of the main CPU.  [m_irq_enable] is declared in the driver's
    header, outside these sources; it holds the line level last written. *)
Record irq_state := mkIrq {
  m_irq_enable : Z;
  nmi_line : line_state
}.

(** [if (state && m_irq_enable) set_input_line(INPUT_LINE_NMI, ASSERT_LINE)] *)
Definition vblank_irq (state : Z) (st : irq_state) : irq_state :=
  if negb (state =? 0) && negb (m_irq_enable st =? 0)
  then mkIrq (m_irq_enable st) ASSERT_LINE
  else st.

(** [m_irq_enable = state;
     if (!m_irq_enable) set_input_line(INPUT_LINE_NMI, CLEAR_LINE)] *)
Definition irq_enable_w (state : Z) (st : irq_state) : irq_state :=
  let st := mkIrq state (nmi_line st) in
  if m_irq_enable st =? 0 then mkIrq (m_irq_enable st) CLEAR_LINE else st.

(** The line callbacks that reach the two handlers. *)
Inductive event :=
| Vblank (state : Z)        (* screen_vblank -> vblank_irq *)
| IrqEnable (state : Z).    (* mainlatch Q0 -> irq_enable_w *)

Definition step (st : irq_state) (e : event) : irq_state :=
  match e with
  | Vblank state => vblank_irq state st
  | IrqEnable state => irq_enable_w state st
  end.

Definition run (events : list event) (st : irq_state) : irq_state :=
  fold_left step events st.

(** Power-on: interrupts disabled, line clear. *)
Definition power_on : irq_state := mkIrq 0 CLEAR_LINE.

Definition is_disable (e : event) : bool :=
  match e with
  | IrqEnable state => state =? 0
  | Vblank _ => false
  end.

(** One range of [main_map]: addresses whose bits outside [mirror] fall in
    [start .. end] (the mirror bits are not decoded). *)
Record map_entry := mkEntry {
  e_start : Z;
  e_end : Z;
  e_mirror : Z;
  e_read : bool;
  e_write : bool;
  e_tag : string
}.

Definition main_map : list map_entry :=
  [ mkEntry 0x0000 0x7fff 0x0000 true false "rom";
    mkEntry 0x8000 0x83ff 0x0000 true true "colorram";
    mkEntry 0x8400 0x87ff 0x0000 true true "videoram";
    mkEntry 0x8800 0x8fff 0x0000 true true "ram";
    mkEntry 0x9000 0x90ff 0x0b00 true true "spriteram";
    mkEntry 0x9400 0x94ff 0x0b00 true true "spriteram2";
    mkEntry 0xa000 0xa000 0x5e7f true false "DSW1";
    mkEntry 0xa080 0xa080 0x5e1f true false "IN0";
    mkEntry 0xa0a0 0xa0a0 0x5e1f true false "IN1";
    mkEntry 0xa0c0 0xa0c0 0x5e1f true false "IN2";
    mkEntry 0xa0e0 0xa0e0 0x5e1f true false "DSW0";
    mkEntry 0xa000 0xa000 0x5e7f false true "watchdog";
    mkEntry 0xa100 0xa100 0x5e7f false true "sound_data_w";
    mkEntry 0xa180 0xa187 0x5e78 false true "mainlatch" ].

Definition matches (e : map_entry) (a : Z) : bool :=
  let a' := Z.land a (Z.lxor 0xffff (e_mirror e)) in
  (e_start e <=? a') && (a' <=? e_end e).

Definition readers (a : Z) : list map_entry :=
  filter (fun e => e_read e && matches e a) main_map.

Definition writers (a : Z) : list map_entry :=
  filter (fun e => e_write e && matches e a) main_map.

(** Checking a predicate on [count] consecutive addresses from [a], and on
    every 16-bit address. *)
Fixpoint all_from (count : nat) (a : Z) (f : Z -> bool) : bool :=
  match count with
  | O => true
  | Datatypes.S k => f a && all_from k (a + 1) f
  end.

Definition all_addresses (f : Z -> bool) : bool :=
  all_from (Z.to_nat 0x10000) 0 f.

End Pooyan.

(** ** Graphics layouts *)

(** A [gfx_layout] initialiser: tile size, tile count, the bit offset of
    each plane, of each column and of each row, and the bit distance between
    consecutive tiles. *)
Record gfx_layout := mkLayout {
  gl_width : Z;
  gl_height : Z;
  gl_total : Z;
  gl_planeoffset : list Z;
  gl_xoffset : list Z;
  gl_yoffset : list Z;
  gl_charincrement : Z
}.

(** A cell of a tile: plane, column, row. *)
Definition cell := (nat * (nat * nat))%type.

(** Bit offset of a cell inside its tile. *)
Definition cell_offset (l : gfx_layout) (t : cell) : Z :=
  let '(p, (x, y)) := t in
  nth p (gl_planeoffset l) 0 + nth x (gl_xoffset l) 0 + nth y (gl_yoffset l) 0.

(** Modelled from the spec: the PatternDecoder of section 4.1 gathers one
    bit per plane at [(x, y)]; the bit of plane [p] of pixel [(x, y)] of tile
    [c] sits at this bit address of the graphics region (the decoder itself
    is framework code). *)
Definition bit_address (l : gfx_layout) (c : Z) (t : cell) : Z :=
  c * gl_charincrement l + cell_offset l t.

Definition layout_cells (l : gfx_layout) : list cell :=
  list_prod (seq 0 (List.length (gl_planeoffset l)))
    (list_prod (seq 0 (Z.to_nat (gl_width l))) (seq 0 (Z.to_nat (gl_height l)))).

Definition cell_eqb (t1 t2 : cell) : bool :=
  let '(p1, (x1, y1)) := t1 in
  let '(p2, (x2, y2)) := t2 in
  Nat.eqb p1 p2 && Nat.eqb x1 x2 && Nat.eqb y1 y2.

(** The layout fits a region of [region_bits] bits: the tables have the
    declared sizes; every cell offset is a multiple of the span of all tiles
    plus a remainder below the tile increment, and stays inside the region;
    distinct cells have distinct offsets. *)
Definition layout_ok (l : gfx_layout) (region_bits : Z) : bool :=
  let g := gl_total l * gl_charincrement l in
  (0 <? gl_charincrement l) && (0 <? gl_total l)
  && (Z.of_nat (List.length (gl_xoffset l)) =? gl_width l)
  && (Z.of_nat (List.length (gl_yoffset l)) =? gl_height l)
  && forallb (fun t => let o := cell_offset l t in
                       (0 <=? o) && (o mod g <? gl_charincrement l)
                       && ((o / g + 1) * g <=? region_bits))
       (layout_cells l)
  && (let offsets := map (fun t => (t, cell_offset l t)) (layout_cells l) in
      forallb (fun a =>
                 forallb (fun b => implb (snd a =? snd b) (cell_eqb (fst a) (fst b)))
                   offsets)
        offsets).

(** Every cell's plane sits in the chunk of the region numbered [chunk p]. *)
Definition planes_in_chunks (l : gfx_layout) (chunk_bits : Z) (chunk : nat -> Z) : bool :=
  forallb (fun t : cell => cell_offset l t / chunk_bits =? chunk (fst t)) (layout_cells l).

(** [STEP4(start, step)] and [STEP8(start, step)] of the layout macros. *)
Definition STEP4 (start step : Z) : list Z :=
  map (fun k => start + k * step) [0; 1; 2; 3].
Definition STEP8 (start step : Z) : list Z :=
  map (fun k => start + k * step) [0; 1; 2; 3; 4; 5; 6; 7].

(** ** ROM regions and DIP switches *)

Record rom_load := mkLoad {
  load_name : string;
  load_offset : Z;
  load_length : Z
}.

Record rom_region := mkRegion {
  region_tag : string;
  region_size : Z;
  region_loads : list rom_load
}.

Definition load_covers (l : rom_load) (a : Z) : bool :=
  (load_offset l <=? a) && (a <? load_offset l + load_length l).

(** One [PORT_DIPNAME] with its [PORT_DIPSETTING] values. *)
Record dip := mkDip {
  dip_mask : Z;
  dip_default : Z;
  dip_settings : list Z
}.

(** Every value of the port selects exactly one setting of every switch,
    the default is one of the settings, and the masks split the eight bits. *)
Definition count_setting (d : dip) (v : Z) : nat :=
  List.length (filter (fun sv => sv =? Z.land v (dip_mask d)) (dip_settings d)).

Definition dip_port_ok (port : list dip) : bool :=
  forallb (fun d =>
             existsb (fun sv => sv =? dip_default d) (dip_settings d)
             && forallb (fun v => Nat.eqb (count_setting d v) 1) (map Z.of_nat (seq 0 256)))
          port
  && (fold_right Z.lor 0 (map dip_mask port) =? 0xff)
  && (fold_right Z.add 0 (map dip_mask port) =? 0xff).

(** ** Chack'n Pop: maps, ROMs, layouts and switches *)

Module ChaknpopHw.

Import Chaknpop.

Definition covers (e : map_entry) (a : Z) : bool :=
  (addr_start e <=? a) && (a <=? addr_end e).

(** The range that answers an address. *)
Definition decode (a : Z) : option map_entry :=
  find (fun e => covers e a) chaknpop_map.

Definition rom_maincpu : rom_region :=
  mkRegion "maincpu" 0xc000
    [ mkLoad "ao4_01.ic28" 0x00000 0x2000;
      mkLoad "ao4_02.ic27" 0x02000 0x2000;
      mkLoad "ao4_03.ic26" 0x04000 0x2000;
      mkLoad "ao4_04.ic25" 0x06000 0x2000;
      mkLoad "ao4_05.ic3" 0x0a000 0x2000 ].

Definition rom_mcu : rom_region :=
  mkRegion "bmcu:mcu" 0x0800 [ mkLoad "ao4_06.ic23" 0x0000 0x0800 ].

Definition rom_gfx1 : rom_region :=
  mkRegion "gfx1" 0x4000
    [ mkLoad "ao4_08.ic14" 0x0000 0x2000;
      mkLoad "ao4_07.ic15" 0x2000 0x2000 ].

Definition rom_gfx2 : rom_region :=
  mkRegion "gfx2" 0x4000
    [ mkLoad "ao4_09.ic98" 0x0000 0x2000;
      mkLoad "ao4_10.ic97" 0x2000 0x2000 ].

Definition rom_proms : rom_region :=
  mkRegion "proms" 0x0800
    [ mkLoad "ao4-11.ic96" 0x0000 0x0400;
      mkLoad "ao4-12.ic95" 0x0400 0x0400 ].

Definition data_regions : list rom_region := [rom_mcu; rom_gfx1; rom_gfx2; rom_proms].

Definition spritelayout : gfx_layout :=
  mkLayout 16 16 256
    [0; 0x2000 * 8]
    [0; 1; 2; 3; 4; 5; 6; 7;
     8 * 8 + 0; 8 * 8 + 1; 8 * 8 + 2; 8 * 8 + 3; 8 * 8 + 4; 8 * 8 + 5; 8 * 8 + 6; 8 * 8 + 7]
    [0 * 8; 1 * 8; 2 * 8; 3 * 8; 4 * 8; 5 * 8; 6 * 8; 7 * 8;
     16 * 8; 17 * 8; 18 * 8; 19 * 8; 20 * 8; 21 * 8; 22 * 8; 23 * 8]
    (32 * 8).

Definition charlayout : gfx_layout :=
  mkLayout 8 8 1024
    [0; 0x2000 * 8]
    [0; 1; 2; 3; 4; 5; 6; 7]
    [0 * 8; 1 * 8; 2 * 8; 3 * 8; 4 * 8; 5 * 8; 6 * 8; 7 * 8]
    (8 * 8).

Definition DSWC : list dip :=
  [ mkDip 0x01 0x01 [0x00; 0x01];
    mkDip 0x02 0x00 [0x02; 0x00];
    mkDip 0x04 0x04 [0x04; 0x00];
    mkDip 0x08 0x08 [0x08; 0x00];
    mkDip 0x10 0x10 [0x00; 0x10];
    mkDip 0x20 0x20 [0x00; 0x20];
    mkDip 0x40 0x40 [0x40; 0x00];
    mkDip 0x80 0x00 [0x00; 0x80] ].

Definition DSWB : list dip :=
  [ mkDip 0x03 0x03 [0x00; 0x01; 0x02; 0x03];
    mkDip 0x04 0x04 [0x04; 0x00];
    mkDip 0x18 0x08 [0x00; 0x08; 0x10; 0x18];
    mkDip 0x20 0x00 [0x20; 0x00];
    mkDip 0x40 0x40 [0x40; 0x00];
    mkDip 0x80 0x00 [0x00; 0x80] ].

Definition DSWA : list dip :=
  [ mkDip 0x0f 0x00
      [0x0f; 0x0e; 0x0d; 0x0c; 0x0b; 0x0a; 0x09; 0x08;
       0x00; 0x01; 0x02; 0x03; 0x04; 0x05; 0x06; 0x07];
    mkDip 0xf0 0x00
      [0xf0; 0xe0; 0xd0; 0xc0; 0xb0; 0xa0; 0x90; 0x80;
       0x00; 0x10; 0x20; 0x30; 0x40; 0x50; 0x60; 0x70] ].

End ChaknpopHw.

(** ** Pooyan: layouts and switches *)

Module PooyanHw.

(** Bits of each graphics region ([ROM_REGION( 0x2000, "gfx1" )] and
    "gfx2"), and [RGN_FRAC(1,2)] of it. *)
Definition gfx_region_bits : Z := 0x2000 * 8.
Definition RGN_FRAC_1_2 : Z := gfx_region_bits / 2.

Definition charlayout : gfx_layout :=
  mkLayout 8 8 (RGN_FRAC_1_2 / (16 * 8))
    [RGN_FRAC_1_2 + 4; RGN_FRAC_1_2 + 0; 4; 0]
    (STEP4 0 1 ++ STEP4 (8 * 8) 1)
    (STEP8 0 8)
    (16 * 8).

Definition spritelayout : gfx_layout :=
  mkLayout 16 16 (RGN_FRAC_1_2 / (64 * 8))
    [RGN_FRAC_1_2 + 4; RGN_FRAC_1_2 + 0; 4; 0]
    (STEP4 0 1 ++ STEP4 (8 * 8) 1 ++ STEP4 (16 * 8) 1 ++ STEP4 (24 * 8) 1)
    (STEP8 0 8 ++ STEP8 (32 * 8) 8)
    (64 * 8).

Definition DSW1 : list dip :=
  [ mkDip 0x03 0x03 [0x03; 0x02; 0x01; 0x00];
    mkDip 0x04 0x00 [0x00; 0x04];
    mkDip 0x08 0x08 [0x08; 0x00];
    mkDip 0x70 0x70 [0x70; 0x60; 0x50; 0x40; 0x30; 0x20; 0x10; 0x00];
    mkDip 0x80 0x00 [0x80; 0x00] ].

End PooyanHw.

(** * Properties *)

Section ByteFacts.

Lemma byte_val_range (b : byte) : 0 <= byte_val b < 256.
Proof.
  unfold byte_val. pose proof (Byte.to_N_bounded b). lia.
Qed.

Lemma rd_range (m : region) (a : Z) : 0 <= rd m a < 256.
Proof.
  unfold rd. destruct (a <? 0); [lia|].
  destruct (nth_error m (Z.to_nat a)); [apply byte_val_range | lia].
Qed.

Lemma land_pow2_testbit (v n : Z) :
  0 <= n -> (Z.land v (2 ^ n) =? 0) = negb (Z.testbit v n).
Proof.
  intros Hn. destruct (Z.testbit v n) eqn:Hb; cbn [negb].
  - apply Z.eqb_neq. intros H0.
    assert (Ht : Z.testbit (Z.land v (2 ^ n)) n = false)
      by (rewrite H0; apply Z.bits_0).
    rewrite Z.land_spec, Hb, Z.pow2_bits_true in Ht by assumption.
    discriminate.
  - apply Z.eqb_eq. apply Z.bits_inj'. intros k Hk.
    rewrite Z.land_spec, Z.bits_0.
    destruct (Z.eq_dec n k) as [->|Hne].
    + rewrite Hb. reflexivity.
    + rewrite (Z.pow2_bits_false n k) by assumption. apply andb_false_r.
Qed.

Lemma land_low_bits (v k : Z) : 0 <= k -> Z.land v (2 ^ k - 1) = v mod 2 ^ k.
Proof.
  intros Hk. rewrite <- Z.land_ones by assumption.
  now rewrite Z.ones_equiv, Z.sub_1_r.
Qed.

End ByteFacts.

Import Skyfox.

(** ** Loops *)

Section Loops.

Context {S : Type}.

Lemma for_up_fold (n : nat) (i : Z) (body : Z -> S -> S) (st : S) :
  for_up n i body st
  = fold_left (fun a j => body j a) (map (fun k => i + Z.of_nat k) (seq 0 n)) st.
Proof.
  revert i st. induction n as [|n IH]; intros i st; [reflexivity|].
  cbn [for_up seq map fold_left]. rewrite IH, <- seq_shift, map_map.
  replace (i + Z.of_nat 0) with i by lia.
  f_equal. apply map_ext. intros k. lia.
Qed.

Lemma for_up_ext (n : nat) (i : Z) (f g : Z -> S -> S) (st : S) :
  (forall j a, i <= j < i + Z.of_nat n -> f j a = g j a) ->
  for_up n i f st = for_up n i g st.
Proof.
  revert i st. induction n as [|n IH]; intros i st H; [reflexivity|].
  cbn [for_up]. rewrite (H i st) by lia. apply IH.
  intros j a Hj. apply H. lia.
Qed.

End Loops.

(** ** The star field *)

Section StarField.

Variable s : skyfox_state.

Lemma pattern_bits : pattern s = Z.land (Z.shiftr (m_bg_ctrl s) 1) 0x3.
Proof. unfold pattern. now rewrite Z.shiftr_land. Qed.

Lemma pattern_range : 0 <= pattern s <= 3.
Proof.
  rewrite pattern_bits. change 0x3 with (2 ^ 2 - 1).
  rewrite land_low_bits by lia.
  pose proof (Z.mod_pos_bound (Z.shiftr (m_bg_ctrl s) 1) (2 ^ 2)). lia.
Qed.

Lemma blinking_bit : blinking s = Z.testbit (m_bg_ctrl s) 3.
Proof.
  unfold blinking. change 0x8 with (2 ^ 3).
  rewrite land_pow2_testbit by lia. apply negb_involutive.
Qed.

Lemma star_slot_range (i : Z) : 0 <= Z.land i 0xf < 16.
Proof.
  change 0xf with (2 ^ 4 - 1). rewrite land_low_bits by lia.
  apply Z.mod_pos_bound. lia.
Qed.

Lemma star_offs_mod (i : Z) :
  0 <= i ->
  star_offs s i = (i * 2) mod 0x2000 + Z.land (Z.shiftr (m_bg_ctrl s) 1) 0x3 * 0x2000.
Proof.
  intros Hi. unfold star_offs. rewrite pattern_bits, Z.rem_mod_nonneg by lia.
  reflexivity.
Qed.

Lemma star_offs_chunk (i : Z) :
  0 <= i ->
  pattern s * 0x2000 <= star_offs s i /\
  star_offs s i + 1 < (pattern s + 1) * 0x2000.
Proof.
  intros Hi. unfold star_offs. rewrite Z.rem_mod_nonneg by lia.
  pose proof (Z.mod_pos_bound (i * 2) 0x2000 ltac:(lia)) as Hm.
  assert (He : (i * 2) mod 0x2000 = 2 * (i mod 0x1000)).
  { replace (i * 2) with (2 * i) by lia.
    change 0x2000 with (2 * 0x1000).
    rewrite Z.mul_mod_distr_l by lia. reflexivity. }
  pose proof (Z.mod_pos_bound i 0x1000 ltac:(lia)).
  lia.
Qed.

Lemma star_pos_bit7 (i : Z) :
  star_pos s i
  = rd (m_bgram s) (0xE0 + Z.land i 0xF * 2 + 1) * 2
    + (if Z.testbit (rd (m_bgram s) (0xE0 + Z.land i 0xF * 2)) 7 then 1 else 0).
Proof.
  unfold star_pos, ramoffset. change 0x80 with (2 ^ 7).
  rewrite land_pow2_testbit by lia.
  now destruct (Z.testbit _ 7).
Qed.

Lemma star_x_nonneg (i : Z) : 0 <= star_x s i.
Proof.
  unfold star_x, star_pos.
  pose proof (rd_range (gfx2_rom s) (star_offs s i + 1)).
  pose proof (rd_range (m_bgram s) (ramoffset i + 1)).
  destruct (_ =? 0); lia.
Qed.

Lemma star_y_nonneg (i : Z) : 0 <= i -> 0 <= star_y i.
Proof.
  intros Hi. unfold star_y.
  pose proof (proj2 (Z.shiftr_nonneg i 4) Hi). lia.
Qed.

End StarField.

Lemma draw_star_formula (s : skyfox_state) (i : Z) (a : bitmap_ind16) :
  0 <= i < 0x1000 ->
  draw_star s i a
  = if Z.testbit (m_bg_ctrl s) 3
       && (Z.land (Z.shiftr (m_bg_ctrl s) 4) 0x3 =? Z.land (star_pen s i) 0x3)
    then a
    else pix_set a (star_y i mod 256) (star_x s i mod 512) (star_pen s i).
Proof.
  intros Hi.
  pose proof (star_x_nonneg s i) as Hx.
  pose proof (star_y_nonneg i (proj1 Hi)) as Hy.
  unfold draw_star, star_drawn.
  rewrite blinking_bit, !Z.rem_mod_nonneg by lia.
  destruct (Z.testbit (m_bg_ctrl s) 3); cbn [negb andb orb].
  - rewrite orb_false_r. now destruct (_ =? _).
  - now rewrite orb_true_r.
Qed.

(** C1. For every star index [i] in [[0, 0x1000)] the loop body of
    [draw_background] computes [pos], [offs], [pen], [x] and [y] as the
    specification gives them and writes [fb[y mod 256, x mod 512] = pen],
    except that nothing is written exactly when bit 3 of [bg_ctrl] is set and
    [(bg_ctrl >> 4) & 3 = pen & 3]; [draw_background] runs that body for
    [i = 0, 1, ..., 0xFFF] in order. *)
Theorem star_field_formula (s : skyfox_state) (b : bitmap_ind16) (clip : rectangle) :
  draw_background s b clip
  = fold_left (fun a i => draw_star s i a) (zrange 0x1000) b /\
  forall i a, 0 <= i < 0x1000 ->
    let bg := m_bg_ctrl s in
    let pos := rd (m_bgram s) (0xE0 + Z.land i 0xF * 2 + 1) * 2
               + (if Z.testbit (rd (m_bgram s) (0xE0 + Z.land i 0xF * 2)) 7
                  then 1 else 0) in
    let offs := (i * 2) mod 0x2000 + Z.land (Z.shiftr bg 1) 0x3 * 0x2000 in
    let pen := rd (gfx2_rom s) offs in
    let x := rd (gfx2_rom s) (offs + 1) * 2 + pos + 0x5B in
    let y := Z.shiftr i 4 + 1 in
    draw_star s i a
    = if Z.testbit bg 3 && (Z.land (Z.shiftr bg 4) 0x3 =? Z.land pen 0x3)
      then a
      else pix_set a (y mod 256) (x mod 512) pen.
Proof.
  split.
  - unfold draw_background, zrange. rewrite for_up_fold.
    f_equal.
  - intros i a Hi. cbv zeta.
    rewrite draw_star_formula by assumption.
    unfold star_x, star_pen, star_y.
    rewrite star_pos_bit7, star_offs_mod by lia.
    reflexivity.
Qed.

Lemma star_field_formula_witness :
  0 <= 0x123 < 0x1000 /\
  draw_star (scenario_a []) 0x123 (fun _ _ => 0xFF) 0x13 0x5B = 0.
Proof.
  split; [lia|].
  rewrite (proj2 (star_field_formula (scenario_a []) (fun _ _ => 0xFF) full_frame)
             0x123 (fun _ _ => 0xFF)) by lia.
  reflexivity.
Defined.

(** C5 (as stated, refuted). With [bg_ctrl = 0x02] the pattern register
    selects chunk 1, and star 0 reads the ROM at offset 0x2000: the reads do
    not stay below 0x2000. *)
Lemma star_offs_exceeds_8k :
  ~ (forall (s : skyfox_state) (i : Z), 0 <= i < 0x1000 ->
       star_offs s i < 0x2000 /\ star_offs s i + 1 < 0x2000).
Proof.
  intros H. specialize (H pattern1_state 0 ltac:(lia)).
  vm_compute in H. destruct H as [H _]. discriminate H.
Qed.

(** C5 (amended). Every ROM read of the star field stays inside the four
    0x2000-byte chunks of the star ROM: for every star index [i] in
    [[0, 0x1000)] and every [bg_ctrl], both offsets read lie in chunk
    [(bg_ctrl >> 1) & 3], hence below 0x8000, and so inside a ROM of 0x8000
    bytes. *)
Theorem star_offs_within_rom (s : skyfox_state) (i : Z) :
  0 <= i < 0x1000 ->
  let chunk := Z.land (Z.shiftr (m_bg_ctrl s) 1) 0x3 in
  chunk * 0x2000 <= star_offs s i /\
  star_offs s i + 1 < (chunk + 1) * 0x2000 /\
  star_offs s i + 1 < 0x8000 /\
  (List.length (gfx2_rom s) = Z.to_nat 0x8000 ->
   in_region (gfx2_rom s) (star_offs s i) /\
   in_region (gfx2_rom s) (star_offs s i + 1)).
Proof.
  intros Hi chunk. subst chunk. rewrite <- pattern_bits.
  pose proof (pattern_range s) as Hp.
  destruct (star_offs_chunk s i (proj1 Hi)) as [Hlo Hhi].
  repeat split; try lia; unfold in_region; rewrite H; lia.
Qed.

Lemma star_offs_within_rom_witness :
  0x2000 <= star_offs pattern1_state 0xFFF /\
  star_offs pattern1_state 0xFFF + 1 < 0x8000 /\
  in_region (gfx2_rom pattern1_state) (star_offs pattern1_state 0xFFF + 1).
Proof.
  destruct (star_offs_within_rom pattern1_state 0xFFF ltac:(lia))
    as (Hlo & _ & Hhi & Hin).
  split; [exact Hlo|]. split; [exact Hhi|].
  exact (proj2 (Hin eq_refl)).
Defined.

(** ** What the star field depends on *)

Lemma star_agree (s1 s2 : skyfox_state) (i : Z) :
  star_inputs_agree s1 s2 ->
  star_drawn s1 i = star_drawn s2 i /\
  star_x s1 i = star_x s2 i /\
  star_pen s1 i = star_pen s2 i.
Proof.
  intros (Hbg & Hrom & Hram).
  pose proof (star_slot_range i) as Hk.
  destruct (Hram (Z.land i 0xf) Hk) as [Hodd Hbit].
  assert (Hoffs : star_offs s1 i = star_offs s2 i)
    by (unfold star_offs, pattern; now rewrite Hbg).
  assert (Hpen : star_pen s1 i = star_pen s2 i)
    by (unfold star_pen; now rewrite Hoffs, Hrom).
  assert (Hpos : star_pos s1 i = star_pos s2 i).
  { rewrite !star_pos_bit7.
    replace (0xE0 + Z.land i 0xF * 2 + 1) with (0xE1 + 2 * Z.land i 0xf) by lia.
    replace (0xE0 + Z.land i 0xF * 2) with (0xE0 + 2 * Z.land i 0xf) by lia.
    now rewrite Hodd, Hbit. }
  repeat split.
  - unfold star_drawn, blinking. now rewrite Hbg, Hpen.
  - unfold star_x. now rewrite Hoffs, Hrom, Hpos.
  - exact Hpen.
Qed.

(** C9. Two snapshots that agree on [bg_ctrl], on the star ROM, on the odd
    bytes of [bgram] in [0xE1..0xFF] and on bit 7 of the even bytes in
    [0xE0..0xFE] make [draw_background] write the same pixels with the same
    values: every star has the same draw decision, the same column and the
    same pen (its row is a function of the index alone), and the resulting
    bitmaps are equal, whatever the rest of the snapshot holds. *)
Theorem draw_background_depends_only_on_star_inputs
    (s1 s2 : skyfox_state) (b : bitmap_ind16) (clip1 clip2 : rectangle) :
  star_inputs_agree s1 s2 ->
  (forall i,
     star_drawn s1 i = star_drawn s2 i /\
     Z.rem (star_x s1 i) 512 = Z.rem (star_x s2 i) 512 /\
     star_pen s1 i = star_pen s2 i) /\
  draw_background s1 b clip1 = draw_background s2 b clip2.
Proof.
  intros H. split.
  - intros i. destruct (star_agree s1 s2 i H) as (Hd & Hx & Hp).
    rewrite Hx. auto.
  - unfold draw_background. apply for_up_ext. intros j a _.
    destruct (star_agree s1 s2 j H) as (Hd & Hx & Hp).
    unfold draw_star. now rewrite Hd, Hx, Hp.
Qed.

Lemma noninterf_agree : star_inputs_agree noninterf_a noninterf_b.
Proof.
  split; [reflexivity|]. split; [reflexivity|].
  intros k Hk.
  assert (Hc : k = 0 \/ k = 1 \/ k = 2 \/ k = 3 \/ k = 4 \/ k = 5 \/ k = 6 \/ k = 7 \/
               k = 8 \/ k = 9 \/ k = 10 \/ k = 11 \/ k = 12 \/ k = 13 \/ k = 14 \/
               k = 15) by lia.
  repeat (destruct Hc as [->|Hc]; [split; reflexivity|]).
  subst k. split; reflexivity.
Qed.

Lemma draw_background_depends_only_on_star_inputs_witness :
  star_inputs_agree noninterf_a noninterf_b /\
  m_bgram noninterf_a <> m_bgram noninterf_b /\
  star_drawn noninterf_a 0 = true /\
  star_drawn noninterf_b 0 = true /\
  draw_background noninterf_a (fun _ _ => 0xFF) full_frame 1 105 = 7 /\
  draw_background noninterf_b (fun _ _ => 0xFF) visible_area 1 105 = 7 /\
  draw_background noninterf_a (fun _ _ => 0xFF) full_frame
  = draw_background noninterf_b (fun _ _ => 0xFF) visible_area.
Proof.
  pose proof (draw_background_depends_only_on_star_inputs
                noninterf_a noninterf_b (fun _ _ => 0xFF) full_frame visible_area
                noninterf_agree) as [Hstars Heq].
  assert (Ha : draw_background noninterf_a (fun _ _ => 0xFF) full_frame 1 105 = 7)
    by (vm_compute; reflexivity).
  split; [exact noninterf_agree|].
  split; [discriminate|].
  split; [reflexivity|].
  split; [rewrite <- (proj1 (Hstars 0)); reflexivity|].
  split; [exact Ha|].
  split; [rewrite <- Heq; exact Ha | exact Heq].
Defined.

(** ** The tile loops *)

Section TileLoops.

Context {S : Type}.
Variable body : Z -> S -> option S.

Lemma for_ne_up (k : nat) : forall (fuel a : nat) (st : S),
  (k <= fuel)%nat ->
  for_ne fuel (Z.of_nat a) (Z.of_nat (a + k)) 1 body st
  = fold_opt body (map Z.of_nat (seq a k)) st.
Proof.
  induction k as [|k IH]; intros fuel a st Hf.
  - rewrite Nat.add_0_r. destruct fuel; cbn [for_ne]; now rewrite Z.eqb_refl.
  - destruct fuel as [|f]; [lia|].
    cbn [for_ne seq map fold_opt].
    destruct (Z.eqb_spec (Z.of_nat a) (Z.of_nat (a + Datatypes.S k))) as [E|_]; [lia|].
    destruct (body (Z.of_nat a) st) as [st'|]; [|reflexivity].
    replace (Z.of_nat a + 1) with (Z.of_nat (Datatypes.S a)) by lia.
    replace (a + Datatypes.S k)%nat with (Datatypes.S a + k)%nat by lia.
    apply IH. lia.
Qed.

Lemma for_ne_down (k : nat) : forall (fuel : nat) (st : S),
  (k <= fuel)%nat ->
  for_ne fuel (Z.of_nat k - 1) (-1) (-1) body st
  = fold_opt body (rev (map Z.of_nat (seq 0 k))) st.
Proof.
  induction k as [|k IH]; intros fuel st Hf.
  - destruct fuel; reflexivity.
  - destruct fuel as [|f]; [lia|].
    rewrite seq_S, map_app, rev_app_distr. cbn [for_ne map rev app fold_opt Nat.add].
    destruct (Z.eqb_spec (Z.of_nat (Datatypes.S k) - 1) (-1)) as [E|_]; [lia|].
    replace (Z.of_nat (Datatypes.S k) - 1) with (Z.of_nat k) by lia.
    destruct (body (Z.of_nat k) st) as [st'|]; [|reflexivity].
    replace (Z.of_nat k + -1) with (Z.of_nat k - 1) by lia.
    apply IH. lia.
Qed.

(** The source's choice of start, end and increment walks [walk flip n]. *)
Lemma for_ne_walk (fuel : nat) (flip n : Z) (st : S) :
  0 <= n -> (Z.to_nat n <= fuel)%nat ->
  (let '(start, iend, inc) := if flip =? 0 then (0, n, 1) else (n - 1, -1, -1) in
   for_ne fuel start iend inc body st)
  = fold_opt body (walk flip n) st.
Proof.
  intros Hn Hf. unfold walk, zrange. destruct (flip =? 0).
  - pose proof (for_ne_up (Z.to_nat n) fuel 0 st Hf) as H.
    cbn [Nat.add Z.of_nat] in H. rewrite Z2Nat.id in H by assumption. exact H.
  - pose proof (for_ne_down (Z.to_nat n) fuel st Hf) as H.
    rewrite Z2Nat.id in H by assumption. exact H.
Qed.

Lemma for_lt_step4 (k : nat) : forall (fuel : nat) (i bound : Z) (st : S),
  (k <= fuel)%nat ->
  i + 4 * Z.of_nat k - 4 < bound <= i + 4 * Z.of_nat k ->
  (k = 0%nat -> bound <= i) ->
  for_lt fuel i bound 4 body st
  = fold_opt body (map (fun j => i + 4 * Z.of_nat j) (seq 0 k)) st.
Proof.
  induction k as [|k IH]; intros fuel i bound st Hf Hb H0.
  - specialize (H0 eq_refl).
    destruct fuel; cbn [for_lt]; destruct (Z.ltb_spec i bound); try lia; reflexivity.
  - destruct fuel as [|f]; [lia|].
    cbn [for_lt seq map fold_opt].
    destruct (Z.ltb_spec i bound); [|lia].
    replace (i + 4 * Z.of_nat 0) with i by lia.
    destruct (body i st) as [st'|]; [|reflexivity].
    rewrite (IH f (i + 4) bound st') by lia.
    rewrite <- seq_shift, map_map. f_equal. apply map_ext. intros j. lia.
Qed.

End TileLoops.

(** ** Sprites: the loops against the walk of section 4.4 *)

Lemma sp_n_cases (s : skyfox_state) (offs : Z) :
  let n := sp_n (decode_sprite s offs) in n = 1 \/ n = 2 \/ n = 4.
Proof.
  unfold decode_sprite.
  destruct (Z.land (sprite_code16 s offs) 0x88 =? 0x88);
    [|destruct (Z.land (sprite_code16 s offs) 0x88 =? 0x08)];
    destruct (Z.land (m_bg_ctrl s) 1 =? 0); cbn; auto.
Qed.

Section SpriteWalk.

Context {T : Type}.
Variable tp : gfx_call -> T -> T.

Lemma run_calls_app (l1 l2 : list gfx_call) (t : T) :
  run_calls tp (l1 ++ l2) t = run_calls tp l2 (run_calls tp l1 t).
Proof. apply fold_left_app. Qed.

Lemma draw_tile_fold (sp : sprite) (dy : Z) (cols : list Z) : forall code t,
  fold_opt (draw_tile tp sp dy) cols (code, t)
  = Some (snd (spec_row (sp_flipx sp) (sp_flipy sp) (sp_x sp) (sp_y sp) dy cols code),
          run_calls tp
            (fst (spec_row (sp_flipx sp) (sp_flipy sp) (sp_x sp) (sp_y sp) dy cols code))
            t).
Proof.
  induction cols as [|dx cols IH]; intros code t; [reflexivity|].
  cbn [fold_opt draw_tile spec_row]. rewrite IH.
  destruct (spec_row _ _ _ _ dy cols (code + 1)) as [l code']. reflexivity.
Qed.

Lemma draw_row_spec (fuel : nat) (sp : sprite) (dy code : Z) (t : T) :
  0 <= sp_n sp -> (Z.to_nat (sp_n sp) <= fuel)%nat ->
  draw_row tp fuel sp dy (code, t)
  = let r := spec_row (sp_flipx sp) (sp_flipy sp) (sp_x sp) (sp_y sp) dy
               (walk (sp_flipx sp) (sp_n sp)) code in
    Some (if sp_n sp =? 2 then snd r + 2 else snd r, run_calls tp (fst r) t).
Proof.
  intros Hn Hf.
  pose proof (for_ne_walk (draw_tile tp sp dy) fuel (sp_flipx sp) (sp_n sp) (code, t) Hn Hf)
    as H.
  unfold draw_row.
  destruct (sp_flipx sp =? 0); rewrite H, draw_tile_fold; reflexivity.
Qed.

Lemma draw_rows_fold (fuel : nat) (sp : sprite) (rows : list Z) :
  0 <= sp_n sp -> (Z.to_nat (sp_n sp) <= fuel)%nat ->
  forall code t, exists code',
    fold_opt (draw_row tp fuel sp) rows (code, t)
    = Some (code',
            run_calls tp
              (spec_rows (sp_n sp) (sp_flipx sp) (sp_flipy sp) (sp_x sp) (sp_y sp)
                 rows (walk (sp_flipx sp) (sp_n sp)) code) t).
Proof.
  intros Hn Hf. induction rows as [|dy rows IH]; intros code t.
  - exists code. reflexivity.
  - cbn [fold_opt spec_rows]. rewrite draw_row_spec by assumption. cbv zeta.
    destruct (spec_row _ _ _ _ dy _ code) as [l code1]. cbn [fst snd].
    destruct (IH (if sp_n sp =? 2 then code1 + 2 else code1) (run_calls tp l t))
      as [code' E].
    exists code'. rewrite E, run_calls_app. reflexivity.
Qed.

(** With fuel for four iterations the loops of one entry terminate, and
    make exactly the calls of the specification's walk, in its order. *)
Lemma draw_sprite_spec (fuel : nat) (s : skyfox_state) (offs : Z) (t : T) :
  (4 <= fuel)%nat ->
  draw_sprite tp fuel s offs t
  = Some (run_calls tp (spec_sprite_calls (decode_sprite s offs)) t).
Proof.
  intros Hf. unfold draw_sprite, spec_sprite_calls.
  set (sp := decode_sprite s offs).
  assert (Hn : 0 <= sp_n sp /\ (Z.to_nat (sp_n sp) <= fuel)%nat).
  { pose proof (sp_n_cases s offs) as H. cbv zeta in H. fold sp in H. lia. }
  destruct Hn as [Hn Hfn].
  pose proof (for_ne_walk (draw_row tp fuel sp) fuel (sp_flipy sp) (sp_n sp)
                (sp_low_code sp + sp_high_code sp, t) Hn Hfn) as H.
  destruct (draw_rows_fold fuel sp (walk (sp_flipy sp) (sp_n sp)) Hn Hfn
              (sp_low_code sp + sp_high_code sp) t) as [code' E].
  destruct (sp_flipy sp =? 0); rewrite H, E; reflexivity.
Qed.

Lemma draw_sprites_fold (fuel : nat) (s : skyfox_state) (offsets : list Z) (t : T) :
  (4 <= fuel)%nat ->
  fold_opt (draw_sprite tp fuel s) offsets t
  = Some (run_calls tp
            (flat_map (fun o => spec_sprite_calls (decode_sprite s o)) offsets) t).
Proof.
  intros Hf. revert t. induction offsets as [|o offsets IH]; intros t; [reflexivity|].
  cbn [fold_opt flat_map]. rewrite draw_sprite_spec, IH, run_calls_app by assumption.
  reflexivity.
Qed.

(** The whole table: entries are drawn in increasing offset order, each by
    its walk. *)
Lemma draw_sprites_spec (fuel : nat) (s : skyfox_state) (t : T) :
  enough_fuel s fuel ->
  draw_sprites tp fuel s t = Some (run_calls tp (spec_table_calls s) t).
Proof.
  intros [Hf Hlen]. unfold draw_sprites, spec_table_calls, sprite_offsets, zrange.
  set (bytes := Z.of_nat (List.length (m_spriteram s))).
  assert (Hb : 0 <= bytes) by (subst bytes; lia).
  pose proof (Z.div_mod (bytes + 3) 4 ltac:(lia)) as Hdm.
  pose proof (Z.mod_pos_bound (bytes + 3) 4 ltac:(lia)) as Hmod.
  rewrite (for_lt_step4 _ (Z.to_nat ((bytes + 3) / 4))).
  - rewrite map_map. cbn [Z.add]. now apply draw_sprites_fold.
  - subst bytes. lia.
  - rewrite Z2Nat.id by lia. lia.
  - intros H0. lia.
Qed.

End SpriteWalk.

Lemma run_calls_record (calls l : list gfx_call) :
  run_calls record_call calls l = l ++ calls.
Proof.
  revert l. induction calls as [|c calls IH]; intros l; cbn.
  - now rewrite app_nil_r.
  - unfold run_calls in IH. rewrite IH. unfold record_call.
    now rewrite <- app_assoc.
Qed.

(** The calls recorded for one entry, and for the whole table. *)
Lemma draw_sprite_calls_spec (fuel : nat) (s : skyfox_state) (offs : Z) :
  (4 <= fuel)%nat ->
  draw_sprite_calls fuel s offs = Some (spec_sprite_calls (decode_sprite s offs)).
Proof.
  intros Hf. unfold draw_sprite_calls. rewrite draw_sprite_spec by assumption.
  now rewrite run_calls_record.
Qed.

Lemma draw_sprites_calls_spec (fuel : nat) (s : skyfox_state) :
  enough_fuel s fuel ->
  draw_sprites_calls fuel s = Some (spec_table_calls s).
Proof.
  intros Hf. unfold draw_sprites_calls. rewrite draw_sprites_spec by assumption.
  now rewrite run_calls_record.
Qed.

Lemma offsets_above (a n : nat) (o : Z) :
  In o (map (fun k => 4 * k) (map Z.of_nat (seq a n))) -> 4 * Z.of_nat a <= o.
Proof.
  rewrite map_map. intros H. apply in_map_iff in H. destruct H as (k & <- & Hk).
  apply in_seq in Hk. lia.
Qed.

Lemma offsets_sorted_from (n : nat) : forall a,
  StronglySorted Z.lt (map (fun k => 4 * k) (map Z.of_nat (seq a n))).
Proof.
  induction n as [|n IH]; intros a; cbn [seq map]; constructor.
  - apply IH.
  - apply Forall_forall. intros o Ho. apply offsets_above in Ho. lia.
Qed.

Lemma sprite_offsets_sorted (s : skyfox_state) : StronglySorted Z.lt (sprite_offsets s).
Proof. apply offsets_sorted_from. Qed.

(** The offsets visited are the multiples of four below the table size. *)
Lemma in_sprite_offsets (s : skyfox_state) (o : Z) :
  In o (sprite_offsets s)
  <-> (exists k, o = 4 * k) /\ 0 <= o < Z.of_nat (List.length (m_spriteram s)).
Proof.
  unfold sprite_offsets, zrange.
  set (bytes := Z.of_nat (List.length (m_spriteram s))).
  assert (Hb : 0 <= bytes) by (subst bytes; lia).
  pose proof (Z.div_mod (bytes + 3) 4 ltac:(lia)) as Hdm.
  pose proof (Z.mod_pos_bound (bytes + 3) 4 ltac:(lia)) as Hmod.
  rewrite map_map. split.
  - intros H. apply in_map_iff in H. destruct H as (k & <- & Hk).
    apply in_seq in Hk. split; [now exists (Z.of_nat k) | lia].
  - intros [[k ->] Hr]. apply in_map_iff. exists (Z.to_nat k).
    split; [lia | apply in_seq; lia].
Qed.

(** The tile codes of a walk are contiguous, up to the row advance of the
    16x16 case: tile [c] of row [r] (in walk order) has code
    [code + r * (n + skip) + c] with [skip = 2] when [n = 2] and 0 otherwise,
    and is drawn twice. *)
Lemma spec_rows_codes (n fx fy x y code : Z) :
  n = 1 \/ n = 2 \/ n = 4 ->
  map c_code (spec_rows n fx fy x y (walk fy n) (walk fx n) code)
  = flat_map (fun r => flat_map (fun c =>
        let k := code + r * (n + (if n =? 2 then 2 else 0)) + c in [k; k])
      (zrange n)) (zrange n).
Proof.
  intros [-> | [-> | ->]]; unfold walk;
    [ change (zrange 1) with [0]
    | change (zrange 2) with [0; 1]
    | change (zrange 4) with [0; 1; 2; 3] ];
    destruct (fx =? 0); destruct (fy =? 0);
    cbn; repeat (f_equal; try lia).
Qed.

(** C2. The renderer visits the entries at offsets 0, 4, 8, ... below the
    table size, in that order, and the calls of a frame are the entries'
    walks one after the other.  For every entry it selects [n] and
    [low_code] from [code16 & 0x88] by the table of section 4.4, computes
    [high_code] with shift 3 or 4 after bit 7 of [bg_ctrl], starts at
    [code = low_code + high_code], and its loops terminate having made
    exactly the calls of the walk: rows and columns in [[0,n)], reversed
    under the respective flip flag, each tile blitted at
    [(dx*8 + x, dy*8 + y)] and at [(dx*8 + x, dy*8 + y - 256)] with
    transparent index 0xFF, [code] incremented after every tile and advanced
    by 2 after each row exactly when [n = 2]. *)
Theorem draw_sprite_decode_and_walk (s : skyfox_state) (fuel : nat) :
  enough_fuel s fuel ->
  let code16 := fun offs =>
    Z.lor (Z.shiftl (rd (m_spriteram s) (offs + 3)) 8) (rd (m_spriteram s) (offs + 2)) in
  let entry_walk := fun offs =>
    let sp := decode_sprite s offs in
    spec_rows (sp_n sp) (sp_flipx sp) (sp_flipy sp) (sp_x sp) (sp_y sp)
      (walk (sp_flipy sp) (sp_n sp)) (walk (sp_flipx sp) (sp_n sp))
      (sp_low_code sp + sp_high_code sp) in
  draw_sprites_calls fuel s = Some (flat_map entry_walk (sprite_offsets s)) /\
  (forall o, In o (sprite_offsets s)
             <-> (exists k, o = 4 * k) /\ 0 <= o < Z.of_nat (List.length (m_spriteram s))) /\
  StronglySorted Z.lt (sprite_offsets s) /\
  (forall offs,
     let sp := decode_sprite s offs in
     let n := sp_n sp in
     let code := sp_low_code sp + sp_high_code sp in
     (n, sp_low_code sp) = spec_size_low (code16 offs) /\
     sp_high_code sp = spec_high_code (m_bg_ctrl s) (code16 offs) /\
     draw_sprite_calls fuel s offs = Some (entry_walk offs) /\
     map c_code (entry_walk offs)
     = flat_map (fun r => flat_map (fun c =>
           let k := code + r * (n + (if n =? 2 then 2 else 0)) + c in [k; k])
         (zrange n)) (zrange n)).
Proof.
  intros Hfuel code16 entry_walk. pose proof Hfuel as [Hf _].
  split; [|split; [|split]].
  - now apply draw_sprites_calls_spec.
  - apply in_sprite_offsets.
  - apply sprite_offsets_sorted.
  - intros offs sp n code. repeat split.
    + subst n sp code16. cbv beta. unfold decode_sprite, spec_size_low, sprite_code16.
      destruct (_ =? 0x88); [|destruct (_ =? 0x08)];
        destruct (Z.land (m_bg_ctrl s) 1 =? 0); reflexivity.
    + assert (Hsh : sprite_shift s = if Z.testbit (m_bg_ctrl s) 7 then 3 else 4).
      { unfold sprite_shift. change 0x80 with (2 ^ 7).
        rewrite land_pow2_testbit by lia. now destruct (Z.testbit _ 7). }
      subst sp code16. cbv beta. unfold decode_sprite, spec_high_code. rewrite Hsh.
      fold (sprite_code16 s offs).
      destruct (_ =? 0x88); [|destruct (_ =? 0x08)];
        destruct (Z.land (m_bg_ctrl s) 1 =? 0); reflexivity.
    + now apply draw_sprite_calls_spec.
    + apply spec_rows_codes. apply sp_n_cases.
Qed.

Lemma draw_sprite_decode_and_walk_witness :
  enough_fuel sprite_pair 8 /\
  option_map (map (fun c => (c_code c, c_destx c, c_desty c)))
    (draw_sprites_calls 8 sprite_pair)
  = Some [ (0x30, 136, 24); (0x30, 136, -232); (0x31, 128, 24); (0x31, 128, -232);
           (0x34, 136, 16); (0x34, 136, -240); (0x35, 128, 16); (0x35, 128, -240);
           (0x500, 0x60, 0x20); (0x500, 0x60, 0x20 - 256) ].
Proof.
  assert (Hf : enough_fuel sprite_pair 8) by (split; cbn; lia).
  split; [exact Hf|].
  destruct (draw_sprite_decode_and_walk sprite_pair 8 Hf) as (E & _).
  rewrite E. reflexivity.
Defined.

(** ** Flip-screen *)

Lemma walk_range (flip n j : Z) : In j (walk flip n) -> 0 <= j < n.
Proof.
  unfold walk, zrange. intros H.
  assert (Hin : In j (map Z.of_nat (seq 0 (Z.to_nat n))))
    by (destruct (flip =? 0); [assumption | now apply in_rev]).
  apply in_map_iff in Hin. destruct Hin as (k & <- & Hk).
  apply in_seq in Hk. lia.
Qed.

Section WalkForall.

Variable P : gfx_call -> Prop.
Variables n fx fy x y : Z.

Lemma spec_row_Forall (dy : Z) (cols : list Z) :
  (forall dx code, In dx cols -> Forall P (spec_blits fx fy x y code dx dy)) ->
  forall code, Forall P (fst (spec_row fx fy x y dy cols code)).
Proof.
  induction cols as [|dx cols IH]; intros H code; [constructor|].
  cbn [spec_row].
  specialize (IH (fun dx' c Hin => H dx' c (or_intror Hin)) (code + 1)).
  destruct (spec_row fx fy x y dy cols (code + 1)) as [l code']. cbn [fst] in *.
  apply Forall_app. split; [apply H; now left | exact IH].
Qed.

Lemma spec_rows_Forall (rows cols : list Z) :
  (forall dx dy code, In dx cols -> In dy rows ->
     Forall P (spec_blits fx fy x y code dx dy)) ->
  forall code, Forall P (spec_rows n fx fy x y rows cols code).
Proof.
  induction rows as [|dy rows IH]; intros H code; [constructor|].
  cbn [spec_rows].
  pose proof (spec_row_Forall dy cols
                (fun dx c Hin => H dx dy c Hin (or_introl eq_refl)) code) as Hrow.
  destruct (spec_row fx fy x y dy cols code) as [l code']. cbn [fst] in Hrow.
  apply Forall_app. split; [exact Hrow|].
  apply IH. intros dx dy' c Hdx Hdy. apply H; [assumption | now right].
Qed.

End WalkForall.

Lemma spec_sprite_calls_nonempty (s : skyfox_state) (offs : Z) :
  spec_sprite_calls (decode_sprite s offs) <> [].
Proof.
  unfold spec_sprite_calls.
  destruct (sp_n_cases s offs) as [E | [E | E]]; cbv zeta in E; rewrite E;
    unfold walk;
    [ change (zrange 1) with [0]
    | change (zrange 2) with [0; 1]
    | change (zrange 4) with [0; 1; 2; 3] ];
    destruct (sp_flipx _ =? 0); destruct (sp_flipy _ =? 0); discriminate.
Qed.

(** C4. The calls of a frame are those of the table's entries, in table
    order, and every sprite is blitted: each entry makes at least one call.
    When bit 0 of [bg_ctrl] is set, every blit of every sprite is made at
    the reflected position [x := width - x - n*8], [y := height - y - n*8]
    and with both flip flags inverted; when the bit is clear, the position
    and the flags decoded from the entry are used unchanged. *)
Theorem flip_screen_transform (s : skyfox_state) (fuel : nat) :
  enough_fuel s fuel ->
  let flip_screen := Z.testbit (m_bg_ctrl s) 0 in
  exists entry_calls : Z -> list gfx_call,
    draw_sprites_calls fuel s = Some (flat_map entry_calls (sprite_offsets s)) /\
    (forall o, In o (sprite_offsets s)
               <-> (exists k, o = 4 * k) /\
                   0 <= o < Z.of_nat (List.length (m_spriteram s))) /\
    forall offs,
      let code16 := Z.lor (Z.shiftl (rd (m_spriteram s) (offs + 3)) 8)
                          (rd (m_spriteram s) (offs + 2)) in
      let entry_flip_x := negb (Z.land code16 0x02 =? 0) in
      let entry_flip_y := negb (Z.land code16 0x04 =? 0) in
      let entry_y := rd (m_spriteram s) (offs + 0) in
      let entry_x :=
        Z.lor (Z.shiftl (rd (m_spriteram s) (offs + 1)) 1) (Z.land code16 1) in
      let n := fst (spec_size_low code16) in
      let x := if flip_screen then screen_width s - entry_x - n * 8 else entry_x in
      let y := if flip_screen then screen_height s - entry_y - n * 8 else entry_y in
      let flip_x := if flip_screen then negb entry_flip_x else entry_flip_x in
      let flip_y := if flip_screen then negb entry_flip_y else entry_flip_y in
      draw_sprite_calls fuel s offs = Some (entry_calls offs) /\
      entry_calls offs <> [] /\
      Forall (fun c =>
                negb (c_flipx c =? 0) = flip_x /\
                negb (c_flipy c =? 0) = flip_y /\
                exists dx dy, 0 <= dx < n /\ 0 <= dy < n /\
                  c_destx c = dx * 8 + x /\
                  (c_desty c = dy * 8 + y \/ c_desty c = dy * 8 + y - 256))
             (entry_calls offs).
Proof.
  intros Hfuel flip_screen. pose proof Hfuel as [Hf _].
  exists (fun o => spec_sprite_calls (decode_sprite s o)).
  split; [now apply draw_sprites_calls_spec|].
  split; [apply in_sprite_offsets|].
  intros offs code16 entry_flip_x entry_flip_y entry_y entry_x n x y flip_x flip_y.
  split; [now apply draw_sprite_calls_spec|].
  split; [apply spec_sprite_calls_nonempty|].
  set (sp := decode_sprite s offs).
  assert (Hfs : (Z.land (m_bg_ctrl s) 1 =? 0) = negb flip_screen).
  { subst flip_screen. change 1 with (2 ^ 0) at 1.
    now rewrite land_pow2_testbit by lia. }
  assert (Hsp : sp_n sp = n /\ sp_x sp = x /\ sp_y sp = y /\
                negb (sp_flipx sp =? 0) = flip_x /\
                negb (sp_flipy sp =? 0) = flip_y).
  { subst sp n x y flip_x flip_y entry_flip_x entry_flip_y entry_x entry_y.
    unfold decode_sprite, spec_size_low. fold (sprite_code16 s offs).
    fold code16. unfold sprite_code16. fold code16.
    rewrite Hfs. unfold lnot_int.
    destruct flip_screen; cbn [negb];
      (destruct (Z.land code16 0x88 =? 0x88);
       [|destruct (Z.land code16 0x88 =? 0x08)]); cbn [sp_n sp_x sp_y sp_flipx sp_flipy fst];
      destruct (Z.land code16 0x02 =? 0); destruct (Z.land code16 0x04 =? 0);
      repeat split; reflexivity. }
  destruct Hsp as (Hn & Hx & Hy & Hfx & Hfy).
  unfold spec_sprite_calls. fold sp.
  apply spec_rows_Forall. intros dx dy code Hdx Hdy.
  apply walk_range in Hdx, Hdy. rewrite Hn in Hdx, Hdy.
  unfold spec_blits. rewrite Hx, Hy.
  repeat constructor; cbn [c_flipx c_flipy c_destx c_desty]; try assumption;
    exists dx, dy; repeat split; auto; lia.
Qed.

Lemma flip_screen_transform_witness :
  enough_fuel flipped_pair 8 /\
  draw_sprites_calls 8 flipped_pair
  = Some [ mkCall 0x30 0 0 0 (512 - 0x80 - 16) (256 - 0x10 - 16) 0xff;
           mkCall 0x30 0 0 0 (512 - 0x80 - 16) (256 - 0x10 - 16 - 256) 0xff;
           mkCall 0x31 0 0 0 (512 - 0x80 - 16 + 8) (256 - 0x10 - 16) 0xff;
           mkCall 0x31 0 0 0 (512 - 0x80 - 16 + 8) (256 - 0x10 - 16 - 256) 0xff;
           mkCall 0x34 0 0 0 (512 - 0x80 - 16) (256 - 0x10 - 16 + 8) 0xff;
           mkCall 0x34 0 0 0 (512 - 0x80 - 16) (256 - 0x10 - 16 + 8 - 256) 0xff;
           mkCall 0x35 0 0 0 (512 - 0x80 - 16 + 8) (256 - 0x10 - 16 + 8) 0xff;
           mkCall 0x35 0 0 0 (512 - 0x80 - 16 + 8) (256 - 0x10 - 16 + 8 - 256) 0xff;
           mkCall 0x500 0 1 1 (512 - 0x60 - 8) (256 - 0x20 - 8) 0xff;
           mkCall 0x500 0 1 1 (512 - 0x60 - 8) (256 - 0x20 - 8 - 256) 0xff ] /\
  Forall (fun c => negb (c_flipx c =? 0) = true /\ negb (c_flipy c =? 0) = true /\
                   c_destx c = 512 - 0x60 - 8 /\
                   (c_desty c = 256 - 0x20 - 8 \/ c_desty c = 256 - 0x20 - 8 - 256))
         (match draw_sprite_calls 8 flipped_pair 4 with Some l => l | None => [] end).
Proof.
  assert (Hf : enough_fuel flipped_pair 8) by (split; cbn; lia).
  split; [exact Hf|].
  destruct (flip_screen_transform flipped_pair 8 Hf) as (entry_calls & E & _ & H).
  destruct (H 0) as (E0 & _). destruct (H 4) as (E4 & _ & H4).
  split.
  - rewrite E. change (sprite_offsets flipped_pair) with [0; 4].
    cbn [flat_map]. rewrite app_nil_r.
    vm_compute in E0. injection E0 as <-.
    vm_compute in E4. injection E4 as <-. reflexivity.
  - rewrite E4.
    revert H4. apply Forall_impl. intros c (Hx & Hy & dx & dy & Hdx & Hdy & Px & Py).
    change (fst (spec_size_low _)) with 1 in Hdx, Hdy.
    assert (dx = 0) by lia. assert (dy = 0) by lia. subst dx dy.
    repeat split; [exact Hx | exact Hy | exact Px | exact Py].
Defined.

(** ** The tile blitter, pixel by pixel *)

Lemma of_nat_to_nat_max (n : Z) : Z.of_nat (Z.to_nat n) = Z.max 0 n.
Proof. lia. Qed.

Lemma for_up_single (y x key : Z) (w : Z -> option Z)
    (body : Z -> bitmap_ind16 -> bitmap_ind16) :
  (forall k a, body k a y x = match w k with Some v => v | None => a y x end) ->
  (forall k, k <> key -> w k = None) ->
  forall (n : nat) (i : Z) (b : bitmap_ind16),
    for_up n i body b y x
    = if (i <=? key) && (key <? i + Z.of_nat n)
      then match w key with Some v => v | None => b y x end
      else b y x.
Proof.
  intros Hbody Hw. induction n as [|n IH]; intros i b.
  - cbn [for_up]. destruct (Z.leb_spec i key), (Z.ltb_spec key (i + Z.of_nat 0));
      cbn [andb]; try reflexivity; lia.
  - cbn [for_up]. rewrite IH, Hbody.
    destruct (Z.eq_dec key i) as [->|Hne].
    + destruct (Z.leb_spec (i + 1) i); [lia|]. cbn [andb].
      destruct (Z.leb_spec i i), (Z.ltb_spec i (i + Z.of_nat (Datatypes.S n)));
        cbn [andb]; try reflexivity; lia.
    + rewrite (Hw i) by congruence.
      destruct (Z.leb_spec (i + 1) key), (Z.ltb_spec key (i + 1 + Z.of_nat n)),
               (Z.leb_spec i key), (Z.ltb_spec key (i + Z.of_nat (Datatypes.S n)));
        cbn [andb]; try reflexivity; lia.
Qed.

Section Blitter.

Variable g : gfx_element.
Variable clip : rectangle.
Variable c : gfx_call.

Lemma blit_pixel_at (ty tx : Z) (a : bitmap_ind16) (y x : Z) :
  blit_pixel g clip c ty tx a y x
  = match (if (y =? c_desty c + ty) && (x =? c_destx c + tx)
           then pixel_write g clip c ty tx else None) with
    | Some v => v
    | None => a y x
    end.
Proof.
  unfold blit_pixel, pixel_write, pix_set.
  destruct (_ =? c_transpen c).
  - now destruct (_ && _).
  - destruct (contains clip _ _); now destruct (_ && _).
Qed.

Lemma blit_row_at (ty : Z) (a : bitmap_ind16) (y x : Z) :
  for_up (Z.to_nat (gfx_width g)) 0 (blit_pixel g clip c ty) a y x
  = match (if (y =? c_desty c + ty)
              && (0 <=? x - c_destx c) && (x - c_destx c <? gfx_width g)
           then pixel_write g clip c ty (x - c_destx c) else None) with
    | Some v => v
    | None => a y x
    end.
Proof.
  rewrite (for_up_single y x (x - c_destx c)
             (fun tx => if (y =? c_desty c + ty) && (x =? c_destx c + tx)
                        then pixel_write g clip c ty tx else None)).
  - rewrite of_nat_to_nat_max.
    replace (x =? c_destx c + (x - c_destx c)) with true
      by (symmetry; apply Z.eqb_eq; lia).
    destruct (y =? c_desty c + ty); cbn [andb];
      destruct (Z.leb_spec 0 (x - c_destx c)),
               (Z.ltb_spec (x - c_destx c) (0 + Z.max 0 (gfx_width g))),
               (Z.ltb_spec (x - c_destx c) (gfx_width g));
      cbn [andb]; try reflexivity; lia.
  - intros k a'. apply blit_pixel_at.
  - intros k Hk. destruct (Z.eqb_spec x (c_destx c + k)); [lia|].
    now rewrite andb_false_r.
Qed.

(** [transpen] changes the bitmap exactly where [call_pixel] says. *)
Lemma transpen_pixel (b : bitmap_ind16) (y x : Z) :
  transpen g clip c b y x
  = match call_pixel g clip c y x with Some v => v | None => b y x end.
Proof.
  unfold transpen.
  rewrite (for_up_single y x (y - c_desty c)
             (fun ty => if (y =? c_desty c + ty)
                           && (0 <=? x - c_destx c) && (x - c_destx c <? gfx_width g)
                        then pixel_write g clip c ty (x - c_destx c) else None)).
  - rewrite of_nat_to_nat_max. unfold call_pixel.
    replace (y =? c_desty c + (y - c_desty c)) with true
      by (symmetry; apply Z.eqb_eq; lia).
    destruct (Z.leb_spec 0 (x - c_destx c)),
             (Z.ltb_spec (x - c_destx c) (gfx_width g)),
             (Z.leb_spec 0 (y - c_desty c)),
             (Z.ltb_spec (y - c_desty c) (0 + Z.max 0 (gfx_height g))),
             (Z.ltb_spec (y - c_desty c) (gfx_height g));
      cbn [andb]; try reflexivity; lia.
  - intros k a. apply blit_row_at.
  - intros k Hk. destruct (Z.eqb_spec y (c_desty c + k)); [lia|]. reflexivity.
Qed.

Lemma call_pixel_clipped (y x : Z) :
  contains clip x y = false -> call_pixel g clip c y x = None.
Proof.
  intros Hc. unfold call_pixel, pixel_write.
  destruct (_ && _); [|reflexivity].
  destruct (_ =? c_transpen c); [reflexivity|].
  replace (c_destx c + (x - c_destx c)) with x by lia.
  replace (c_desty c + (y - c_desty c)) with y by lia.
  now rewrite Hc.
Qed.

End Blitter.

(** ** Painter's order *)

Section Painter.

Variable g : gfx_element.
Variable clip : rectangle.

Lemma run_calls_pixel (calls : list gfx_call) : forall (b : bitmap_ind16) (y x : Z),
  run_calls (transpen g clip) calls b y x
  = match last_paint g clip calls y x with Some v => v | None => b y x end.
Proof.
  induction calls as [|c calls IH]; intros b y x; [reflexivity|].
  unfold run_calls in *. cbn [fold_left last_paint].
  rewrite IH. destruct (last_paint g clip calls y x); [reflexivity|].
  apply transpen_pixel.
Qed.

Lemma last_paint_app (l1 l2 : list gfx_call) (y x : Z) :
  last_paint g clip (l1 ++ l2) y x
  = match last_paint g clip l2 y x with
    | Some v => Some v
    | None => last_paint g clip l1 y x
    end.
Proof.
  induction l1 as [|c l1 IH]; cbn [app last_paint].
  - now destruct (last_paint g clip l2 y x).
  - rewrite IH. now destruct (last_paint g clip l2 y x).
Qed.

Lemma last_paint_none (calls : list gfx_call) (y x : Z) :
  Forall (fun c => call_pixel g clip c y x = None) calls ->
  last_paint g clip calls y x = None.
Proof.
  induction 1 as [|c calls Hc _ IH]; [reflexivity|].
  cbn [last_paint]. now rewrite IH.
Qed.

Lemma last_paint_clipped (calls : list gfx_call) (y x : Z) :
  contains clip x y = false -> last_paint g clip calls y x = None.
Proof.
  intros Hc. apply last_paint_none. apply Forall_forall. intros c _.
  now apply call_pixel_clipped.
Qed.

Lemma last_paint_same (calls : list gfx_call) (y x v : Z) :
  Forall (fun c => call_pixel g clip c y x = None
                   \/ call_pixel g clip c y x = Some v) calls ->
  last_paint g clip calls y x = None \/ last_paint g clip calls y x = Some v.
Proof.
  induction 1 as [|c calls Hc _ IH]; [now left|].
  cbn [last_paint]. destruct IH as [-> | ->]; [exact Hc | now right].
Qed.

(** When every call that reaches the pixel deposits the same value [v] and
    at least one does, the pixel ends as [v]. *)
Lemma last_paint_uniform (calls : list gfx_call) (y x v : Z) :
  Forall (fun c => call_pixel g clip c y x = None
                   \/ call_pixel g clip c y x = Some v) calls ->
  Exists (fun c => call_pixel g clip c y x = Some v) calls ->
  last_paint g clip calls y x = Some v.
Proof.
  intros Hall Hex. induction Hex as [c calls Hhd | c calls _ IH];
    inversion Hall as [|? ? Hc Hrest]; subst; cbn [last_paint].
  - destruct (last_paint_same calls y x v Hrest) as [-> | ->];
      [exact Hhd | reflexivity].
  - now rewrite (IH Hrest).
Qed.

End Painter.

(** ** The sprite table: order of drawing *)

Lemma sorted_split (l1 l2 : list Z) (o : Z) :
  StronglySorted Z.lt (l1 ++ o :: l2) -> Forall (Z.lt o) l2.
Proof.
  induction l1 as [|a l1 IH]; cbn [app]; intros H; inversion H; subst; auto.
Qed.

Section TableOrder.

Variable s : skyfox_state.
Variable clip : rectangle.

Lemma last_paint_entries_none (l : list Z) (y x : Z) :
  Forall (fun o => entry_paint s clip o y x = None) l ->
  last_paint (gfx0 s) clip
    (flat_map (fun o => spec_sprite_calls (decode_sprite s o)) l) y x = None.
Proof.
  induction 1 as [|o l Ho _ IH]; [reflexivity|].
  cbn [flat_map]. rewrite last_paint_app, IH. exact Ho.
Qed.

(** The entry of largest offset that is opaque at a pixel decides it. *)
Lemma table_pixel (o y x v : Z) :
  In o (sprite_offsets s) ->
  entry_paint s clip o y x = Some v ->
  (forall o', In o' (sprite_offsets s) -> o < o' -> entry_paint s clip o' y x = None) ->
  last_paint (gfx0 s) clip (spec_table_calls s) y x = Some v.
Proof.
  intros Hin Hv Hlater.
  pose proof (sprite_offsets_sorted s) as Hs.
  unfold spec_table_calls.
  destruct (in_split _ _ Hin) as (l1 & l2 & E). rewrite E in *.
  apply sorted_split in Hs.
  rewrite flat_map_app. cbn [flat_map]. rewrite !last_paint_app.
  rewrite last_paint_entries_none.
  - unfold entry_paint in Hv. now rewrite Hv.
  - apply Forall_forall. intros o' Ho'. apply Hlater.
    + apply in_or_app. right. now right.
    + rewrite Forall_forall in Hs. now apply Hs.
Qed.

End TableOrder.

Lemma draw_sprites_bitmap_spec (fuel : nat) (s : skyfox_state) (b : bitmap_ind16)
    (clip : rectangle) :
  enough_fuel s fuel ->
  draw_sprites_bitmap fuel s b clip
  = Some (run_calls (transpen (gfx0 s) clip) (spec_table_calls s) b).
Proof. intros H. unfold draw_sprites_bitmap. now apply draw_sprites_spec. Qed.

(** The sprite layer honours the clip rectangle. *)
Lemma draw_sprites_bitmap_clip (fuel : nat) (s : skyfox_state) (b : bitmap_ind16)
    (clip : rectangle) :
  enough_fuel s fuel ->
  exists b', draw_sprites_bitmap fuel s b clip = Some b' /\
             forall y x, contains clip x y = false -> b' y x = b y x.
Proof.
  intros H. eexists. split; [now apply draw_sprites_bitmap_spec|].
  intros y x Hc. now rewrite run_calls_pixel, last_paint_clipped.
Qed.

(** C10 (as stated, refuted). Under flip-screen an all-zero entry of a
    1024-byte table is not blitted at (0, 0): its two blits go to
    (504, 248) and (504, -8), with both flip flags set. *)
Lemma zero_entry_not_at_origin :
  ~ (forall (s : skyfox_state) (fuel : nat) (o : Z),
       enough_fuel s fuel -> In o (sprite_offsets s) ->
       rd (m_spriteram s) (o + 0) = 0 -> rd (m_spriteram s) (o + 1) = 0 ->
       rd (m_spriteram s) (o + 2) = 0 -> rd (m_spriteram s) (o + 3) = 0 ->
       exists calls, draw_sprite_calls fuel s o = Some calls /\
                     Exists (fun c => c_destx c = 0 /\ c_desty c = 0) calls).
Proof.
  intros H.
  assert (Hf : enough_fuel zero_table_flipped (Z.to_nat 1024)).
  { split; [lia|]. cbn [zero_table_flipped m_spriteram]. rewrite repeat_length. lia. }
  assert (Hin : In 0 (sprite_offsets zero_table_flipped)).
  { apply in_sprite_offsets. split; [now exists 0|].
    cbn [zero_table_flipped m_spriteram]. rewrite repeat_length. lia. }
  destruct (H zero_table_flipped (Z.to_nat 1024) 0 Hf Hin eq_refl eq_refl eq_refl eq_refl)
    as (calls & E & Hex).
  assert (E' : draw_sprite_calls (Z.to_nat 1024) zero_table_flipped 0
               = Some [mkCall 0 0 1 1 504 248 0xff; mkCall 0 0 1 1 504 (-8) 0xff])
    by (vm_compute; reflexivity).
  rewrite E' in E. injection E as <-.
  apply Exists_exists in Hex. destruct Hex as (c & Hc & Hx & _).
  destruct Hc as [<- | [<- | []]]; discriminate Hx.
Qed.

(** C10 (amended). [draw_sprites] walks the whole table in increasing offset
    order and no entry is skipped: each makes at least one blit, and an
    all-zero entry is an 8x8 sprite of tile 0, blitted at (0, 0) when
    flip-screen is clear and at (width - 8, height - 8) with both flip flags
    set when it is set (in both cases again 256 rows up).  What an entry drawn
    alone deposits at a pixel is [entry_paint]; where two entries are opaque
    at the same pixel, the one at the larger offset overwrites the other, and
    the final value is that of the entry of largest offset opaque there. *)
Theorem sprite_table_order (s : skyfox_state) (fuel : nat) (b : bitmap_ind16)
    (clip : rectangle) :
  enough_fuel s fuel ->
  draw_sprites_calls fuel s
  = Some (flat_map (fun o => spec_sprite_calls (decode_sprite s o)) (sprite_offsets s)) /\
  (forall o, exists calls, draw_sprite_calls fuel s o = Some calls /\ calls <> []) /\
  (forall o,
     rd (m_spriteram s) (o + 0) = 0 -> rd (m_spriteram s) (o + 1) = 0 ->
     rd (m_spriteram s) (o + 2) = 0 -> rd (m_spriteram s) (o + 3) = 0 ->
     sp_n (decode_sprite s o) = 1 /\
     sp_low_code (decode_sprite s o) + sp_high_code (decode_sprite s o) = 0 /\
     (Z.testbit (m_bg_ctrl s) 0 = false ->
      draw_sprite_calls fuel s o
      = Some [mkCall 0 0 0 0 0 0 0xff; mkCall 0 0 0 0 0 (-256) 0xff]) /\
     (Z.testbit (m_bg_ctrl s) 0 = true ->
      draw_sprite_calls fuel s o
      = Some [mkCall 0 0 1 1 (screen_width s - 8) (screen_height s - 8) 0xff;
              mkCall 0 0 1 1 (screen_width s - 8) (screen_height s - 8 - 256) 0xff])) /\
  (forall o b0, exists b1,
     draw_sprite (transpen (gfx0 s) clip) fuel s o b0 = Some b1 /\
     forall y x, b1 y x = match entry_paint s clip o y x with
                          | Some v => v
                          | None => b0 y x
                          end) /\
  (forall o1 o2 v1 v2 y x,
     In o1 (sprite_offsets s) -> In o2 (sprite_offsets s) -> o1 < o2 ->
     entry_paint s clip o1 y x = Some v1 ->
     entry_paint s clip o2 y x = Some v2 ->
     (forall o, In o (sprite_offsets s) -> o2 < o -> entry_paint s clip o y x = None) ->
     exists b', draw_sprites_bitmap fuel s b clip = Some b' /\ b' y x = v2).
Proof.
  intros Hfuel. pose proof Hfuel as [Hf4 _].
  assert (Hcalls : forall o,
            draw_sprite_calls fuel s o = Some (spec_sprite_calls (decode_sprite s o))).
  { intros o. unfold draw_sprite_calls. rewrite draw_sprite_spec by assumption.
    now rewrite run_calls_record. }
  split; [|split; [|split; [|split]]].
  - unfold draw_sprites_calls. rewrite draw_sprites_spec by assumption.
    now rewrite run_calls_record.
  - intros o. eexists. split; [apply Hcalls | apply spec_sprite_calls_nonempty].
  - intros o H0 H1 H2 H3.
    assert (Hd : Z.testbit (m_bg_ctrl s) 0 = negb (Z.land (m_bg_ctrl s) 1 =? 0)).
    { change 1 with (2 ^ 0). rewrite land_pow2_testbit by lia.
      now rewrite negb_involutive. }
    rewrite Hcalls, Hd. unfold spec_sprite_calls, decode_sprite, sprite_code16.
    rewrite H0, H1, H2, H3. cbn [Z.shiftl Z.lor Z.land Z.eqb Z.shiftr].
    unfold sprite_shift.
    destruct (Z.land (m_bg_ctrl s) 0x80 =? 0); destruct (Z.land (m_bg_ctrl s) 1 =? 0);
      cbn [negb]; repeat split; try reflexivity; try discriminate;
      intros _; cbn; change (Pos.to_nat 1) with 1%nat; cbn; repeat f_equal; lia.
  - intros o b0. eexists. split; [now apply draw_sprite_spec|].
    intros y x. apply run_calls_pixel.
  - intros o1 o2 v1 v2 y x _ Hin2 _ _ Hv2 Hlater.
    eexists. split; [now apply draw_sprites_bitmap_spec|].
    rewrite run_calls_pixel.
    now rewrite (table_pixel s clip o2 y x v2 Hin2 Hv2 Hlater).
Qed.

Lemma sprite_table_order_witness :
  enough_fuel two_sprites 8 /\
  draw_sprite_calls 8 two_sprites 0
  = Some [mkCall 0 0 0 0 0 0 0xff; mkCall 0 0 0 0 0 (-256) 0xff] /\
  entry_paint two_sprites full_frame 0 0 0 = Some 1 /\
  exists b', draw_sprites_bitmap 8 two_sprites (fun _ _ => 0xFF) full_frame = Some b' /\
             b' 0 0 = 2.
Proof.
  assert (Hf : enough_fuel two_sprites 8) by (split; cbn; lia).
  split; [exact Hf|].
  destruct (sprite_table_order two_sprites 8 (fun _ _ => 0xFF) full_frame Hf)
    as (_ & _ & Hzero & _ & H).
  split.
  { destruct (Hzero 0 eq_refl eq_refl eq_refl eq_refl) as (_ & _ & Hclear & _).
    now apply Hclear. }
  split; [reflexivity|].
  apply (H 0 4 1 2 0 0).
  - vm_compute. auto.
  - vm_compute. auto.
  - lia.
  - reflexivity.
  - reflexivity.
  - intros o Ho Hlt. vm_compute in Ho. destruct Ho as [<- | [<- | []]]; lia.
Defined.

(** ** Pixels of the star field *)

Lemma pix_set_cases (a : bitmap_ind16) (y0 x0 v y x : Z) :
  pix_set a y0 x0 v y x = v \/ pix_set a y0 x0 v y x = a y x.
Proof. unfold pix_set. destruct (_ && _); auto. Qed.

Section PixelLoops.

Variable body : Z -> bitmap_ind16 -> bitmap_ind16.
Variables y x : Z.

Lemma for_up_pixel_keep (n : nat) : forall i b,
  (forall j a, i <= j < i + Z.of_nat n -> body j a y x = a y x) ->
  for_up n i body b y x = b y x.
Proof.
  induction n as [|n IH]; intros i b H; [reflexivity|].
  cbn [for_up]. rewrite IH by (intros j a Hj; apply H; lia).
  apply H. lia.
Qed.

Lemma for_up_pixel_stay (v : Z) (n : nat) : forall i b,
  (forall j a, i <= j < i + Z.of_nat n ->
     body j a y x = v \/ body j a y x = a y x) ->
  b y x = v ->
  for_up n i body b y x = v.
Proof.
  induction n as [|n IH]; intros i b H Hb; [exact Hb|].
  cbn [for_up]. apply IH; [intros j a Hj; apply H; lia|].
  destruct (H i b ltac:(lia)) as [E | E]; congruence.
Qed.

Lemma for_up_pixel_const (v : Z) (n : nat) : forall i b,
  (forall j a, i <= j < i + Z.of_nat n ->
     body j a y x = v \/ body j a y x = a y x) ->
  (exists j, i <= j < i + Z.of_nat n /\ forall a, body j a y x = v) ->
  for_up n i body b y x = v.
Proof.
  induction n as [|n IH]; intros i b H (j & Hj & Hv); [lia|].
  cbn [for_up]. destruct (Z.eq_dec j i) as [->|Hne].
  - apply for_up_pixel_stay; [intros k a Hk; apply H; lia | apply Hv].
  - apply IH; [intros k a Hk; apply H; lia|].
    exists j. split; [lia | exact Hv].
Qed.

End PixelLoops.

Lemma rd_repeat (bt : byte) (n : nat) (a : Z) :
  rd (repeat bt n) a = if (0 <=? a) && (a <? Z.of_nat n) then byte_val bt else 0.
Proof.
  unfold rd. destruct (Z.ltb_spec a 0), (Z.leb_spec 0 a); try lia; cbn [andb];
    [reflexivity|].
  destruct (Z.ltb_spec a (Z.of_nat n)).
  - now rewrite nth_error_repeat by lia.
  - replace (nth_error (repeat bt n) (Z.to_nat a)) with (@None byte); [reflexivity|].
    symmetry. apply nth_error_None. rewrite repeat_length. lia.
Qed.

(** With [bg_ctrl = 0] and a star ROM filled with one byte, every star is
    drawn with that byte as its pen. *)
Lemma draw_star_uniform (s : skyfox_state) (bt : byte) (i : Z) (a : bitmap_ind16) :
  m_bg_ctrl s = 0 -> gfx2_rom s = repeat bt (Z.to_nat 0x8000) ->
  0 <= i < 0x1000 ->
  draw_star s i a
  = pix_set a (star_y i mod 256) (star_x s i mod 512) (byte_val bt) /\
  star_x s i = byte_val bt * 2 + star_pos s i + 0x5b.
Proof.
  intros Hbg Hrom Hi.
  destruct (star_offs_chunk s i (proj1 Hi)) as [Hlo Hhi].
  assert (Hp : pattern s = 0) by (unfold pattern; now rewrite Hbg).
  rewrite Hp in Hlo, Hhi.
  assert (Hpen : star_pen s i = byte_val bt).
  { unfold star_pen. rewrite Hrom, rd_repeat.
    destruct (Z.leb_spec 0 (star_offs s i)), (Z.ltb_spec (star_offs s i) (Z.of_nat (Z.to_nat 0x8000)));
      try lia; reflexivity. }
  assert (Hx : star_x s i = byte_val bt * 2 + star_pos s i + 0x5b).
  { unfold star_x. rewrite Hrom, rd_repeat.
    destruct (Z.leb_spec 0 (star_offs s i + 1)),
             (Z.ltb_spec (star_offs s i + 1) (Z.of_nat (Z.to_nat 0x8000)));
      try lia; reflexivity. }
  split; [|exact Hx].
  rewrite draw_star_formula by assumption. rewrite Hbg, Hpen. reflexivity.
Qed.

Lemma star_y_row (y : Z) :
  0 <= y < 256 ->
  exists i, 0 <= i < 0x1000 /\ star_y i mod 256 = y.
Proof.
  intros Hy. unfold star_y.
  destruct (Z.eq_dec y 0) as [->|Hne].
  - exists 0xFF0. split; [lia | reflexivity].
  - exists (16 * (y - 1)). split; [lia|].
    rewrite Z.shiftr_div_pow2 by lia. change (2 ^ 4) with 16.
    rewrite Z.mul_comm, Z.div_mul by lia.
    rewrite Z.mod_small by lia. lia.
Qed.

(** Scenario A: the star field draws pen 0 down the whole column 0x5B and
    touches nothing else. *)
Lemma scenario_a_background (spriteram : region) (b : bitmap_ind16) (clip : rectangle)
    (y x : Z) :
  draw_background (scenario_a spriteram) b clip y x
  = if (x =? 0x5B) && (0 <=? y) && (y <? 256) then 0 else b y x.
Proof.
  set (s := scenario_a spriteram).
  assert (Hstar : forall i a, 0 <= i < 0x1000 ->
            draw_star s i a = pix_set a (star_y i mod 256) 0x5B 0).
  { intros i a Hi.
    destruct (draw_star_uniform s x00 i a eq_refl eq_refl Hi) as [E Hx].
    rewrite E, Hx.
    assert (Hpos : star_pos s i = 0).
    { unfold star_pos, s, scenario_a, m_bgram. rewrite !rd_repeat.
      destruct (_ && _); destruct (_ && _); reflexivity. }
    rewrite Hpos. reflexivity. }
  unfold draw_background.
  destruct (Z.eqb_spec x 0x5B) as [->|Hx]; cbn [andb].
  - destruct (Z.leb_spec 0 y), (Z.ltb_spec y 256); cbn [andb].
    + apply for_up_pixel_const.
      * intros j a Hj. rewrite Hstar by lia. apply pix_set_cases.
      * destruct (star_y_row y ltac:(lia)) as (i & Hi & Hrow).
        exists i. split; [lia|]. intros a. rewrite Hstar by lia.
        unfold pix_set. rewrite Hrow, !Z.eqb_refl. reflexivity.
    + apply for_up_pixel_keep. intros j a Hj. rewrite Hstar by lia.
      unfold pix_set.
      pose proof (Z.mod_pos_bound (star_y j) 256 ltac:(lia)).
      destruct (Z.eqb_spec y (star_y j mod 256)); [lia | reflexivity].
    + apply for_up_pixel_keep. intros j a Hj. rewrite Hstar by lia.
      unfold pix_set.
      pose proof (Z.mod_pos_bound (star_y j) 256 ltac:(lia)).
      destruct (Z.eqb_spec y (star_y j mod 256)); [lia | reflexivity].
    + apply for_up_pixel_keep. intros j a Hj. rewrite Hstar by lia.
      unfold pix_set.
      pose proof (Z.mod_pos_bound (star_y j) 256 ltac:(lia)).
      destruct (Z.eqb_spec y (star_y j mod 256)); [lia | reflexivity].
  - apply for_up_pixel_keep. intros j a Hj. rewrite Hstar by lia.
    unfold pix_set. destruct (Z.eqb_spec x 0x5B); [contradiction|].
    now rewrite andb_false_r.
Qed.

(** ** Whole frames *)

Lemma spec_table_calls_args (s : skyfox_state) :
  Forall (fun c => c_transpen c = 0xff /\ c_color c = 0) (spec_table_calls s).
Proof.
  unfold spec_table_calls. apply Forall_flat_map. apply Forall_forall. intros o _.
  unfold spec_sprite_calls. apply spec_rows_Forall. intros dx dy code _ _.
  unfold spec_blits. repeat constructor.
Qed.

Lemma transparent_no_paint (s : skyfox_state) (clip : rectangle) (y x : Z) :
  (forall code tx ty, gfx_pixel (gfx0 s) code tx ty = 0xFF) ->
  last_paint (gfx0 s) clip (spec_table_calls s) y x = None.
Proof.
  intros Hg. apply last_paint_none.
  eapply Forall_impl; [|apply spec_table_calls_args].
  intros c [Ht _]. unfold call_pixel, pixel_write.
  rewrite Hg, Ht. now destruct (_ && _).
Qed.

Lemma screen_update_spec (fuel : nat) (s : skyfox_state) (b : bitmap_ind16)
    (clip : rectangle) :
  enough_fuel s fuel ->
  screen_update_skyfox fuel s b clip
  = Some (run_calls (transpen (gfx0 s) clip) (spec_table_calls s)
            (draw_background s (fill 0xff clip b) clip)).
Proof. intros H. unfold screen_update_skyfox. now apply draw_sprites_bitmap_spec. Qed.

(** Scenario A under any clip and any sprite table: column 0x5B is pen 0 on
    all 256 rows, the rest of the clip is the clear colour, and pixels
    outside the clip keep their value unless they lie on that column. *)
Lemma scenario_a_pixels (spriteram : region) (fuel : nat) (b : bitmap_ind16)
    (clip : rectangle) :
  enough_fuel (scenario_a spriteram) fuel ->
  exists b',
    screen_update_skyfox fuel (scenario_a spriteram) b clip = Some b' /\
    forall y x,
      b' y x = if (x =? 0x5B) && (0 <=? y) && (y <? 256) then 0
               else if contains clip x y then 0xFF else b y x.
Proof.
  intros Hf. eexists. split; [now apply screen_update_spec|].
  intros y x. rewrite run_calls_pixel, transparent_no_paint by reflexivity.
  rewrite scenario_a_background. reflexivity.
Qed.

(** C3 (the code at the failing input). Rendering Scenario A with the
    visible area as clip rectangle on a bitmap holding 0x1234 everywhere:
    the pixel at row 1, column 0x5B lies outside the clip, and the star field
    has overwritten it with pen 0. *)
Theorem star_field_writes_outside_clip :
  exists b',
    screen_update_skyfox 4 (scenario_a []) (fun _ _ => 0x1234) visible_area = Some b' /\
    contains visible_area 0x5B 1 = false /\
    b' 1 0x5B = 0 /\
    b' 1 0x5B <> (fun _ _ : Z => 0x1234) 1 0x5B.
Proof.
  assert (Hf : enough_fuel (scenario_a []) 4) by (split; cbn; lia).
  destruct (scenario_a_pixels [] 4 (fun _ _ => 0x1234) visible_area Hf) as (b' & E & H).
  exists b'. split; [exact E|]. split; [reflexivity|].
  rewrite H. split; [reflexivity | discriminate].
Qed.

(** C6 (as stated, refuted). After rendering Scenario A on the full frame
    the framebuffer is not all 0xFF. *)
Lemma scenario_a_not_all_clear :
  ~ (exists b',
       screen_update_skyfox 4 (scenario_a []) (fun _ _ => 0xFF) full_frame = Some b' /\
       forall y x, 0 <= x < 512 -> 0 <= y < 256 -> b' y x = 0xFF).
Proof.
  intros (b' & E & H).
  assert (Hf : enough_fuel (scenario_a []) 4) by (split; cbn; lia).
  destruct (scenario_a_pixels [] 4 (fun _ _ => 0xFF) full_frame Hf) as (b2 & E2 & H2).
  rewrite E in E2. injection E2 as <-.
  specialize (H 1 0x5B ltac:(lia) ltac:(lia)). rewrite H2 in H. discriminate H.
Qed.

(** C6 (amended). Rendering Scenario A ([bg_ctrl = 0], [bgram] and the star
    ROM all zero, no opaque sprite pixel) on the full 512x256 frame leaves
    every pixel equal to 0xFF except those of column 0x5B, which the star
    field sets to palette index 0 on all 256 rows. *)
Theorem scenario_a_frame (spriteram : region) (fuel : nat) (b : bitmap_ind16) :
  enough_fuel (scenario_a spriteram) fuel ->
  exists b',
    screen_update_skyfox fuel (scenario_a spriteram) b full_frame = Some b' /\
    forall y x, 0 <= x < 512 -> 0 <= y < 256 ->
      b' y x = if x =? 0x5B then 0 else 0xFF.
Proof.
  intros Hf.
  destruct (scenario_a_pixels spriteram fuel b full_frame Hf) as (b' & E & H).
  exists b'. split; [exact E|]. intros y x Hx Hy. rewrite H.
  unfold contains, full_frame; cbn [min_x min_y max_x max_y].
  destruct (x =? 0x5B), (Z.leb_spec 0 y), (Z.ltb_spec y 256),
           (Z.leb_spec 0 x), (Z.ltb_spec x 512); cbn [andb]; try reflexivity; lia.
Qed.

Lemma scenario_a_frame_witness :
  enough_fuel (scenario_a [x00; x00; x00; x00]) 4 /\
  exists b',
    screen_update_skyfox 4 (scenario_a [x00; x00; x00; x00]) (fun _ _ => 0) full_frame
    = Some b' /\
    b' 200 0x5B = 0 /\ b' 200 0x5C = 0xFF /\ b' 0 0 = 0xFF.
Proof.
  assert (Hf : enough_fuel (scenario_a [x00; x00; x00; x00]) 4) by (split; cbn; lia).
  split; [exact Hf|].
  destruct (scenario_a_frame [x00; x00; x00; x00] 4 (fun _ _ => 0) Hf) as (b' & E & H).
  exists b'. split; [exact E|].
  repeat split; rewrite H by lia; reflexivity.
Defined.

Lemma frame_check_spec (f : Z -> Z -> bool) :
  frame_check f = true ->
  forall y x, 0 <= x < 512 -> 0 <= y < 256 -> f y x = true.
Proof.
  unfold frame_check. intros H y x Hx Hy.
  assert (Hin : forall n k, 0 <= k < n -> In k (zrange n)).
  { intros n k Hk. unfold zrange. apply in_map_iff. exists (Z.to_nat k).
    split; [lia | apply in_seq; lia]. }
  rewrite forallb_forall in H. specialize (H y (Hin 256 y Hy)).
  rewrite forallb_forall in H. exact (H x (Hin 512 x Hx)).
Qed.

Lemma opt_eqb_eq (a b : option Z) : opt_eqb a b = true -> a = b.
Proof.
  destruct a, b; cbn; intros H; try discriminate; [|reflexivity].
  apply Z.eqb_eq in H. now subst.
Qed.

(** Tiles of pattern tile 0 look the same in any graphics element that
    holds 0x01 there. *)
Lemma call_pixel_tile0 (g : gfx_element) (clip : rectangle) (c : gfx_call) (y x : Z) :
  gfx_width g = 8 -> gfx_height g = 8 -> 16 <= gfx_elements g ->
  (forall code tx ty, 0 <= code < 16 -> gfx_pixel g code tx ty = 0x01) ->
  0 <= c_code c < 16 ->
  call_pixel g clip c y x = call_pixel tile0_gfx clip c y x.
Proof.
  intros Hw Hh He Hp Hc. unfold call_pixel, pixel_write. rewrite Hw, Hh.
  cbn [tile0_gfx gfx_width gfx_height gfx_elements gfx_pixel].
  rewrite (Z.mod_small (c_code c) (gfx_elements g)) by lia.
  rewrite (Z.mod_small (c_code c) 0x1800) by lia.
  rewrite Hp by assumption.
  destruct (Z.ltb_spec (c_code c) 16); [reflexivity | lia].
Qed.

Lemma last_paint_ext (g1 g2 : gfx_element) (clip : rectangle) (calls : list gfx_call)
    (y x : Z) :
  Forall (fun c => call_pixel g1 clip c y x = call_pixel g2 clip c y x) calls ->
  last_paint g1 clip calls y x = last_paint g2 clip calls y x.
Proof.
  induction 1 as [|c calls Hc _ IH]; [reflexivity|].
  cbn [last_paint]. now rewrite IH, Hc.
Qed.

(** The block of Scenario B drawn alone on the full frame: checked on every
    pixel. *)
Lemma block_pixels (y x : Z) :
  0 <= x < 512 -> 0 <= y < 256 ->
  last_paint tile0_gfx full_frame block_calls y x
  = if (128 <=? x) && (x <? 160) && (16 <=? y) && (y <? 48) then Some 0x01 else None.
Proof.
  intros Hx Hy. apply opt_eqb_eq.
  revert y x Hx Hy.
  set (calls := block_calls). vm_compute in (value of calls).
  apply frame_check_spec.
  vm_compute. reflexivity.
Qed.

Lemma block_calls_codes : Forall (fun c => 0 <= c_code c < 16) block_calls.
Proof. repeat constructor; cbn; lia. Qed.

(** A table of at least one entry starts at offset 0; the other offsets are
    positive. *)
Lemma sprite_offsets_head (s : skyfox_state) :
  (0 < List.length (m_spriteram s))%nat ->
  exists tl, sprite_offsets s = 0 :: tl /\ Forall (Z.lt 0) tl.
Proof.
  intros Hlen. unfold sprite_offsets, zrange.
  set (bytes := Z.of_nat (List.length (m_spriteram s))).
  assert (Hb : 0 < bytes) by (subst bytes; lia).
  pose proof (Z.div_mod (bytes + 3) 4 ltac:(lia)) as Hdm.
  pose proof (Z.mod_pos_bound (bytes + 3) 4 ltac:(lia)) as Hmod.
  destruct (Z.to_nat ((bytes + 3) / 4)) as [|n] eqn:En; [lia|].
  cbn [seq map]. eexists. split; [reflexivity|].
  apply Forall_forall. intros o Ho. apply offsets_above in Ho. lia.
Qed.

Section ScenarioB.

Variable s : skyfox_state.

Hypothesis Hbg : m_bg_ctrl s = 0.
Hypothesis Hentry : firstn 4 (m_spriteram s) = [x10; x40; x88; x00].
Hypothesis Hw : gfx_width (gfx0 s) = 8.
Hypothesis Hh : gfx_height (gfx0 s) = 8.
Hypothesis He : 16 <= gfx_elements (gfx0 s).
Hypothesis Htile0 :
  forall code tx ty, 0 <= code < 16 -> gfx_pixel (gfx0 s) code tx ty = 0x01.
Hypothesis Hothers :
  forall o y x, In o (sprite_offsets s) -> o <> 0 ->
    entry_paint s full_frame o y x = None.
Hypothesis Hstars :
  forall i, 0 <= i < 0x1000 -> star_drawn s i = true -> star_pen s i = 0xFF.

Lemma first_entry_calls : spec_sprite_calls (decode_sprite s 0) = block_calls.
Proof.
  assert (Hd : decode_sprite s 0 = mkSprite 4 0 0 0 0 0x80 0x10).
  { unfold decode_sprite, sprite_code16, sprite_shift. rewrite Hbg.
    destruct (m_spriteram s) as [|b0 [|b1 [|b2 [|b3 r]]]]; try discriminate Hentry.
    cbn [firstn] in Hentry. injection Hentry as -> -> -> ->. reflexivity. }
  rewrite Hd. reflexivity.
Qed.

Lemma first_entry_offsets :
  exists tl, sprite_offsets s = 0 :: tl /\ Forall (Z.lt 0) tl.
Proof.
  apply sprite_offsets_head.
  destruct (m_spriteram s); [discriminate Hentry | cbn; lia].
Qed.

Lemma first_entry_paint (y x : Z) :
  0 <= x < 512 -> 0 <= y < 256 ->
  last_paint (gfx0 s) full_frame (spec_table_calls s) y x
  = if (128 <=? x) && (x <? 160) && (16 <=? y) && (y <? 48) then Some 0x01 else None.
Proof.
  intros Hx Hy. destruct first_entry_offsets as (tl & E & Htl).
  unfold spec_table_calls. rewrite E. cbn [flat_map].
  rewrite last_paint_app, last_paint_entries_none.
  - rewrite first_entry_calls, <- block_pixels by assumption.
    apply last_paint_ext.
    eapply Forall_impl; [|exact block_calls_codes].
    intros c Hc. now apply call_pixel_tile0.
  - apply Forall_forall. intros o Ho. rewrite Forall_forall in Htl.
    apply Hothers; [rewrite E; now right | specialize (Htl o Ho); lia].
Qed.

Lemma quiet_star_field (b : bitmap_ind16) (y x : Z) :
  0 <= x < 512 -> 0 <= y < 256 ->
  draw_background s (fill 0xff full_frame b) full_frame y x = 0xFF.
Proof.
  intros Hx Hy. unfold draw_background. apply for_up_pixel_stay.
  - intros j a Hj. unfold draw_star.
    destruct (star_drawn s j) eqn:Hd; [|now right].
    rewrite (Hstars j ltac:(lia) Hd). apply pix_set_cases.
  - unfold fill, contains, full_frame; cbn [min_x min_y max_x max_y].
    destruct (Z.leb_spec 0 y), (Z.ltb_spec y 256), (Z.leb_spec 0 x), (Z.ltb_spec x 512);
      cbn [andb]; try reflexivity; lia.
Qed.

(** The first calls of the frame are the blits of the block; on the full
    frame the block sits at columns 128..159, rows 16..47, and every other
    pixel is the clear colour. *)
Lemma scenario_b_pixels (fuel : nat) (b : bitmap_ind16) :
  enough_fuel s fuel ->
  (exists rest, draw_sprites_calls fuel s = Some (block_calls ++ rest)) /\
  exists b',
    screen_update_skyfox fuel s b full_frame = Some b' /\
    forall y x, 0 <= x < 512 -> 0 <= y < 256 ->
      b' y x = if (128 <=? x) && (x <? 160) && (16 <=? y) && (y <? 48)
               then 0x01 else 0xFF.
Proof.
  intros Hf. split.
  - destruct first_entry_offsets as (tl & E & _).
    rewrite draw_sprites_calls_spec by assumption.
    unfold spec_table_calls. rewrite E. cbn [flat_map].
    rewrite first_entry_calls. eexists. reflexivity.
  - eexists. split; [now apply screen_update_spec|].
    intros y x Hx Hy. rewrite run_calls_pixel.
    rewrite first_entry_paint, quiet_star_field by assumption.
    now destruct (_ && _).
Qed.

End ScenarioB.

(** The snapshot [scenario_b] meets the conditions above. *)
Lemma avoiding_entry_no_paint (s : skyfox_state) (clip : rectangle) (o y x : Z) :
  gfx0 s = tile0_gfx -> entry_avoids_tile0 s o = true ->
  entry_paint s clip o y x = None.
Proof.
  intros Hg Ha. unfold entry_paint. apply last_paint_none.
  unfold entry_avoids_tile0 in Ha. rewrite forallb_forall in Ha.
  apply Forall_forall. intros c Hc. specialize (Ha c Hc).
  apply andb_prop in Ha. destruct Ha as [Ha Ht]. apply andb_prop in Ha.
  destruct Ha as [Hlo Hhi].
  apply Z.leb_le in Hlo. apply Z.ltb_lt in Hhi. apply Z.eqb_eq in Ht.
  unfold call_pixel, pixel_write. rewrite Hg.
  cbn [tile0_gfx gfx_width gfx_height gfx_elements gfx_pixel].
  rewrite Z.mod_small by lia.
  destruct (Z.ltb_spec (c_code c) 16); [lia|].
  rewrite Ht. cbn [Z.eqb Pos.eqb]. now destruct (_ && _).
Qed.

Lemma scenario_b_others (o y x : Z) :
  In o (sprite_offsets scenario_b) -> o <> 0 ->
  entry_paint scenario_b full_frame o y x = None.
Proof.
  intros Ho Hne. apply avoiding_entry_no_paint; [reflexivity|].
  assert (Hall : forallb (fun o => (o =? 0) || entry_avoids_tile0 scenario_b o)
                   (sprite_offsets scenario_b) = true) by (vm_compute; reflexivity).
  rewrite forallb_forall in Hall. specialize (Hall o Ho).
  apply orb_prop in Hall. destruct Hall as [H0 | H]; [|exact H].
  apply Z.eqb_eq in H0. contradiction.
Qed.

Lemma scenario_b_stars (i : Z) :
  0 <= i < 0x1000 -> star_drawn scenario_b i = true -> star_pen scenario_b i = 0xFF.
Proof.
  intros Hi _. destruct (star_offs_chunk scenario_b i (proj1 Hi)) as [Hlo Hhi].
  change (pattern scenario_b) with 0 in Hlo, Hhi.
  unfold star_pen. change (gfx2_rom scenario_b) with (repeat xff (Z.to_nat 0x8000)).
  rewrite rd_repeat.
  destruct (Z.leb_spec 0 (star_offs scenario_b i)),
           (Z.ltb_spec (star_offs scenario_b i) (Z.of_nat (Z.to_nat 0x8000)));
    try lia; reflexivity.
Qed.

Lemma scenario_b_fuel : enough_fuel scenario_b (Z.to_nat 1024).
Proof. split; [lia | vm_compute; reflexivity]. Qed.

(** C7 (as stated, refuted). The rendered frame of Scenario B, in a
    1024-byte table whose other entries select a transparent tile, holds no
    32x32 block of 0x01 at x = 256, y = 0x10. *)
Lemma scenario_b_no_block_at_256 :
  ~ (exists b',
       screen_update_skyfox (Z.to_nat 1024) scenario_b (fun _ _ => 0xFF) full_frame
       = Some b' /\
       forall y x, 256 <= x < 256 + 32 -> 0x10 <= y < 0x10 + 32 -> b' y x = 0x01).
Proof.
  intros (b' & E & H).
  destruct (scenario_b_pixels scenario_b eq_refl eq_refl eq_refl eq_refl
              ltac:(cbn; lia) ltac:(intros code tx ty Hc; cbn;
                                    destruct (Z.ltb_spec code 16); [reflexivity | lia])
              scenario_b_others scenario_b_stars
              (Z.to_nat 1024) (fun _ _ => 0xFF) scenario_b_fuel)
    as (_ & b2 & E2 & H2).
  rewrite E in E2. injection E2 as <-.
  specialize (H 0x10 256 ltac:(lia) ltac:(lia)).
  rewrite H2 in H by lia. discriminate H.
Qed.

(** C7 (amended). For a snapshot whose first sprite entry is
    [{0x10, 0x40, 0x88, 0x00}], with [bg_ctrl = 0] and pattern tile 0 (the
    8x8 tiles of codes 0..15) filled with 0x01, all other entries and the
    star field contributing nothing: the entry is walked first, as sixteen
    8x8 tiles of codes 0..15, each blitted at [(0x80 + dx*8, 0x10 + dy*8)]
    and again 256 rows up; the rendered 512x256 frame holds the 32x32 block
    of 0x01 at x = 0x40*2 = 128, y = 0x10 and the clear colour elsewhere, the
    wrap-clone at y - 256 lying wholly above the frame. *)
Theorem scenario_b_frame (s : skyfox_state) (fuel : nat) (b : bitmap_ind16) :
  enough_fuel s fuel ->
  m_bg_ctrl s = 0 ->
  firstn 4 (m_spriteram s) = [x10; x40; x88; x00] ->
  gfx_width (gfx0 s) = 8 -> gfx_height (gfx0 s) = 8 -> 16 <= gfx_elements (gfx0 s) ->
  (forall code tx ty, 0 <= code < 16 -> gfx_pixel (gfx0 s) code tx ty = 0x01) ->
  (forall o y x, In o (sprite_offsets s) -> o <> 0 ->
     entry_paint s full_frame o y x = None) ->
  (forall i, 0 <= i < 0x1000 -> star_drawn s i = true -> star_pen s i = 0xFF) ->
  (exists rest,
     draw_sprites_calls fuel s
     = Some (flat_map (fun dy => flat_map (fun dx =>
                [ mkCall (4 * dy + dx) 0 0 0 (0x80 + dx * 8) (0x10 + dy * 8) 0xff;
                  mkCall (4 * dy + dx) 0 0 0 (0x80 + dx * 8) (0x10 + dy * 8 - 256) 0xff ])
              (zrange 4)) (zrange 4) ++ rest)) /\
  exists b',
    screen_update_skyfox fuel s b full_frame = Some b' /\
    forall y x, 0 <= x < 512 -> 0 <= y < 256 ->
      b' y x = if (128 <=? x) && (x <? 128 + 32) && (0x10 <=? y) && (y <? 0x10 + 32)
               then 0x01 else 0xFF.
Proof.
  intros Hf Hbg Hentry Hw Hh He Htile0 Hothers Hstars.
  exact (scenario_b_pixels s Hbg Hentry Hw Hh He Htile0 Hothers Hstars fuel b Hf).
Qed.

Lemma scenario_b_frame_witness :
  enough_fuel scenario_b (Z.to_nat 1024) /\
  List.length (m_spriteram scenario_b) = 1024%nat /\
  exists b',
    screen_update_skyfox (Z.to_nat 1024) scenario_b (fun _ _ => 0) full_frame = Some b' /\
    b' 0x10 128 = 0x01 /\ b' 0x2F 159 = 0x01 /\ b' 0x10 256 = 0xFF /\
    b' 0x30 128 = 0xFF /\ b' 0 0 = 0xFF.
Proof.
  split; [exact scenario_b_fuel|]. split; [reflexivity|].
  destruct (scenario_b_frame scenario_b (Z.to_nat 1024) (fun _ _ => 0)
              scenario_b_fuel eq_refl eq_refl eq_refl eq_refl
              ltac:(cbn; lia)
              ltac:(intros code tx ty Hc; cbn;
                    destruct (Z.ltb_spec code 16); [reflexivity | lia])
              scenario_b_others scenario_b_stars)
    as (_ & b' & E & H).
  exists b'. split; [exact E|].
  repeat split; rewrite H by lia; reflexivity.
Defined.

(** ** Chack'n Pop: the sprite table *)

(** C8 (as stated, refuted). No sprite count of at most 32 makes the
    [spr_ram] region four times that count long. *)
Lemma spr_ram_not_32_entries :
  ~ (exists count, 0 <= count <= 32 /\
                   Chaknpop.share_bytes "spr_ram" = 4 * count).
Proof.
  intros (count & Hc & H).
  change (Chaknpop.share_bytes "spr_ram") with 192 in H. lia.
Qed.

(** C8 (amended). [spr_ram] is a single region of the address map,
    0x9840..0x98FF, 192 bytes long; as a list of 4-byte entries (tile /
    colour / y / x) it holds 48 entries, 192 = 4 * 48, and each of the 48
    entries lies wholly inside the region. *)
Theorem spr_ram_48_entries :
  Chaknpop.shares "spr_ram"
  = [Chaknpop.mkEntry 0x9840 0x98ff Chaknpop.Ram (Some "spr_ram"%string)] /\
  Chaknpop.share_bytes "spr_ram" = 192 /\
  Chaknpop.share_bytes "spr_ram" = 4 * 48 /\
  forall spr_ram : region,
    Z.of_nat (List.length spr_ram) = Chaknpop.share_bytes "spr_ram" ->
    Chaknpop.sprite_count spr_ram = 48 /\
    forall k, 0 <= k < 48 ->
      in_region spr_ram (4 * k) /\ in_region spr_ram (4 * k + 3) /\
      Chaknpop.sprite_entry_at spr_ram k
      = Chaknpop.mkSpriteEntry (rd spr_ram (4 * k)) (rd spr_ram (4 * k + 1))
          (rd spr_ram (4 * k + 2)) (rd spr_ram (4 * k + 3)).
Proof.
  split; [reflexivity|]. split; [reflexivity|]. split; [reflexivity|].
  intros spr_ram Hlen. change (Chaknpop.share_bytes "spr_ram") with 192 in Hlen.
  split.
  - unfold Chaknpop.sprite_count. rewrite Hlen. reflexivity.
  - intros k Hk. unfold in_region. rewrite Hlen.
    repeat split; lia.
Qed.

Lemma spr_ram_48_entries_witness :
  Chaknpop.sprite_count (repeat x2a (Z.to_nat 192)) = 48 /\
  in_region (repeat x2a (Z.to_nat 192)) (4 * 47 + 3) /\
  Chaknpop.se_x (Chaknpop.sprite_entry_at (repeat x2a (Z.to_nat 192)) 47) = 0x2a.
Proof.
  destruct spr_ram_48_entries as (_ & _ & _ & H).
  destruct (H (repeat x2a (Z.to_nat 192)) eq_refl) as (Hc & Hk).
  destruct (Hk 47 ltac:(lia)) as (_ & Hin & He).
  split; [exact Hc|]. split; [exact Hin|].
  rewrite He. reflexivity.
Defined.

(** * Further properties of the star field *)

Lemma for_up_snoc {S : Type} (body : Z -> S -> S) (n : nat) : forall i st,
  for_up (Datatypes.S n) i body st = body (i + Z.of_nat n) (for_up n i body st).
Proof.
  induction n as [|n IH]; intros i st.
  - cbn [for_up]. now replace (i + Z.of_nat 0) with i by lia.
  - change (for_up (Datatypes.S (Datatypes.S n)) i body st)
      with (for_up (Datatypes.S n) (i + 1) body (body i st)).
    rewrite IH. cbn [for_up].
    now replace (i + 1 + Z.of_nat n) with (i + Z.of_nat (Datatypes.S n)) by lia.
Qed.

Lemma draw_star_pixel (s : skyfox_state) (i : Z) (a : bitmap_ind16) (y x : Z) :
  draw_star s i a y x = if star_hits s i y x then star_pen s i else a y x.
Proof.
  unfold draw_star, star_hits, pix_set.
  destruct (star_drawn s i); [|reflexivity].
  cbn [andb]. reflexivity.
Qed.

Lemma draw_stars_pixel (s : skyfox_state) (b : bitmap_ind16) (y x : Z) (n : nat) :
  for_up n 0 (draw_star s) b y x
  = match star_at_upto s n y x with Some p => p | None => b y x end.
Proof.
  induction n as [|n IH]; [reflexivity|].
  rewrite for_up_snoc, draw_star_pixel. cbn [star_at_upto Z.add].
  destruct (star_hits s (Z.of_nat n) y x); [reflexivity | exact IH].
Qed.

(** What [draw_background] leaves at a pixel. *)
Lemma draw_background_pixel (s : skyfox_state) (b : bitmap_ind16) (clip : rectangle)
    (y x : Z) :
  draw_background s b clip y x
  = match star_at s y x with Some p => p | None => b y x end.
Proof. unfold draw_background, star_at. apply draw_stars_pixel. Qed.

Lemma star_hits_in_bitmap (s : skyfox_state) (i y x : Z) :
  0 <= i -> star_hits s i y x = true -> 0 <= y < 256 /\ 0 <= x < 512.
Proof.
  intros Hi H. unfold star_hits in H.
  apply andb_prop in H. destruct H as [H Hx]. apply andb_prop in H. destruct H as [_ Hy].
  apply Z.eqb_eq in Hx, Hy.
  pose proof (star_x_nonneg s i). pose proof (star_y_nonneg i Hi).
  rewrite Z.rem_mod_nonneg in Hx, Hy by lia.
  pose proof (Z.mod_pos_bound (star_x s i) 512 ltac:(lia)).
  pose proof (Z.mod_pos_bound (star_y i) 256 ltac:(lia)).
  lia.
Qed.

Lemma star_at_upto_none (s : skyfox_state) (y x : Z) (n : nat) :
  (forall j, 0 <= j < Z.of_nat n -> star_hits s j y x = false) ->
  star_at_upto s n y x = None.
Proof.
  induction n as [|n IH]; intros H; [reflexivity|].
  cbn [star_at_upto]. rewrite H by lia. apply IH. intros j Hj. apply H. lia.
Qed.

Lemma star_at_upto_last (s : skyfox_state) (y x i : Z) (n : nat) :
  0 <= i < Z.of_nat n ->
  star_hits s i y x = true ->
  (forall j, i < j < Z.of_nat n -> star_hits s j y x = false) ->
  star_at_upto s n y x = Some (star_pen s i).
Proof.
  induction n as [|n IH]; intros Hi Hh Hl; [lia|].
  cbn [star_at_upto]. destruct (Z.eq_dec i (Z.of_nat n)) as [->|Hne].
  - now rewrite Hh.
  - rewrite Hl by lia. apply IH; [lia | assumption |].
    intros j Hj. apply Hl. lia.
Qed.

(** X1. The star field writes only inside the 256-row by 512-column
    bitmap: a position outside it keeps its value, whatever the snapshot. *)
Theorem draw_background_stays_in_bitmap (s : skyfox_state) (b : bitmap_ind16)
    (clip : rectangle) (y x : Z) :
  ~ (0 <= y < 256 /\ 0 <= x < 512) ->
  draw_background s b clip y x = b y x.
Proof.
  intros Hout. rewrite draw_background_pixel. unfold star_at.
  rewrite star_at_upto_none; [reflexivity|].
  intros j Hj. destruct (star_hits s j y x) eqn:E; [|reflexivity].
  exfalso. apply Hout. now apply (star_hits_in_bitmap s j); [lia|].
Qed.

Lemma draw_background_stays_in_bitmap_witness :
  ~ (0 <= 256 < 256 /\ 0 <= 0x5B < 512) /\
  draw_background (scenario_a []) (fun _ _ => 0x1234) visible_area 256 0x5B = 0x1234.
Proof.
  assert (H : ~ (0 <= 256 < 256 /\ 0 <= 0x5B < 512)) by lia.
  split; [exact H|].
  exact (draw_background_stays_in_bitmap (scenario_a []) (fun _ _ => 0x1234)
           visible_area 256 0x5B H).
Defined.

(** X2. Where several stars land on one pixel the star of highest index
    decides it: if star [i] is drawn at [(y, x)] and no later star lands
    there, the pixel ends as the pen of star [i]; a pixel on which no star
    lands keeps its value. *)
Theorem draw_background_last_star_wins (s : skyfox_state) (b : bitmap_ind16)
    (clip : rectangle) (y x : Z) :
  (forall i, 0 <= i < 0x1000 ->
     star_hits s i y x = true ->
     (forall j, i < j < 0x1000 -> star_hits s j y x = false) ->
     draw_background s b clip y x = star_pen s i) /\
  ((forall j, 0 <= j < 0x1000 -> star_hits s j y x = false) ->
   draw_background s b clip y x = b y x).
Proof.
  split.
  - intros i Hi Hh Hl. rewrite draw_background_pixel. unfold star_at.
    rewrite (star_at_upto_last s y x i); [reflexivity | lia | assumption |].
    intros j Hj. apply Hl. lia.
  - intros Hn. rewrite draw_background_pixel. unfold star_at.
    rewrite star_at_upto_none; [reflexivity|].
    intros j Hj. apply Hn. lia.
Qed.

Lemma star_row_one (j : Z) : 15 < j < 0x1000 -> (1 =? Z.rem (star_y j) 256) = false.
Proof.
  intros Hj. apply Z.eqb_neq. unfold star_y.
  rewrite Z.shiftr_div_pow2 by lia. change (2 ^ 4) with 16.
  assert (1 <= j / 16 <= 255).
  { pose proof (Z.div_mod j 16 ltac:(lia)). pose proof (Z.mod_pos_bound j 16 ltac:(lia)).
    lia. }
  rewrite Z.rem_mod_nonneg by lia.
  destruct (Z.eq_dec (j / 16) 255) as [->|Hne]; [discriminate|].
  rewrite Z.mod_small by lia. lia.
Qed.

Lemma draw_background_last_star_wins_witness :
  star_hits two_pen_state 14 1 0x5B = true /\
  star_pen two_pen_state 14 = 1 /\
  draw_background two_pen_state (fun _ _ => 0xFF) full_frame 1 0x5B = 2.
Proof.
  split; [reflexivity|]. split; [reflexivity|].
  apply (proj1 (draw_background_last_star_wins two_pen_state (fun _ _ => 0xFF)
                  full_frame 1 0x5B) 15).
  - lia.
  - reflexivity.
  - intros j Hj. unfold star_hits. rewrite star_row_one by lia.
    now rewrite andb_false_r.
Defined.

(** X3. Drawing the star field a second time changes nothing: the
    background pass is idempotent on every bitmap. *)
Theorem draw_background_idempotent (s : skyfox_state) (b : bitmap_ind16)
    (clip1 clip2 : rectangle) (y x : Z) :
  draw_background s (draw_background s b clip1) clip2 y x
  = draw_background s b clip1 y x.
Proof.
  rewrite (draw_background_pixel s (draw_background s b clip1)).
  rewrite (draw_background_pixel s b).
  now destruct (star_at s y x).
Qed.

Lemma star_ctrl_fields (bg1 bg2 : Z) :
  Z.land bg1 0x3E = Z.land bg2 0x3E ->
  Z.land bg1 0x8 = Z.land bg2 0x8 /\
  Z.land bg1 0x6 = Z.land bg2 0x6 /\
  Z.land (Z.shiftr bg1 4) 3 = Z.land (Z.shiftr bg2 4) 3.
Proof.
  intros H.
  assert (H8 : forall bg, Z.land bg 0x8 = Z.land (Z.land bg 0x3E) 0x8)
    by (intros bg; now rewrite <- Z.land_assoc).
  assert (H6 : forall bg, Z.land bg 0x6 = Z.land (Z.land bg 0x3E) 0x6)
    by (intros bg; now rewrite <- Z.land_assoc).
  assert (H3 : forall bg, Z.land (Z.shiftr bg 4) 3 = Z.shiftr (Z.land bg 0x3E) 4)
    by (intros bg; now rewrite Z.shiftr_land).
  rewrite (H8 bg1), (H8 bg2), (H6 bg1), (H6 bg2), (H3 bg1), (H3 bg2), H.
  auto.
Qed.

(** X4. The star field reads [bg_ctrl] only through bits 1 to 5: two
    snapshots with the same star ROM and work RAM whose [bg_ctrl] differ only
    in bits 0, 6 or 7 (flip-screen, sprite bank) draw the same background.
    In particular flip-screen does not flip the stars. *)
Theorem draw_background_ignores_flip_and_bank (s1 s2 : skyfox_state)
    (b : bitmap_ind16) (clip1 clip2 : rectangle) :
  Z.land (m_bg_ctrl s1) 0x3E = Z.land (m_bg_ctrl s2) 0x3E ->
  gfx2_rom s1 = gfx2_rom s2 ->
  m_bgram s1 = m_bgram s2 ->
  draw_background s1 b clip1 = draw_background s2 b clip2.
Proof.
  intros Hbg Hrom Hram.
  destruct (star_ctrl_fields _ _ Hbg) as (H8 & H6 & H3).
  unfold draw_background. apply for_up_ext. intros j a _.
  assert (Hoffs : star_offs s1 j = star_offs s2 j)
    by (unfold star_offs, pattern; now rewrite H6).
  assert (Hpen : star_pen s1 j = star_pen s2 j)
    by (unfold star_pen; now rewrite Hoffs, Hrom).
  assert (Hx : star_x s1 j = star_x s2 j)
    by (unfold star_x, star_pos; now rewrite Hoffs, Hrom, Hram).
  assert (Hd : star_drawn s1 j = star_drawn s2 j)
    by (unfold star_drawn, blinking; now rewrite H8, H3, Hpen).
  unfold draw_star. now rewrite Hd, Hx, Hpen.
Qed.

Lemma draw_background_ignores_flip_and_bank_witness :
  m_bg_ctrl two_pen_state <> m_bg_ctrl two_pen_state_flipped /\
  draw_background two_pen_state (fun _ _ => 0xFF) full_frame
  = draw_background two_pen_state_flipped (fun _ _ => 0xFF) visible_area.
Proof.
  split; [discriminate|].
  exact (draw_background_ignores_flip_and_bank two_pen_state two_pen_state_flipped
           (fun _ _ => 0xFF) full_frame visible_area eq_refl eq_refl eq_refl).
Defined.

(** X5. Every work-RAM read of the star field is at an index between 0xE0
    and 0xFF, for any loop index at all; with the 256-byte [bgram] both reads
    of an iteration are inside the region. *)
Theorem star_ram_reads_in_bounds (s : skyfox_state) (i : Z) :
  List.length (m_bgram s) = Z.to_nat 256 ->
  0xE0 <= ramoffset i /\ ramoffset i + 1 <= 0xFF /\
  in_region (m_bgram s) (ramoffset i) /\
  in_region (m_bgram s) (ramoffset i + 1).
Proof.
  intros Hlen. unfold ramoffset, in_region. rewrite Hlen.
  pose proof (star_slot_range i). lia.
Qed.

Lemma star_ram_reads_in_bounds_witness :
  ramoffset (-1) + 1 <= 0xFF /\
  in_region (m_bgram two_pen_state) (ramoffset 0xFFF + 1).
Proof.
  destruct (star_ram_reads_in_bounds two_pen_state (-1) eq_refl) as (_ & H1 & _).
  destruct (star_ram_reads_in_bounds two_pen_state 0xFFF eq_refl) as (_ & _ & _ & H2).
  split; [exact H1 | exact H2].
Defined.

(** X6. Rows of the star field: star [i] is placed on bitmap row
    [(i / 16 + 1) mod 256], so every row 0..255 receives exactly the sixteen
    consecutive stars starting at [16 * ((y + 255) mod 256)]; the last
    sixteen stars, whose [y] is 256, wrap to row 0. *)
Theorem star_rows (i y : Z) :
  0 <= i < 0x1000 -> 0 <= y < 256 ->
  (Z.rem (star_y i) 256 = y
   <-> 16 * ((y + 255) mod 256) <= i < 16 * ((y + 255) mod 256) + 16).
Proof.
  intros Hi Hy.
  pose proof (star_y_nonneg i (proj1 Hi)) as Hn.
  rewrite Z.rem_mod_nonneg by lia.
  unfold star_y in *. rewrite Z.shiftr_div_pow2 in * by lia.
  change (2 ^ 4) with 16 in *.
  pose proof (Z.div_mod i 16 ltac:(lia)). pose proof (Z.mod_pos_bound i 16 ltac:(lia)).
  destruct (Z.eq_dec y 0) as [->|Hy0].
  - change ((0 + 255) mod 256) with 255.
    destruct (Z.eq_dec (i / 16) 255) as [E|E].
    + rewrite E. change ((255 + 1) mod 256) with 0. lia.
    + rewrite Z.mod_small by lia. lia.
  - replace ((y + 255) mod 256) with (y - 1).
    2:{ apply (Z.mod_unique_pos _ _ 1); lia. }
    destruct (Z.eq_dec (i / 16) 255) as [E|E].
    + rewrite E. change ((255 + 1) mod 256) with 0. lia.
    + rewrite Z.mod_small by lia. lia.
Qed.

Lemma star_rows_witness :
  Z.rem (star_y 0xFF3) 256 = 0 /\ Z.rem (star_y 0x010) 256 = 2.
Proof.
  split.
  - apply (proj2 (star_rows 0xFF3 0 ltac:(lia) ltac:(lia))).
    change ((0 + 255) mod 256) with 255. lia.
  - apply (proj2 (star_rows 0x010 2 ltac:(lia) ltac:(lia))).
    change ((2 + 255) mod 256) with 1. lia.
Defined.

(** * Further properties of the sprite renderer *)

Lemma byte_pairs_check_spec (f : Z -> Z -> bool) :
  byte_pairs_check f = true ->
  forall b2 b3, 0 <= b2 < 256 -> 0 <= b3 < 256 -> f b2 b3 = true.
Proof.
  unfold byte_pairs_check. intros H b2 b3 H2 H3.
  assert (Hin : forall k, 0 <= k < 256 -> In k (zrange 256)).
  { intros k Hk. unfold zrange. apply in_map_iff. exists (Z.to_nat k).
    split; [lia | apply in_seq; lia]. }
  rewrite forallb_forall in H. specialize (H b3 (Hin b3 H3)).
  rewrite forallb_forall in H. exact (H b2 (Hin b2 H2)).
Qed.

Lemma sprite_shift_bit (s : skyfox_state) :
  sprite_shift s = if Z.testbit (m_bg_ctrl s) 7 then 3 else 4.
Proof.
  unfold sprite_shift. change 0x80 with (2 ^ 7).
  rewrite land_pow2_testbit by lia. now destruct (Z.testbit _ 7).
Qed.

Lemma decode_sprite_codes (s : skyfox_state) (offs : Z) :
  let sp := decode_sprite s offs in
  let code16 := sprite_code16 s offs in
  sp_n sp = fst (spec_size_low code16) /\
  sp_low_code sp = snd (spec_size_low code16) /\
  sp_high_code sp
  = Z.land (Z.shiftr code16 4) 0x7f0 + Z.shiftr (Z.land code16 0x8000) (sprite_shift s).
Proof.
  unfold decode_sprite, spec_size_low.
  destruct (_ =? 0x88); [|destruct (_ =? 0x08)];
    destruct (Z.land (m_bg_ctrl s) 1 =? 0); cbn; auto.
Qed.

Lemma code_fields_checked (shift : Z) :
  shift = 3 \/ shift = 4 -> byte_pairs_check (code_fields_ok shift) = true.
Proof. intros [-> | ->]; vm_compute; reflexivity. Qed.

(** The decoded codes of any entry: where the sprite sits in its tile. *)
Lemma sprite_code_fields (s : skyfox_state) (offs : Z) :
  let sp := decode_sprite s offs in
  let n := sp_n sp in
  let low := sp_low_code sp in
  sp_high_code sp = 16 * tile32 s offs /\
  0 <= low /\ low / 4 + n <= 4 /\ low mod 4 + n <= 4 /\
  (low / 4) mod n = 0 /\ (low mod 4) mod n = 0.
Proof.
  cbv zeta. destruct (decode_sprite_codes s offs) as (Hn & Hl & Hh).
  rewrite Hn, Hl, Hh, sprite_shift_bit. unfold tile32, sprite_code16.
  pose proof (rd_range (m_spriteram s) (offs + 2)) as H2.
  pose proof (rd_range (m_spriteram s) (offs + 3)) as H3.
  set (b2 := rd (m_spriteram s) (offs + 2)) in *.
  set (b3 := rd (m_spriteram s) (offs + 3)) in *.
  assert (Hc : forall shift, shift = 3 \/ shift = 4 -> code_fields_ok shift b2 b3 = true)
    by (intros shift Hs; apply byte_pairs_check_spec;
        [now apply code_fields_checked | assumption | assumption]).
  destruct (Z.testbit (m_bg_ctrl s) 7);
    [specialize (Hc 3 (or_introl eq_refl)) | specialize (Hc 4 (or_intror eq_refl))];
    unfold code_fields_ok in Hc; cbv zeta in Hc;
    repeat (apply andb_prop in Hc; destruct Hc as [Hc ?]);
    repeat match goal with
           | H : (_ =? _) = true |- _ => apply Z.eqb_eq in H
           | H : (_ <=? _) = true |- _ => apply Z.leb_le in H
           end;
    cbn [andb Z.eqb] in *; repeat split; assumption.
Qed.

Lemma tile32_range (s : skyfox_state) (offs : Z) : 0 <= tile32 s offs < 0x180.
Proof.
  unfold tile32. pose proof (rd_range (m_spriteram s) (offs + 3)).
  destruct (_ && _); lia.
Qed.

Lemma in_zrange (n k : Z) : In k (zrange n) -> 0 <= k < n.
Proof.
  unfold zrange. intros H. apply in_map_iff in H. destruct H as (j & <- & Hj).
  apply in_seq in Hj. lia.
Qed.

(** Codes of an entry, cell by cell of the 4x4 grid of its 32x32 tile. *)
Lemma sprite_codes_grid (s : skyfox_state) (offs : Z) :
  let sp := decode_sprite s offs in
  let n := sp_n sp in
  let r0 := sp_low_code sp / 4 in
  let c0 := sp_low_code sp mod 4 in
  map c_code (spec_sprite_calls sp)
  = flat_map (fun r => flat_map (fun c =>
        let k := 16 * tile32 s offs + 4 * (r0 + r) + (c0 + c) in [k; k])
      (zrange n)) (zrange n).
Proof.
  cbv zeta. unfold spec_sprite_calls.
  rewrite spec_rows_codes by apply sp_n_cases.
  destruct (sprite_code_fields s offs) as (Hh & _).
  rewrite Hh. set (low := sp_low_code (decode_sprite s offs)).
  pose proof (Z.div_mod low 4 ltac:(lia)) as Hd.
  destruct (sp_n_cases s offs) as [E | [E | E]]; cbv zeta in E; rewrite E;
    [ change (zrange 1) with [0]
    | change (zrange 2) with [0; 1]
    | change (zrange 4) with [0; 1; 2; 3] ];
    cbn [flat_map app Z.eqb Pos.eqb]; repeat (f_equal; try lia).
Qed.

(** X7. Bank switching of sprite tiles: every blit of an entry uses a code
    inside the 32x32 tile the entry selects, [code / 16 = tile32]; that tile
    is byte 3 of the entry, except that with bit 7 of [bg_ctrl] set bytes
    0x80..0xFF select tiles 0x100..0x17F.  All codes are therefore below
    0x1800, and below 0x1000 when the bank bit is clear. *)
Theorem sprite_codes_stay_in_tile (s : skyfox_state) (offs : Z) (fuel : nat) :
  (4 <= fuel)%nat ->
  exists calls,
    draw_sprite_calls fuel s offs = Some calls /\
    Forall (fun c =>
              c_code c / 16 = tile32 s offs /\
              0 <= c_code c < 0x1800 /\
              (Z.testbit (m_bg_ctrl s) 7 = false ->
               c_code c / 16 = rd (m_spriteram s) (offs + 3) /\ c_code c < 0x1000))
           calls.
Proof.
  intros Hf. eexists. split; [now apply draw_sprite_calls_spec|].
  apply (proj1 (Forall_map c_code
                  (fun k => k / 16 = tile32 s offs /\ 0 <= k < 0x1800 /\
                     (Z.testbit (m_bg_ctrl s) 7 = false ->
                      k / 16 = rd (m_spriteram s) (offs + 3) /\ k < 0x1000))
                  _)).
  rewrite sprite_codes_grid.
  destruct (sprite_code_fields s offs) as (_ & Hl & Hr & Hc & _).
  pose proof (tile32_range s offs) as Ht.
  set (low := sp_low_code (decode_sprite s offs)) in *.
  pose proof (Z.mod_pos_bound low 4 ltac:(lia)) as Hm.
  assert (Hq : 0 <= low / 4) by (apply Z.div_pos; lia).
  apply Forall_flat_map, Forall_forall. intros r Hr'. apply in_zrange in Hr'.
  apply Forall_flat_map, Forall_forall. intros c Hc'. apply in_zrange in Hc'.
  cbv zeta.
  assert (Hk : (16 * tile32 s offs + 4 * (low / 4 + r) + (low mod 4 + c)) / 16
               = tile32 s offs).
  { symmetry. apply (Z.div_unique _ _ _ (4 * (low / 4 + r) + (low mod 4 + c))); lia. }
  assert (P : (16 * tile32 s offs + 4 * (low / 4 + r) + (low mod 4 + c)) / 16
              = tile32 s offs /\
              0 <= 16 * tile32 s offs + 4 * (low / 4 + r) + (low mod 4 + c) < 0x1800 /\
              (Z.testbit (m_bg_ctrl s) 7 = false ->
               (16 * tile32 s offs + 4 * (low / 4 + r) + (low mod 4 + c)) / 16
               = rd (m_spriteram s) (offs + 3) /\
               16 * tile32 s offs + 4 * (low / 4 + r) + (low mod 4 + c) < 0x1000)).
  { split; [exact Hk|]. split; [lia|]. intros Hb. rewrite Hk.
    unfold tile32 in *. rewrite Hb in *. cbn [andb] in *.
    pose proof (rd_range (m_spriteram s) (offs + 3)). lia. }
  constructor; [exact P|]. constructor; [exact P|]. constructor.
Qed.

Lemma sprite_codes_stay_in_tile_witness :
  (4 <= 4)%nat /\
  tile32 banked_state 0 = 0x110 /\
  option_map (map c_code) (draw_sprite_calls 4 banked_state 0)
  = Some [0x110a; 0x110a; 0x110b; 0x110b; 0x110e; 0x110e; 0x110f; 0x110f].
Proof.
  split; [lia|]. split; [reflexivity|].
  destruct (sprite_codes_stay_in_tile banked_state 0 4 ltac:(lia)) as (calls & E & _).
  rewrite E. vm_compute in E. injection E as <-. reflexivity.
Defined.

(** X8. Sub-tile addressing: the tiles of an entry form an aligned n-by-n
    block of the 4x4 grid of 8x8 cells of its 32x32 tile.  With
    [r0 = low_code / 4] and [c0 = low_code mod 4] (both multiples of [n], the
    block ending inside the grid), the tile drawn at walk row [r], column [c]
    has code [16 * tile32 + 4 * (r0 + r) + (c0 + c)]: a sprite never borrows
    a cell from the next row of the grid or from another 32x32 tile. *)
Theorem sprite_tiles_form_aligned_block (s : skyfox_state) (offs : Z) (fuel : nat) :
  (4 <= fuel)%nat ->
  let sp := decode_sprite s offs in
  let n := sp_n sp in
  let r0 := sp_low_code sp / 4 in
  let c0 := sp_low_code sp mod 4 in
  0 <= r0 /\ r0 + n <= 4 /\ 0 <= c0 /\ c0 + n <= 4 /\ r0 mod n = 0 /\ c0 mod n = 0 /\
  exists calls,
    draw_sprite_calls fuel s offs = Some calls /\
    map c_code calls
    = flat_map (fun r => flat_map (fun c =>
          let k := 16 * tile32 s offs + 4 * (r0 + r) + (c0 + c) in [k; k])
        (zrange n)) (zrange n).
Proof.
  intros Hf. cbv zeta.
  destruct (sprite_code_fields s offs) as (_ & Hl & Hr & Hc & Har & Hac).
  pose proof (Z.mod_pos_bound (sp_low_code (decode_sprite s offs)) 4 ltac:(lia)).
  assert (0 <= sp_low_code (decode_sprite s offs) / 4) by (apply Z.div_pos; lia).
  repeat split; try assumption; try lia.
  eexists. split; [now apply draw_sprite_calls_spec|].
  apply sprite_codes_grid.
Qed.

Lemma sprite_tiles_form_aligned_block_witness :
  (4 <= 4)%nat /\
  sp_low_code (decode_sprite banked_state 0) / 4 = 2 /\
  sp_low_code (decode_sprite banked_state 0) mod 4 = 2 /\
  option_map (map c_code) (draw_sprite_calls 4 banked_state 4)
  = Some [0x110d; 0x110d].
Proof.
  split; [lia|]. split; [reflexivity|]. split; [reflexivity|].
  destruct (sprite_tiles_form_aligned_block banked_state 4 4 ltac:(lia))
    as (_ & _ & _ & _ & _ & _ & calls & E & Hm).
  rewrite E. cbn [option_map]. rewrite Hm. reflexivity.
Defined.

(** ** Flip-screen as a reflection *)

Lemma reflected_sprite_calls (n low high fx fy x y w h : Z) :
  n = 1 \/ n = 2 \/ n = 4 ->
  let sp := mkSprite n low high fx fy x y in
  let sp' := mkSprite n low high (lnot_int fx) (lnot_int fy)
               (w - x - n * 8) (h - y - n * 8) in
  spec_sprite_calls sp = flat_map with_clone (evens (spec_sprite_calls sp)) /\
  spec_sprite_calls sp'
  = flat_map (fun m => with_clone (reflect_call w h m)) (evens (spec_sprite_calls sp)).
Proof.
  intros Hn. cbv zeta. unfold spec_sprite_calls, walk, lnot_int.
  cbn [sp_n sp_low_code sp_high_code sp_flipx sp_flipy sp_x sp_y].
  destruct Hn as [-> | [-> | ->]];
    [ change (zrange 1) with [0]
    | change (zrange 2) with [0; 1]
    | change (zrange 4) with [0; 1; 2; 3] ];
    destruct (fx =? 0) eqn:Ex; destruct (fy =? 0) eqn:Ey;
    cbn [spec_rows spec_row spec_blits rev app flat_map evens Z.eqb Pos.eqb];
    unfold with_clone, reflect_call, up256, lnot_int;
    cbn [app c_code c_color c_flipx c_flipy c_destx c_desty c_transpen];
    rewrite ?Ex, ?Ey;
    (split; [reflexivity | repeat (f_equal; try lia)]).
Qed.

Lemma decode_set_flip_screen (s : skyfox_state) (offs : Z) :
  Z.testbit (m_bg_ctrl s) 0 = false ->
  let sp := decode_sprite s offs in
  decode_sprite (set_flip_screen s) offs
  = mkSprite (sp_n sp) (sp_low_code sp) (sp_high_code sp)
      (lnot_int (sp_flipx sp)) (lnot_int (sp_flipy sp))
      (screen_width s - sp_x sp - sp_n sp * 8)
      (screen_height s - sp_y sp - sp_n sp * 8) /\
  sp = mkSprite (sp_n sp) (sp_low_code sp) (sp_high_code sp)
         (sp_flipx sp) (sp_flipy sp) (sp_x sp) (sp_y sp).
Proof.
  intros Hb.
  assert (H0 : Z.land (m_bg_ctrl s) 1 = 0).
  { apply Z.eqb_eq. change 1 with (2 ^ 0) at 1.
    rewrite land_pow2_testbit by lia. now rewrite Hb. }
  assert (H1 : (Z.land (Z.lor (m_bg_ctrl s) 1) 1 =? 0) = false).
  { rewrite Z.land_lor_distr_l, H0. reflexivity. }
  assert (H7 : Z.land (Z.lor (m_bg_ctrl s) 1) 0x80 = Z.land (m_bg_ctrl s) 0x80).
  { rewrite Z.land_lor_distr_l. change (Z.land 1 0x80) with 0. apply Z.lor_0_r. }
  cbv zeta. unfold decode_sprite, set_flip_screen, sprite_shift, sprite_code16.
  cbn [m_bg_ctrl m_spriteram screen_width screen_height].
  rewrite H1, H7, H0. cbn [Z.eqb].
  destruct (_ =? 0x88); [|destruct (_ =? 0x08)]; split; reflexivity.
Qed.

(** X9. Flip-screen is a reflection of the blits.  For an entry drawn with
    bit 0 of [bg_ctrl] clear, the calls are the main blits each followed by
    its copy 256 rows up; setting the bit replaces every main blit, in the
    same order and with the same tile code, by its mirror image through the
    screen (position [(width - x - 8, height - y - 8)], both flip flags
    negated), again followed by a copy 256 rows up. *)
Theorem flip_screen_reflects_blits (s : skyfox_state) (offs : Z) (fuel : nat) :
  (4 <= fuel)%nat ->
  Z.testbit (m_bg_ctrl s) 0 = false ->
  exists calls,
    draw_sprite_calls fuel s offs = Some calls /\
    calls = flat_map with_clone (evens calls) /\
    draw_sprite_calls fuel (set_flip_screen s) offs
    = Some (flat_map (fun m => with_clone
                                 (reflect_call (screen_width s) (screen_height s) m))
              (evens calls)).
Proof.
  intros Hf Hb. exists (spec_sprite_calls (decode_sprite s offs)).
  rewrite !draw_sprite_calls_spec by assumption.
  destruct (decode_set_flip_screen s offs Hb) as [E' E]. cbv zeta in E', E.
  rewrite E'.
  destruct (reflected_sprite_calls
              (sp_n (decode_sprite s offs)) (sp_low_code (decode_sprite s offs))
              (sp_high_code (decode_sprite s offs)) (sp_flipx (decode_sprite s offs))
              (sp_flipy (decode_sprite s offs)) (sp_x (decode_sprite s offs))
              (sp_y (decode_sprite s offs)) (screen_width s) (screen_height s)
              (sp_n_cases s offs)) as [H1 H2].
  cbv zeta in H1, H2. rewrite <- E in H1, H2.
  split; [reflexivity|]. split; [exact H1 | now rewrite H2].
Qed.

Lemma flip_screen_reflects_blits_witness :
  (4 <= 4)%nat /\
  option_map (map (fun c => (c_code c, c_flipx c, c_destx c, c_desty c)))
    (draw_sprite_calls 4 (set_flip_screen sprite16_state) 0)
  = Some [ (0x30, 0, 512 - 136 - 8, 256 - 24 - 8);
           (0x30, 0, 512 - 136 - 8, 256 - 24 - 8 - 256);
           (0x31, 0, 512 - 128 - 8, 256 - 24 - 8);
           (0x31, 0, 512 - 128 - 8, 256 - 24 - 8 - 256);
           (0x34, 0, 512 - 136 - 8, 256 - 16 - 8);
           (0x34, 0, 512 - 136 - 8, 256 - 16 - 8 - 256);
           (0x35, 0, 512 - 128 - 8, 256 - 16 - 8);
           (0x35, 0, 512 - 128 - 8, 256 - 16 - 8 - 256) ].
Proof.
  split; [lia|].
  destruct (flip_screen_reflects_blits sprite16_state 0 4 ltac:(lia) eq_refl)
    as (calls & E & _ & E').
  rewrite E'. vm_compute in E. injection E as <-. reflexivity.
Defined.

(** ** The wrap-around copy *)

Lemma evens_incl {A : Type} (l : list A) :
  (forall a, In a (evens l) -> In a l) /\
  (forall a b, In a (evens (b :: l)) -> In a (b :: l)).
Proof.
  induction l as [|c r [IHP IHQ]].
  - split; [intros a [] | intros a b H; exact H].
  - split; [intros a; apply IHQ|].
    intros a b [H | H]; [now left|].
    right. right. now apply IHP.
Qed.

Lemma evens_Forall {A : Type} (P : A -> Prop) (l : list A) :
  Forall P l -> Forall P (evens l).
Proof.
  rewrite !Forall_forall. intros H a Ha. apply H.
  now apply (proj1 (evens_incl l)).
Qed.

Lemma last_paint_without_clones (g : gfx_element) (clip : rectangle)
    (mains : list gfx_call) (y x : Z) :
  Forall (fun m => call_pixel g clip (up256 m) y x = None) mains ->
  last_paint g clip (flat_map with_clone mains) y x = last_paint g clip mains y x.
Proof.
  induction 1 as [|m mains Hm _ IH]; [reflexivity|].
  cbn [flat_map with_clone app last_paint]. rewrite IH, Hm.
  now destruct (last_paint g clip mains y x).
Qed.

Lemma clone_above_screen (g : gfx_element) (clip : rectangle) (m : gfx_call) (y x : Z) :
  gfx_height g = 8 -> c_desty m + 8 <= 256 -> 0 <= y ->
  call_pixel g clip (up256 m) y x = None.
Proof.
  intros Hg Hm Hy. unfold call_pixel, up256. cbn [c_destx c_desty]. rewrite Hg.
  destruct (Z.ltb_spec (y - (c_desty m - 256)) 8); [lia|].
  now rewrite andb_false_r.
Qed.

(** X10. The wrap-around copy of a sprite ("large sprites exiting the
    screen sometimes reappear on the other edge") reaches the rows from 0
    downwards only when the sprite's bottom edge [y + 8n] lies beyond row
    256: otherwise the frame is that of the main blits alone.  With
    flip-screen set on a screen of at most 256 lines the bottom edge is
    [height - y], so there the copy never shows. *)
Theorem wrap_copy_needs_overhang (s : skyfox_state) (clip : rectangle) (offs : Z)
    (fuel : nat) :
  (4 <= fuel)%nat ->
  gfx_height (gfx0 s) = 8 ->
  let sp := decode_sprite s offs in
  (Z.testbit (m_bg_ctrl s) 0 = true -> screen_height s <= 256 ->
   sp_y sp + 8 * sp_n sp <= 256) /\
  (sp_y sp + 8 * sp_n sp <= 256 ->
   exists calls,
     draw_sprite_calls fuel s offs = Some calls /\
     forall y x, 0 <= y ->
       last_paint (gfx0 s) clip calls y x = last_paint (gfx0 s) clip (evens calls) y x).
Proof.
  intros Hf Hg sp. split.
  - intros Hb Hh. subst sp. unfold decode_sprite.
    assert (H1 : (Z.land (m_bg_ctrl s) 1 =? 0) = false).
    { change 1 with (2 ^ 0). rewrite land_pow2_testbit by lia. now rewrite Hb. }
    rewrite H1. pose proof (rd_range (m_spriteram s) (offs + 0)).
    destruct (_ =? 0x88); [|destruct (_ =? 0x08)]; cbn [sp_y sp_n]; lia.
  - intros Hedge. exists (spec_sprite_calls sp).
    split; [now apply draw_sprite_calls_spec|]. intros y x Hy.
    assert (Hsplit : spec_sprite_calls sp
                     = flat_map with_clone (evens (spec_sprite_calls sp))).
    { pose proof (reflected_sprite_calls (sp_n sp) (sp_low_code sp) (sp_high_code sp)
                    (sp_flipx sp) (sp_flipy sp) (sp_x sp) (sp_y sp) 0 0
                    (sp_n_cases s offs)) as [H _].
      cbv zeta in H. now destruct sp. }
    rewrite Hsplit at 1. apply last_paint_without_clones.
    apply evens_Forall. unfold spec_sprite_calls.
    apply spec_rows_Forall. intros dx dy code _ Hdy. apply walk_range in Hdy.
    unfold spec_blits.
    constructor; [|constructor; [|constructor]];
      apply clone_above_screen; cbn [c_desty]; try assumption; lia.
Qed.

Lemma wrap_copy_needs_overhang_witness :
  (4 <= 4)%nat /\ gfx_height (gfx0 scenario_c) = 8 /\
  sp_y (decode_sprite scenario_c 0) + 8 * sp_n (decode_sprite scenario_c 0) <= 256 /\
  entry_paint wrapping_state full_frame 0 0 128 = Some 1 /\
  last_paint (gfx0 wrapping_state) full_frame
    (evens (spec_sprite_calls (decode_sprite wrapping_state 0))) 0 128 = None.
Proof.
  split; [lia|]. split; [reflexivity|].
  split; [|split; reflexivity].
  exact (proj1 (wrap_copy_needs_overhang scenario_c full_frame 0 4 ltac:(lia) eq_refl)
           eq_refl ltac:(cbn; lia)).
Defined.

(** ** Size of a frame's work, and the reads of the sprite table *)

Lemma spec_sprite_calls_length (sp : sprite) :
  sp_n sp = 1 \/ sp_n sp = 2 \/ sp_n sp = 4 ->
  Z.of_nat (List.length (spec_sprite_calls sp)) = 2 * sp_n sp * sp_n sp.
Proof.
  unfold spec_sprite_calls, walk.
  intros [E | [E | E]]; rewrite E;
    [ change (zrange 1) with [0]
    | change (zrange 2) with [0; 1]
    | change (zrange 4) with [0; 1; 2; 3] ];
    destruct (sp_flipx sp =? 0); destruct (sp_flipy sp =? 0); reflexivity.
Qed.

Lemma table_calls_length (s : skyfox_state) (offsets : list Z) :
  let calls := flat_map (fun o => spec_sprite_calls (decode_sprite s o)) offsets in
  2 * Z.of_nat (List.length offsets) <= Z.of_nat (List.length calls)
  <= 32 * Z.of_nat (List.length offsets).
Proof.
  cbv zeta. induction offsets as [|o offsets IH]; [cbn; lia|].
  cbn [flat_map List.length]. rewrite length_app.
  pose proof (spec_sprite_calls_length (decode_sprite s o) (sp_n_cases s o)) as Hl.
  destruct (sp_n_cases s o) as [E | [E | E]]; cbv zeta in E; rewrite E in Hl; lia.
Qed.

(** X11. Cost of the sprite layer: an entry makes exactly [2 * n * n]
    [transpen] calls (2, 8 or 32), and a table of [e] entries makes between
    [2 * e] and [32 * e] calls, whatever the bytes it holds. *)
Theorem sprite_call_count (s : skyfox_state) (fuel : nat) :
  enough_fuel s fuel ->
  (forall offs, exists calls,
     draw_sprite_calls fuel s offs = Some calls /\
     Z.of_nat (List.length calls)
     = 2 * sp_n (decode_sprite s offs) * sp_n (decode_sprite s offs)) /\
  exists calls,
    draw_sprites_calls fuel s = Some calls /\
    let e := (Z.of_nat (List.length (m_spriteram s)) + 3) / 4 in
    2 * e <= Z.of_nat (List.length calls) <= 32 * e.
Proof.
  intros Hf. pose proof Hf as [Hf4 _]. split.
  - intros offs. eexists. split; [now apply draw_sprite_calls_spec|].
    apply spec_sprite_calls_length, sp_n_cases.
  - eexists. split.
    + unfold draw_sprites_calls. rewrite draw_sprites_spec by assumption.
      rewrite run_calls_record. reflexivity.
    + cbv zeta. cbn [app]. pose proof (table_calls_length s (sprite_offsets s)) as H.
      cbv zeta in H. unfold spec_table_calls.
      assert (Hl : Z.of_nat (List.length (sprite_offsets s))
                   = (Z.of_nat (List.length (m_spriteram s)) + 3) / 4).
      { unfold sprite_offsets, zrange. rewrite !length_map, length_seq.
        apply Z2Nat.id. apply Z.div_pos; lia. }
      rewrite Hl in H. exact H.
Qed.

Lemma sprite_call_count_witness :
  enough_fuel banked_state 8 /\
  option_map (@List.length gfx_call) (draw_sprites_calls 8 banked_state) = Some 10%nat.
Proof.
  assert (Hf : enough_fuel banked_state 8) by (split; cbn; lia).
  split; [exact Hf|].
  destruct (sprite_call_count banked_state 8 Hf) as (_ & calls & E & _).
  rewrite E. vm_compute in E. injection E as <-. reflexivity.
Defined.

Lemma visited_offsets_spec (fuel : nat) (s : skyfox_state) :
  (List.length (m_spriteram s) <= fuel)%nat ->
  visited_offsets fuel s = Some (sprite_offsets s).
Proof.
  intros Hlen. unfold visited_offsets, sprite_offsets, zrange.
  set (bytes := Z.of_nat (List.length (m_spriteram s))).
  assert (Hb : 0 <= bytes) by (subst bytes; lia).
  pose proof (Z.div_mod (bytes + 3) 4 ltac:(lia)) as Hdm.
  pose proof (Z.mod_pos_bound (bytes + 3) 4 ltac:(lia)) as Hmod.
  rewrite (for_lt_step4 _ (Z.to_nat ((bytes + 3) / 4))).
  - rewrite map_map. cbn [Z.add].
    generalize (seq 0 (Z.to_nat ((bytes + 3) / 4))). intros l.
    assert (H : forall acc, fold_opt (fun o l0 => Some (l0 ++ [o]))
                              (map (fun j => 4 * Z.of_nat j) l) acc
                            = Some (acc ++ map (fun x => 4 * Z.of_nat x) l)).
    { induction l as [|a l IH]; intros acc; cbn [map fold_opt].
      - now rewrite app_nil_r.
      - rewrite IH, <- app_assoc. reflexivity. }
    apply (H []).
  - subst bytes. lia.
  - rewrite Z2Nat.id by lia. lia.
  - intros H0. lia.
Qed.

(** X12. Reads of the sprite table.  The loop visits the offsets
    0, 4, 8, ... below the size of the table, that is [ceil(size / 4)]
    entries; all four bytes of every visited entry lie inside the table
    exactly when its size is a multiple of 4 (otherwise the last entry is
    read past the end); and an empty table makes no call at all. *)
Theorem sprite_table_reads (s : skyfox_state) (fuel : nat) :
  (List.length (m_spriteram s) <= fuel)%nat ->
  visited_offsets fuel s = Some (sprite_offsets s) /\
  Z.of_nat (List.length (sprite_offsets s))
  = (Z.of_nat (List.length (m_spriteram s)) + 3) / 4 /\
  (Forall (fun o => in_region (m_spriteram s) o /\ in_region (m_spriteram s) (o + 3))
          (sprite_offsets s)
   <-> Z.of_nat (List.length (m_spriteram s)) mod 4 = 0) /\
  (m_spriteram s = [] -> draw_sprites_calls fuel s = Some []).
Proof.
  intros Hlen.
  set (bytes := Z.of_nat (List.length (m_spriteram s))).
  assert (Hb : 0 <= bytes) by (subst bytes; lia).
  pose proof (Z.div_mod (bytes + 3) 4 ltac:(lia)) as Hdm.
  pose proof (Z.mod_pos_bound (bytes + 3) 4 ltac:(lia)) as Hmod.
  pose proof (Z.div_mod bytes 4 ltac:(lia)) as Hdm'.
  pose proof (Z.mod_pos_bound bytes 4 ltac:(lia)) as Hmod'.
  assert (Hin : forall o, In o (sprite_offsets s)
                          <-> exists k, o = 4 * k /\ 0 <= k < (bytes + 3) / 4).
  { intros o. unfold sprite_offsets. fold bytes. rewrite in_map_iff. split.
    - intros (k & <- & Hk). apply in_zrange in Hk. now exists k.
    - intros (k & -> & Hk). exists k. split; [reflexivity|].
      unfold zrange. apply in_map_iff. exists (Z.to_nat k).
      split; [lia | apply in_seq; lia]. }
  split; [now apply visited_offsets_spec|]. split; [|split].
  - unfold sprite_offsets, zrange. rewrite !length_map, length_seq.
    apply Z2Nat.id. apply Z.div_pos; lia.
  - rewrite Forall_forall. unfold in_region. fold bytes. split.
    + intros H. destruct (Z.eq_dec bytes 0) as [E|E]; [now rewrite E|].
      specialize (H (4 * ((bytes + 3) / 4 - 1))).
      assert (Hk : In (4 * ((bytes + 3) / 4 - 1)) (sprite_offsets s)).
      { apply Hin. eexists. split; [reflexivity | lia]. }
      specialize (H Hk). lia.
    + intros Hm o Ho. apply Hin in Ho. destruct Ho as (k & -> & Hk). lia.
  - intros He. unfold draw_sprites_calls, draw_sprites. rewrite He.
    destruct fuel; reflexivity.
Qed.

Lemma sprite_table_reads_witness :
  visited_offsets 6 ragged_state = Some [0; 4] /\
  ~ in_region (m_spriteram ragged_state) (4 + 3) /\
  Z.of_nat (List.length (m_spriteram ragged_state)) mod 4 <> 0.
Proof.
  destruct (sprite_table_reads ragged_state 6 ltac:(cbn; lia)) as (E & _ & Hiff & _).
  split; [exact E|].
  assert (Hn : ~ in_region (m_spriteram ragged_state) (4 + 3))
    by (unfold in_region; cbn; lia).
  split; [exact Hn|]. intros Hm. apply Hn.
  apply (proj2 Hiff) in Hm. rewrite Forall_forall in Hm.
  apply (Hm 4). vm_compute. auto.
Defined.

(** ** Layers of a frame *)

(** What [screen_update_skyfox] leaves at a pixel: the sprite of largest
    offset opaque there, else the last star landing there, else the clear
    colour inside the clip and the old value outside. *)
Lemma screen_update_pixel (fuel : nat) (s : skyfox_state) (b : bitmap_ind16)
    (clip : rectangle) :
  enough_fuel s fuel ->
  exists b',
    screen_update_skyfox fuel s b clip = Some b' /\
    forall y x,
      b' y x = match last_paint (gfx0 s) clip (spec_table_calls s) y x with
               | Some v => v
               | None =>
                   match star_at s y x with
                   | Some p => p
                   | None => if contains clip x y then 0xff else b y x
                   end
               end.
Proof.
  intros Hf. eexists. split; [now apply screen_update_spec|].
  intros y x. rewrite run_calls_pixel, draw_background_pixel. reflexivity.
Qed.

(** X13. Layer order of a frame.  After [screen_update_skyfox] a pixel
    holds the value of the last [transpen] call opaque there; failing that,
    the pen of the last star landing there; failing that, the clear colour
    0xFF inside the clip rectangle and its previous value outside. *)
Theorem screen_update_layers (fuel : nat) (s : skyfox_state) (b : bitmap_ind16)
    (clip : rectangle) :
  enough_fuel s fuel ->
  exists calls b',
    draw_sprites_calls fuel s = Some calls /\
    screen_update_skyfox fuel s b clip = Some b' /\
    forall y x,
      b' y x = match last_paint (gfx0 s) clip calls y x with
               | Some v => v
               | None =>
                   match star_at s y x with
                   | Some p => p
                   | None => if contains clip x y then 0xff else b y x
                   end
               end.
Proof.
  intros Hf. destruct (screen_update_pixel fuel s b clip Hf) as (b' & E & H).
  exists (spec_table_calls s), b'. split; [|split; assumption].
  unfold draw_sprites_calls. rewrite draw_sprites_spec by assumption.
  now rewrite run_calls_record.
Qed.

Lemma screen_update_layers_witness :
  enough_fuel wrapping_state 4 /\
  exists b',
    screen_update_skyfox 4 wrapping_state (fun _ _ => 0) full_frame = Some b' /\
    b' 250 128 = 0x01 /\ b' 0 128 = 0x01 /\ b' 100 89 = 0xFF /\ b' 100 300 = 0xFF.
Proof.
  assert (Hf : enough_fuel wrapping_state 4) by (split; cbn; lia).
  split; [exact Hf|].
  destruct (screen_update_layers 4 wrapping_state (fun _ _ => 0) full_frame Hf)
    as (calls & b' & Ec & E & H).
  exists b'. split; [exact E|].
  vm_compute in Ec. injection Ec as <-.
  repeat split; rewrite H; vm_compute; reflexivity.
Defined.

(** X14. A frame neither keeps stale pixels nor spills sprites: inside the
    clip rectangle the rendered pixel does not depend on what the bitmap held
    before, and outside the clip a pixel on which no star lands keeps its
    value. *)
Theorem screen_update_frame (fuel : nat) (s : skyfox_state) (b1 b2 : bitmap_ind16)
    (clip : rectangle) :
  enough_fuel s fuel ->
  exists r1 r2,
    screen_update_skyfox fuel s b1 clip = Some r1 /\
    screen_update_skyfox fuel s b2 clip = Some r2 /\
    (forall y x, contains clip x y = true -> r1 y x = r2 y x) /\
    (forall y x, contains clip x y = false -> star_at s y x = None ->
                 r1 y x = b1 y x).
Proof.
  intros Hf.
  destruct (screen_update_pixel fuel s b1 clip Hf) as (r1 & E1 & H1).
  destruct (screen_update_pixel fuel s b2 clip Hf) as (r2 & E2 & H2).
  exists r1, r2. repeat split; try assumption.
  - intros y x Hc. rewrite H1, H2, Hc. reflexivity.
  - intros y x Hc Hs. rewrite H1, Hs, Hc, last_paint_clipped by assumption.
    reflexivity.
Qed.

Lemma screen_update_frame_witness :
  enough_fuel wrapping_state 4 /\
  exists r1 r2,
    screen_update_skyfox 4 wrapping_state (fun _ _ => 0) visible_area = Some r1 /\
    screen_update_skyfox 4 wrapping_state (fun y x => x + y) visible_area = Some r2 /\
    r1 0x20 0x70 = r2 0x20 0x70 /\ r1 0 0 = 0.
Proof.
  assert (Hf : enough_fuel wrapping_state 4) by (split; cbn; lia).
  split; [exact Hf|].
  destruct (screen_update_frame 4 wrapping_state (fun _ _ => 0) (fun y x => x + y)
              visible_area Hf) as (r1 & r2 & E1 & E2 & Hin & Hout).
  exists r1, r2. split; [exact E1|]. split; [exact E2|]. split.
  - apply Hin. reflexivity.
  - rewrite Hout; [reflexivity | reflexivity | vm_compute; reflexivity].
Defined.

(** * Pooyan: the NMI gate *)

Section PooyanIrq.

Import Pooyan.

Lemma step_keeps_gate (st : irq_state) (e : event) :
  (nmi_line st = ASSERT_LINE -> m_irq_enable st <> 0) ->
  nmi_line (step st e) = ASSERT_LINE -> m_irq_enable (step st e) <> 0.
Proof.
  intros Hinv. destruct e as [state | state]; cbn [step].
  - unfold vblank_irq.
    destruct (state =? 0); cbn [negb andb]; [exact Hinv|].
    destruct (Z.eqb_spec (m_irq_enable st) 0); cbn [negb]; [exact Hinv|].
    intros _. assumption.
  - unfold irq_enable_w. cbn [m_irq_enable nmi_line].
    destruct (Z.eqb_spec state 0); cbn [m_irq_enable nmi_line].
    + discriminate.
    + intros _. assumption.
Qed.

Lemma step_keeps_asserted (st : irq_state) (e : event) :
  is_disable e = false ->
  nmi_line st = ASSERT_LINE -> nmi_line (step st e) = ASSERT_LINE.
Proof.
  intros He Hl. destruct e as [state | state]; cbn [step is_disable] in *.
  - unfold vblank_irq. now destruct (_ && _).
  - unfold irq_enable_w. cbn [m_irq_enable nmi_line]. now rewrite He.
Qed.

End PooyanIrq.

(** X15. The NMI gate of Pooyan: whatever sequence of vblank and
    irq-enable line changes reaches the driver, the NMI line is never left
    asserted while interrupts are disabled.  The property holds at power-on
    and is kept by every handler call. *)
Theorem pooyan_nmi_only_while_enabled (events : list Pooyan.event)
    (st : Pooyan.irq_state) :
  (Pooyan.nmi_line st = Pooyan.ASSERT_LINE -> Pooyan.m_irq_enable st <> 0) ->
  Pooyan.nmi_line (Pooyan.run events st) = Pooyan.ASSERT_LINE ->
  Pooyan.m_irq_enable (Pooyan.run events st) <> 0.
Proof.
  revert st. induction events as [|e events IH]; intros st Hinv; [exact Hinv|].
  cbn [Pooyan.run fold_left]. apply IH. now apply step_keeps_gate.
Qed.

Lemma pooyan_nmi_only_while_enabled_witness :
  Pooyan.nmi_line
    (Pooyan.run [Pooyan.IrqEnable 1; Pooyan.Vblank 1; Pooyan.Vblank 0] Pooyan.power_on)
  = Pooyan.ASSERT_LINE /\
  Pooyan.m_irq_enable
    (Pooyan.run [Pooyan.IrqEnable 1; Pooyan.Vblank 1; Pooyan.Vblank 0] Pooyan.power_on)
  <> 0.
Proof.
  split; [reflexivity|].
  apply pooyan_nmi_only_while_enabled; [discriminate | reflexivity].
Defined.

(** X16. The NMI is latched: once asserted, the line stays asserted through
    the end of vblank, further vblanks and writes of a non-zero enable; only
    a write of 0 to the enable latch drops it, and such a write always leaves
    it clear. *)
Theorem pooyan_nmi_latched_until_disable (events : list Pooyan.event)
    (st : Pooyan.irq_state) :
  (Pooyan.nmi_line st = Pooyan.ASSERT_LINE ->
   forallb (fun e => negb (Pooyan.is_disable e)) events = true ->
   Pooyan.nmi_line (Pooyan.run events st) = Pooyan.ASSERT_LINE) /\
  Pooyan.nmi_line (Pooyan.run (events ++ [Pooyan.IrqEnable 0]) st) = Pooyan.CLEAR_LINE.
Proof.
  split.
  - revert st. induction events as [|e events IH]; intros st Hl Hev; [exact Hl|].
    cbn [forallb] in Hev. apply andb_prop in Hev. destruct Hev as [He Hev].
    cbn [Pooyan.run fold_left]. apply IH; [|exact Hev].
    apply step_keeps_asserted; [|exact Hl].
    now destruct (Pooyan.is_disable e).
  - unfold Pooyan.run. rewrite fold_left_app. reflexivity.
Qed.

Lemma pooyan_nmi_latched_until_disable_witness :
  Pooyan.nmi_line
    (Pooyan.run [Pooyan.Vblank 0; Pooyan.IrqEnable 1; Pooyan.Vblank 1]
       (Pooyan.mkIrq 1 Pooyan.ASSERT_LINE))
  = Pooyan.ASSERT_LINE.
Proof.
  apply (proj1 (pooyan_nmi_latched_until_disable
                  [Pooyan.Vblank 0; Pooyan.IrqEnable 1; Pooyan.Vblank 1]
                  (Pooyan.mkIrq 1 Pooyan.ASSERT_LINE))); reflexivity.
Defined.

(** * Address maps *)

Lemma filter_at_most_one {A : Type} (p : A -> bool) (l : list A) :
  (List.length (filter p l) <= 1)%nat ->
  forall x y, In x l -> In y l -> p x = true -> p y = true -> x = y.
Proof.
  intros Hlen x y Hx Hy Px Py.
  assert (Fx : In x (filter p l)) by (apply filter_In; auto).
  assert (Fy : In y (filter p l)) by (apply filter_In; auto).
  destruct (filter p l) as [|a [|b r]].
  - destruct Fx.
  - destruct Fx as [<-|[]], Fy as [<-|[]]. reflexivity.
  - cbn [List.length] in Hlen. lia.
Qed.

Lemma all_from_spec (f : Z -> bool) (count : nat) : forall a,
  Pooyan.all_from count a f = true ->
  forall b, a <= b < a + Z.of_nat count -> f b = true.
Proof.
  induction count as [|k IH]; intros a H b Hb; [lia|].
  cbn [Pooyan.all_from] in H. apply andb_prop in H. destruct H as [Ha Hk].
  destruct (Z.eq_dec b a) as [->|Hne]; [exact Ha|].
  apply (IH (a + 1) Hk). lia.
Qed.

Lemma all_addresses_spec (f : Z -> bool) :
  Pooyan.all_addresses f = true -> forall a, 0 <= a < 0x10000 -> f a = true.
Proof.
  unfold Pooyan.all_addresses. intros H a Ha.
  apply (all_from_spec f _ 0 H). lia.
Qed.

Lemma pooyan_map_checked :
  Pooyan.all_addresses
    (fun a => (List.length (Pooyan.readers a) <=? 1)%nat
              && (List.length (Pooyan.writers a) <=? 1)%nat) = true.
Proof. vm_compute. reflexivity. Qed.

(** X17. The Pooyan address map is unambiguous, mirrors included: for every
    16-bit address at most one range answers a read and at most one answers
    a write.  (The DSW1 port and the watchdog share 0xA000, one for reads
    and one for writes; a range answers an address when the bits outside its
    mirror mask fall between its bounds.) *)
Theorem pooyan_map_unambiguous (a : Z) (e1 e2 : Pooyan.map_entry) :
  0 <= a < 0x10000 ->
  In e1 Pooyan.main_map -> In e2 Pooyan.main_map ->
  Pooyan.matches e1 a = true -> Pooyan.matches e2 a = true ->
  (Pooyan.e_read e1 = true -> Pooyan.e_read e2 = true -> e1 = e2) /\
  (Pooyan.e_write e1 = true -> Pooyan.e_write e2 = true -> e1 = e2).
Proof.
  intros Ha H1 H2 M1 M2.
  pose proof (all_addresses_spec _ pooyan_map_checked a Ha) as Hc.
  apply andb_prop in Hc. destruct Hc as [Hr Hw].
  apply Nat.leb_le in Hr, Hw. split; intros R1 R2.
  - apply (filter_at_most_one _ _ Hr); auto; now rewrite ?R1, ?R2, ?M1, ?M2.
  - apply (filter_at_most_one _ _ Hw); auto; now rewrite ?R1, ?R2, ?M1, ?M2.
Qed.

Lemma pooyan_map_unambiguous_witness :
  map Pooyan.e_tag (Pooyan.readers 0xFE7F) = ["DSW1"%string] /\
  map Pooyan.e_tag (Pooyan.writers 0xFE7F) = ["watchdog"%string] /\
  map Pooyan.e_tag (Pooyan.readers 0x9B34) = ["spriteram"%string] /\
  forall e, In e Pooyan.main_map -> Pooyan.matches e 0xFE7F = true ->
            Pooyan.e_read e = true ->
            e = Pooyan.mkEntry 0xa000 0xa000 0x5e7f true false "DSW1".
Proof.
  split; [reflexivity|]. split; [reflexivity|]. split; [reflexivity|].
  intros e He Hm Hr.
  apply (proj1 (pooyan_map_unambiguous 0xFE7F e
                  (Pooyan.mkEntry 0xa000 0xa000 0x5e7f true false "DSW1")
                  ltac:(lia) He ltac:(vm_compute; auto 10) Hm eq_refl));
    [exact Hr | reflexivity].
Defined.

(** * Graphics layouts against their ROM regions *)

Lemma cell_eqb_eq (t1 t2 : cell) : cell_eqb t1 t2 = true -> t1 = t2.
Proof.
  destruct t1 as [p1 [x1 y1]], t2 as [p2 [x2 y2]]. cbn [cell_eqb]. intros H.
  apply andb_prop in H. destruct H as [H Hy]. apply andb_prop in H. destruct H as [Hp Hx].
  apply Nat.eqb_eq in Hp, Hx, Hy. now subst.
Qed.

Lemma in_layout_cells (l : gfx_layout) (p x y : nat) :
  (p < List.length (gl_planeoffset l))%nat ->
  Z.of_nat x < gl_width l -> Z.of_nat y < gl_height l ->
  In (p, (x, y)) (layout_cells l).
Proof.
  intros Hp Hx Hy. unfold layout_cells.
  apply in_prod; [apply in_seq; lia|].
  apply in_prod; apply in_seq; lia.
Qed.

Section LayoutSound.

Variable l : gfx_layout.
Variable region_bits : Z.
Hypothesis Hok : layout_ok l region_bits = true.

Lemma layout_ok_parts :
  0 < gl_charincrement l /\ 0 < gl_total l /\
  (forall t, In t (layout_cells l) ->
     0 <= cell_offset l t /\
     cell_offset l t mod (gl_total l * gl_charincrement l) < gl_charincrement l /\
     (cell_offset l t / (gl_total l * gl_charincrement l) + 1)
     * (gl_total l * gl_charincrement l) <= region_bits) /\
  (forall t1 t2, In t1 (layout_cells l) -> In t2 (layout_cells l) ->
     cell_offset l t1 = cell_offset l t2 -> t1 = t2).
Proof.
  pose proof Hok as H. unfold layout_ok in H. cbv zeta in H.
  apply andb_prop in H. destruct H as [H Hinj].
  apply andb_prop in H. destruct H as [H Hcells].
  apply andb_prop in H. destruct H as [H _].
  apply andb_prop in H. destruct H as [H _].
  apply andb_prop in H. destruct H as [Hinc Htot].
  apply Z.ltb_lt in Hinc, Htot.
  rewrite forallb_forall in Hcells. cbv zeta in Hinj. rewrite forallb_forall in Hinj.
  split; [exact Hinc|]. split; [exact Htot|]. split.
  - intros t Ht. specialize (Hcells t Ht). cbv zeta in Hcells.
    apply andb_prop in Hcells. destruct Hcells as [H1 H3].
    apply andb_prop in H1. destruct H1 as [H1 H2].
    apply Z.leb_le in H1, H3. apply Z.ltb_lt in H2. auto.
  - intros t1 t2 H1 H2 E.
    specialize (Hinj (t1, cell_offset l t1)
                  (in_map (fun t => (t, cell_offset l t)) _ _ H1)).
    rewrite forallb_forall in Hinj.
    specialize (Hinj (t2, cell_offset l t2)
                  (in_map (fun t => (t, cell_offset l t)) _ _ H2)).
    cbn [fst snd] in Hinj. rewrite E, Z.eqb_refl in Hinj. now apply cell_eqb_eq.
Qed.

Lemma bit_address_split (c : Z) (t : cell) :
  In t (layout_cells l) -> 0 <= c < gl_total l ->
  let g := gl_total l * gl_charincrement l in
  let r := c * gl_charincrement l + cell_offset l t mod g in
  bit_address l c t = g * (cell_offset l t / g) + r /\ 0 <= r < g.
Proof.
  intros Ht Hc. destruct layout_ok_parts as (Hinc & Htot & Hcells & _).
  destruct (Hcells t Ht) as (Ho & Hm & _).
  cbv zeta. unfold bit_address.
  set (inc := gl_charincrement l) in *. set (g := gl_total l * inc) in *.
  assert (Hg : 0 < g) by (subst g; nia).
  pose proof (Z.div_mod (cell_offset l t) g ltac:(lia)) as Hd.
  pose proof (Z.mod_pos_bound (cell_offset l t) g Hg) as Hb.
  split; [lia|]. split; [nia|]. subst g. nia.
Qed.

(** A layout that passes the check addresses bits inside the region, one
    cell per bit. *)
Lemma layout_ok_sound (c1 c2 : Z) (t1 t2 : cell) :
  In t1 (layout_cells l) -> In t2 (layout_cells l) ->
  0 <= c1 < gl_total l -> 0 <= c2 < gl_total l ->
  0 <= bit_address l c1 t1 < region_bits /\
  bit_address l c1 t1 / (gl_total l * gl_charincrement l)
  = cell_offset l t1 / (gl_total l * gl_charincrement l) /\
  (bit_address l c1 t1 = bit_address l c2 t2 -> c1 = c2 /\ t1 = t2).
Proof.
  intros H1 H2 Hc1 Hc2.
  destruct layout_ok_parts as (Hinc & Htot & Hcells & Hinj).
  destruct (Hcells t1 H1) as (Ho1 & Hm1 & Hr1).
  destruct (Hcells t2 H2) as (Ho2 & Hm2 & Hr2).
  destruct (bit_address_split c1 t1 H1 Hc1) as [E1 B1].
  destruct (bit_address_split c2 t2 H2 Hc2) as [E2 B2].
  cbv zeta in *.
  set (inc := gl_charincrement l) in *. set (g := gl_total l * inc) in *.
  assert (Hg : 0 < g) by lia.
  assert (Hq1 : 0 <= cell_offset l t1 / g) by (apply Z.div_pos; lia).
  split; [|split].
  - rewrite E1. nia.
  - rewrite E1. symmetry.
    apply (Z.div_unique _ _ _ (c1 * inc + cell_offset l t1 mod g)); [lia | reflexivity].
  - intros E. rewrite E1, E2 in E.
    destruct (Z.div_mod_unique g _ _ _ _ (or_introl B1) (or_introl B2) E) as [Eq Er].
    assert (Ec : inc * c1 + cell_offset l t1 mod g = inc * c2 + cell_offset l t2 mod g)
      by lia.
    pose proof (Z.mod_pos_bound (cell_offset l t1) g Hg).
    pose proof (Z.mod_pos_bound (cell_offset l t2) g Hg).
    assert (M1 : 0 <= cell_offset l t1 mod g < inc) by lia.
    assert (M2 : 0 <= cell_offset l t2 mod g < inc) by lia.
    destruct (Z.div_mod_unique inc _ _ _ _ (or_introl M1) (or_introl M2) Ec) as [Ecc Em].
    split; [exact Ecc|]. apply Hinj; try assumption.
    rewrite (Z.div_mod (cell_offset l t1) g), (Z.div_mod (cell_offset l t2) g) by lia.
    now rewrite Eq, Em.
Qed.

End LayoutSound.

Lemma planes_in_chunks_spec (l : gfx_layout) (bits : Z) (chunk : nat -> Z) (t : cell) :
  planes_in_chunks l bits chunk = true -> In t (layout_cells l) ->
  cell_offset l t / bits = chunk (fst t).
Proof.
  unfold planes_in_chunks. intros H Ht. rewrite forallb_forall in H.
  apply Z.eqb_eq. now apply H.
Qed.

Lemma chaknpop_layouts_checked :
  layout_ok ChaknpopHw.spritelayout (0x4000 * 8) = true /\
  layout_ok ChaknpopHw.charlayout (0x4000 * 8) = true /\
  planes_in_chunks ChaknpopHw.spritelayout (0x2000 * 8) Z.of_nat = true /\
  planes_in_chunks ChaknpopHw.charlayout (0x2000 * 8) Z.of_nat = true.
Proof. repeat split; vm_compute; reflexivity. Qed.

(** X18. The two Chack'n Pop graphics layouts fit their 0x4000-byte regions
    bit for bit: for every tile below the tile count, every plane and every
    pixel, the bit read lies inside the region, plane 0 in the first 0x2000
    bytes (the first ROM of the region) and plane 1 in the second; no two
    (tile, plane, pixel) read the same bit; and there are exactly as many of
    them as the region has bits. *)
Theorem chaknpop_layouts_fit_rom (l : gfx_layout) (c1 c2 : Z) (p1 x1 y1 p2 x2 y2 : nat) :
  l = ChaknpopHw.spritelayout \/ l = ChaknpopHw.charlayout ->
  0 <= c1 < gl_total l -> 0 <= c2 < gl_total l ->
  (p1 < 2)%nat -> Z.of_nat x1 < gl_width l -> Z.of_nat y1 < gl_height l ->
  (p2 < 2)%nat -> Z.of_nat x2 < gl_width l -> Z.of_nat y2 < gl_height l ->
  0 <= bit_address l c1 (p1, (x1, y1)) < 0x4000 * 8 /\
  bit_address l c1 (p1, (x1, y1)) / (0x2000 * 8) = Z.of_nat p1 /\
  (bit_address l c1 (p1, (x1, y1)) = bit_address l c2 (p2, (x2, y2)) ->
   c1 = c2 /\ p1 = p2 /\ x1 = x2 /\ y1 = y2) /\
  gl_total l * 2 * gl_width l * gl_height l = 0x4000 * 8.
Proof.
  intros Hl Hc1 Hc2 Hp1 Hx1 Hy1 Hp2 Hx2 Hy2.
  destruct chaknpop_layouts_checked as (Ks & Kc & Ps & Pc).
  assert (Hok : layout_ok l (0x4000 * 8) = true) by (destruct Hl; subst; assumption).
  assert (Hpl : planes_in_chunks l (0x2000 * 8) Z.of_nat = true)
    by (destruct Hl; subst; assumption).
  assert (Hg : gl_total l * gl_charincrement l = 0x2000 * 8)
    by (destruct Hl; subst; reflexivity).
  assert (Hn : List.length (gl_planeoffset l) = 2%nat) by (destruct Hl; subst; reflexivity).
  assert (I1 : In (p1, (x1, y1)) (layout_cells l))
    by (apply in_layout_cells; [rewrite Hn|..]; assumption).
  assert (I2 : In (p2, (x2, y2)) (layout_cells l))
    by (apply in_layout_cells; [rewrite Hn|..]; assumption).
  destruct (layout_ok_sound l _ Hok c1 c2 _ _ I1 I2 Hc1 Hc2) as (Hr & Hd & Hi).
  split; [exact Hr|]. split; [|split].
  - rewrite Hg in Hd. rewrite Hd.
    apply (planes_in_chunks_spec l _ _ _ Hpl I1).
  - intros E. destruct (Hi E) as [Ec Et]. injection Et as -> -> ->. auto.
  - destruct Hl; subst; reflexivity.
Qed.

Lemma chaknpop_layouts_fit_rom_witness :
  bit_address ChaknpopHw.spritelayout 255 (1%nat, (15%nat, 15%nat)) / (0x2000 * 8) = 1 /\
  bit_address ChaknpopHw.spritelayout 255 (1%nat, (15%nat, 15%nat)) = 0x4000 * 8 - 1.
Proof.
  destruct (chaknpop_layouts_fit_rom ChaknpopHw.spritelayout 255 0 1 15 15 0 0 0
              (or_introl eq_refl) ltac:(cbn; lia) ltac:(cbn; lia) ltac:(lia)
              ltac:(cbn; lia) ltac:(cbn; lia) ltac:(lia) ltac:(cbn; lia)
              ltac:(cbn; lia)) as (_ & H & _).
  split; [exact H | reflexivity].
Defined.

Lemma pooyan_layouts_checked :
  layout_ok PooyanHw.charlayout PooyanHw.gfx_region_bits = true /\
  layout_ok PooyanHw.spritelayout PooyanHw.gfx_region_bits = true /\
  planes_in_chunks PooyanHw.charlayout (0x1000 * 8)
    (fun p => if (p <? 2)%nat then 1 else 0) = true /\
  planes_in_chunks PooyanHw.spritelayout (0x1000 * 8)
    (fun p => if (p <? 2)%nat then 1 else 0) = true.
Proof. repeat split; vm_compute; reflexivity. Qed.

(** X19. The two Pooyan graphics layouts fit their 0x2000-byte regions bit
    for bit: with [RGN_FRAC(1,2)] tiles of 16 (characters) or 64 (sprites)
    bytes, every bit read lies inside the region, planes 0 and 1 in its
    second half and planes 2 and 3 in its first half; no two (tile, plane,
    pixel) read the same bit; and there are as many of them as the region
    has bits. *)
Theorem pooyan_layouts_fit_rom (l : gfx_layout) (c1 c2 : Z) (p1 x1 y1 p2 x2 y2 : nat) :
  l = PooyanHw.charlayout \/ l = PooyanHw.spritelayout ->
  0 <= c1 < gl_total l -> 0 <= c2 < gl_total l ->
  (p1 < 4)%nat -> Z.of_nat x1 < gl_width l -> Z.of_nat y1 < gl_height l ->
  (p2 < 4)%nat -> Z.of_nat x2 < gl_width l -> Z.of_nat y2 < gl_height l ->
  0 <= bit_address l c1 (p1, (x1, y1)) < 0x2000 * 8 /\
  bit_address l c1 (p1, (x1, y1)) / (0x1000 * 8) = (if (p1 <? 2)%nat then 1 else 0) /\
  (bit_address l c1 (p1, (x1, y1)) = bit_address l c2 (p2, (x2, y2)) ->
   c1 = c2 /\ p1 = p2 /\ x1 = x2 /\ y1 = y2) /\
  gl_total l * 4 * gl_width l * gl_height l = 0x2000 * 8.
Proof.
  intros Hl Hc1 Hc2 Hp1 Hx1 Hy1 Hp2 Hx2 Hy2.
  destruct pooyan_layouts_checked as (Ks & Kc & Ps & Pc).
  assert (Hok : layout_ok l PooyanHw.gfx_region_bits = true)
    by (destruct Hl; subst; assumption).
  assert (Hpl : planes_in_chunks l (0x1000 * 8)
                  (fun p => if (p <? 2)%nat then 1 else 0) = true)
    by (destruct Hl; subst; assumption).
  assert (Hg : gl_total l * gl_charincrement l = 0x1000 * 8)
    by (destruct Hl; subst; reflexivity).
  assert (Hn : List.length (gl_planeoffset l) = 4%nat) by (destruct Hl; subst; reflexivity).
  assert (I1 : In (p1, (x1, y1)) (layout_cells l))
    by (apply in_layout_cells; [rewrite Hn|..]; assumption).
  assert (I2 : In (p2, (x2, y2)) (layout_cells l))
    by (apply in_layout_cells; [rewrite Hn|..]; assumption).
  destruct (layout_ok_sound l _ Hok c1 c2 _ _ I1 I2 Hc1 Hc2) as (Hr & Hd & Hi).
  split; [exact Hr|]. split; [|split].
  - rewrite Hg in Hd. rewrite Hd.
    apply (planes_in_chunks_spec l _ _ _ Hpl I1).
  - intros E. destruct (Hi E) as [Ec Et]. injection Et as -> -> ->. auto.
  - destruct Hl; subst; reflexivity.
Qed.

Lemma pooyan_layouts_fit_rom_witness :
  gl_total PooyanHw.spritelayout = 64 /\
  bit_address PooyanHw.spritelayout 63 (0%nat, (15%nat, 15%nat)) / (0x1000 * 8) = 1 /\
  bit_address PooyanHw.spritelayout 63 (0%nat, (15%nat, 15%nat)) = 0x2000 * 8 - 1.
Proof.
  split; [reflexivity|].
  destruct (pooyan_layouts_fit_rom PooyanHw.spritelayout 63 0 0 15 15 0 0 0
              (or_intror eq_refl) ltac:(cbn; lia) ltac:(cbn; lia) ltac:(lia)
              ltac:(cbn; lia) ltac:(cbn; lia) ltac:(lia) ltac:(cbn; lia)
              ltac:(cbn; lia)) as (_ & H & _).
  split; [exact H | reflexivity].
Defined.

(** * Chack'n Pop: address map and ROM regions *)

Lemma chaknpop_map_ascending :
  StronglySorted (fun e1 e2 => Chaknpop.addr_end e1 < Chaknpop.addr_start e2)
    Chaknpop.chaknpop_map.
Proof.
  unfold Chaknpop.chaknpop_map.
  repeat (constructor; [|repeat (constructor; [cbn; lia|]); constructor]).
  constructor.
Qed.

Lemma ascending_unique (l : list Chaknpop.map_entry) :
  StronglySorted (fun e1 e2 => Chaknpop.addr_end e1 < Chaknpop.addr_start e2) l ->
  forall a e1 e2, In e1 l -> In e2 l ->
    ChaknpopHw.covers e1 a = true -> ChaknpopHw.covers e2 a = true -> e1 = e2.
Proof.
  induction 1 as [|e l Hs IH Hf]; intros a e1 e2 H1 H2 C1 C2; [destruct H1|].
  rewrite Forall_forall in Hf.
  unfold ChaknpopHw.covers in C1, C2.
  apply andb_prop in C1, C2. destruct C1 as [S1 E1], C2 as [S2 E2].
  apply Z.leb_le in S1, E1, S2, E2.
  destruct H1 as [<- | H1], H2 as [<- | H2].
  - reflexivity.
  - specialize (Hf e2 H2). lia.
  - specialize (Hf e1 H1). lia.
  - apply (IH a); try assumption; unfold ChaknpopHw.covers;
      apply andb_true_intro; split; now apply Z.leb_le.
Qed.

(** X20. The Chack'n Pop address map is unambiguous: its ranges are listed
    in ascending order without overlap, so an address is answered by at most
    one range, and looking an address up returns exactly the range that
    covers it. *)
Theorem chaknpop_map_unambiguous (a : Z) (e : Chaknpop.map_entry) :
  In e Chaknpop.chaknpop_map ->
  ChaknpopHw.covers e a = true ->
  ChaknpopHw.decode a = Some e /\
  forall e', In e' Chaknpop.chaknpop_map -> ChaknpopHw.covers e' a = true -> e' = e.
Proof.
  intros He Hc.
  assert (Hu : forall e', In e' Chaknpop.chaknpop_map ->
                          ChaknpopHw.covers e' a = true -> e' = e)
    by (intros e' He' Hc'; now apply (ascending_unique _ chaknpop_map_ascending a)).
  split; [|exact Hu].
  unfold ChaknpopHw.decode.
  destruct (find (fun e0 => ChaknpopHw.covers e0 a) Chaknpop.chaknpop_map) as [e0|] eqn:F.
  - apply find_some in F. destruct F as [H0 C0]. f_equal. now apply Hu.
  - pose proof (find_none _ _ F e He) as Hn. cbv beta in Hn. congruence.
Qed.

Lemma chaknpop_map_unambiguous_witness :
  option_map Chaknpop.entry_share (ChaknpopHw.decode 0x9841)
  = Some (Some "spr_ram"%string) /\
  ChaknpopHw.decode 0x8803 = None.
Proof.
  split; [|reflexivity].
  rewrite (proj1 (chaknpop_map_unambiguous 0x9841
                    (Chaknpop.mkEntry 0x9840 0x98ff Chaknpop.Ram (Some "spr_ram"%string))
                    ltac:(vm_compute; auto 20) eq_refl)).
  reflexivity.
Defined.

(** X21. ROM loading against the map.  Every [ROM_LOAD] lies inside its
    region and no two loads of a region overlap; the main CPU addresses
    backed by a loaded ROM are exactly those the address map declares as
    [rom()] (0x0000..0x7FFF and 0xA000..0xBFFF); and the MCU, graphics and
    PROM regions are filled completely. *)
Theorem chaknpop_roms_match_map :
  (forall r l, In r (ChaknpopHw.rom_maincpu :: ChaknpopHw.data_regions) ->
     In l (region_loads r) ->
     0 <= load_offset l /\ 0 < load_length l /\
     load_offset l + load_length l <= region_size r) /\
  (forall r l1 l2 a, In r (ChaknpopHw.rom_maincpu :: ChaknpopHw.data_regions) ->
     In l1 (region_loads r) -> In l2 (region_loads r) ->
     load_covers l1 a = true -> load_covers l2 a = true -> l1 = l2) /\
  (forall a,
     (exists l, In l (region_loads ChaknpopHw.rom_maincpu) /\ load_covers l a = true)
     <-> (exists e, In e Chaknpop.chaknpop_map /\
                    Chaknpop.entry_handler e = Chaknpop.Rom /\
                    ChaknpopHw.covers e a = true)) /\
  (forall r a, In r ChaknpopHw.data_regions -> 0 <= a < region_size r ->
     exists l, In l (region_loads r) /\ load_covers l a = true).
Proof.
  split; [|split; [|split]].
  - intros r l Hr Hl. cbn in Hr.
    repeat (destruct Hr as [<- | Hr];
            [cbn in Hl; repeat (destruct Hl as [<- | Hl]; [cbn; lia|]); destruct Hl|]).
    destruct Hr.
  - intros r l1 l2 a Hr H1 H2 C1 C2.
    unfold load_covers in C1, C2.
    apply andb_prop in C1, C2. destruct C1 as [S1 E1], C2 as [S2 E2].
    apply Z.leb_le in S1, S2. apply Z.ltb_lt in E1, E2. cbn in Hr.
    repeat (destruct Hr as [<- | Hr];
            [cbn in H1, H2;
             repeat (destruct H1 as [<- | H1];
                     [repeat (destruct H2 as [<- | H2];
                              [first [reflexivity | cbn in *; lia]|]);
                      destruct H2|]);
             destruct H1|]).
    destruct Hr.
  - intros a. unfold load_covers, ChaknpopHw.covers. split.
    + intros (l & Hl & C). apply andb_prop in C. destruct C as [S E].
      apply Z.leb_le in S. apply Z.ltb_lt in E. cbn in Hl.
      destruct Hl as [<- | [<- | [<- | [<- | [<- | []]]]]]; cbn in S, E;
        [ exists (Chaknpop.mkEntry 0x0000 0x7fff Chaknpop.Rom None)
        | exists (Chaknpop.mkEntry 0x0000 0x7fff Chaknpop.Rom None)
        | exists (Chaknpop.mkEntry 0x0000 0x7fff Chaknpop.Rom None)
        | exists (Chaknpop.mkEntry 0x0000 0x7fff Chaknpop.Rom None)
        | exists (Chaknpop.mkEntry 0xa000 0xbfff Chaknpop.Rom None) ];
        (split; [vm_compute; auto 20|]); (split; [reflexivity|]);
        cbn [Chaknpop.addr_start Chaknpop.addr_end];
        apply andb_true_intro; split; apply Z.leb_le; lia.
    + intros (e & He & Hh & C). apply andb_prop in C. destruct C as [S E].
      apply Z.leb_le in S, E. unfold Chaknpop.chaknpop_map in He. cbn [In] in He.
      repeat (destruct He as [<- | He]; [try discriminate Hh|]); [| |destruct He].
      * cbn in S, E.
        assert (Hq : a < 0x2000 \/ 0x2000 <= a < 0x4000 \/ 0x4000 <= a < 0x6000
                     \/ 0x6000 <= a) by lia.
        destruct Hq as [Hq | [Hq | [Hq | Hq]]];
          [ exists (mkLoad "ao4_01.ic28" 0x00000 0x2000)
          | exists (mkLoad "ao4_02.ic27" 0x02000 0x2000)
          | exists (mkLoad "ao4_03.ic26" 0x04000 0x2000)
          | exists (mkLoad "ao4_04.ic25" 0x06000 0x2000) ];
          (split; [cbn; auto 10|]);
          cbn [load_offset load_length]; apply andb_true_intro;
          (split; [apply Z.leb_le | apply Z.ltb_lt]); lia.
      * cbn in S, E. exists (mkLoad "ao4_05.ic3" 0x0a000 0x2000).
        split; [cbn; auto 10|].
        cbn [load_offset load_length]. apply andb_true_intro.
        split; [apply Z.leb_le | apply Z.ltb_lt]; lia.
  - intros r a Hr Ha. unfold load_covers. cbn in Hr.
    destruct Hr as [<- | [<- | [<- | [<- | []]]]]; cbn in Ha.
    + exists (mkLoad "ao4_06.ic23" 0x0000 0x0800). split; [cbn; auto|].
      cbn [load_offset load_length]. apply andb_true_intro.
      split; [apply Z.leb_le | apply Z.ltb_lt]; lia.
    + destruct (Z.lt_ge_cases a 0x2000);
        [ exists (mkLoad "ao4_08.ic14" 0x0000 0x2000)
        | exists (mkLoad "ao4_07.ic15" 0x2000 0x2000) ];
        (split; [cbn; auto|]); cbn [load_offset load_length]; apply andb_true_intro;
        (split; [apply Z.leb_le | apply Z.ltb_lt]); lia.
    + destruct (Z.lt_ge_cases a 0x2000);
        [ exists (mkLoad "ao4_09.ic98" 0x0000 0x2000)
        | exists (mkLoad "ao4_10.ic97" 0x2000 0x2000) ];
        (split; [cbn; auto|]); cbn [load_offset load_length]; apply andb_true_intro;
        (split; [apply Z.leb_le | apply Z.ltb_lt]); lia.
    + destruct (Z.lt_ge_cases a 0x0400);
        [ exists (mkLoad "ao4-11.ic96" 0x0000 0x0400)
        | exists (mkLoad "ao4-12.ic95" 0x0400 0x0400) ];
        (split; [cbn; auto|]); cbn [load_offset load_length]; apply andb_true_intro;
        (split; [apply Z.leb_le | apply Z.ltb_lt]); lia.
Qed.

Lemma chaknpop_roms_match_map_witness :
  (exists e, In e Chaknpop.chaknpop_map /\
             Chaknpop.entry_handler e = Chaknpop.Rom /\
             ChaknpopHw.covers e 0xa123 = true) /\
  ~ (exists l, In l (region_loads ChaknpopHw.rom_maincpu) /\ load_covers l 0x8123 = true).
Proof.
  destruct chaknpop_roms_match_map as (_ & _ & H & _). split.
  - apply (proj1 (H 0xa123)).
    exists (mkLoad "ao4_05.ic3" 0x0a000 0x2000). split; [cbn; auto 10 | reflexivity].
  - intros (l & Hl & C). cbn in Hl.
    destruct Hl as [<- | [<- | [<- | [<- | [<- | []]]]]]; discriminate C.
Defined.

(** * DIP switches *)

Lemma dip_port_ok_sound (port : list dip) :
  dip_port_ok port = true ->
  (forall d v, In d port -> 0 <= v < 256 ->
     count_setting d v = 1%nat /\
     In (Z.land v (dip_mask d)) (dip_settings d)) /\
  (forall d, In d port -> In (dip_default d) (dip_settings d)) /\
  fold_right Z.lor 0 (map dip_mask port) = 0xff /\
  fold_right Z.add 0 (map dip_mask port) = 0xff.
Proof.
  unfold dip_port_ok. intros H.
  apply andb_prop in H. destruct H as [H Hsum].
  apply andb_prop in H. destruct H as [H Hor].
  apply Z.eqb_eq in Hsum, Hor. rewrite forallb_forall in H.
  assert (Hd : forall d, In d port ->
            In (dip_default d) (dip_settings d) /\
            forall v, 0 <= v < 256 -> count_setting d v = 1%nat).
  { intros d Hin. specialize (H d Hin). apply andb_prop in H. destruct H as [He Hv].
    split.
    - apply existsb_exists in He. destruct He as (sv & Hs & E).
      apply Z.eqb_eq in E. now subst.
    - intros v Hv'. rewrite forallb_forall in Hv. apply Nat.eqb_eq, Hv.
      apply in_map_iff. exists (Z.to_nat v). split; [lia | apply in_seq; lia]. }
  repeat split; try assumption.
  - now apply Hd.
  - destruct (Hd d H0) as [_ Hc]. specialize (Hc v H1). unfold count_setting in Hc.
    destruct (filter _ (dip_settings d)) as [|sv r] eqn:F; [discriminate Hc|].
    assert (Hin : In sv (filter (fun sv0 => sv0 =? Z.land v (dip_mask d))
                           (dip_settings d))) by (rewrite F; now left).
    apply filter_In in Hin. destruct Hin as [Hin E]. apply Z.eqb_eq in E. now subst.
  - intros d Hin. now apply Hd.
Qed.

Lemma dip_ports_checked :
  dip_port_ok ChaknpopHw.DSWA = true /\ dip_port_ok ChaknpopHw.DSWB = true /\
  dip_port_ok ChaknpopHw.DSWC = true /\ dip_port_ok PooyanHw.DSW1 = true.
Proof. repeat split; vm_compute; reflexivity. Qed.

(** X22. The Chack'n Pop DIP switch banks are complete and consistent: for
    each of DSWA, DSWB and DSWC, every byte read from the port selects
    exactly one listed setting of each switch, every switch's default is one
    of its settings, and the switch masks split the eight bits of the port
    (they are disjoint and cover 0xFF). *)
Theorem chaknpop_dips_complete (port : list dip) (d : dip) (v : Z) :
  In port [ChaknpopHw.DSWA; ChaknpopHw.DSWB; ChaknpopHw.DSWC] ->
  In d port -> 0 <= v < 256 ->
  count_setting d v = 1%nat /\
  In (Z.land v (dip_mask d)) (dip_settings d) /\
  In (dip_default d) (dip_settings d) /\
  fold_right Z.lor 0 (map dip_mask port) = 0xff /\
  fold_right Z.add 0 (map dip_mask port) = 0xff.
Proof.
  intros Hp Hd Hv. destruct dip_ports_checked as (Ka & Kb & Kc & _).
  assert (Hok : dip_port_ok port = true)
    by (destruct Hp as [<- | [<- | [<- | []]]]; assumption).
  destruct (dip_port_ok_sound port Hok) as (H1 & H2 & H3 & H4).
  destruct (H1 d v Hd Hv). auto.
Qed.

Lemma chaknpop_dips_complete_witness :
  count_setting (mkDip 0x18 0x08 [0x00; 0x08; 0x10; 0x18]) 0xF7 = 1%nat /\
  In (Z.land 0xF7 0x18) [0x00; 0x08; 0x10; 0x18].
Proof.
  destruct (chaknpop_dips_complete ChaknpopHw.DSWB
              (mkDip 0x18 0x08 [0x00; 0x08; 0x10; 0x18]) 0xF7
              ltac:(cbn; auto) ltac:(cbn; auto 10) ltac:(lia)) as (H1 & H2 & _).
  split; [exact H1 | exact H2].
Defined.

(** X23. The Pooyan DSW1 bank is complete and consistent in the same sense:
    every byte read selects exactly one setting of each of its five
    switches, the defaults are listed settings, and the masks split the
    eight bits. *)
Theorem pooyan_dsw1_complete (d : dip) (v : Z) :
  In d PooyanHw.DSW1 -> 0 <= v < 256 ->
  count_setting d v = 1%nat /\
  In (Z.land v (dip_mask d)) (dip_settings d) /\
  In (dip_default d) (dip_settings d) /\
  fold_right Z.lor 0 (map dip_mask PooyanHw.DSW1) = 0xff /\
  fold_right Z.add 0 (map dip_mask PooyanHw.DSW1) = 0xff.
Proof.
  intros Hd Hv. destruct dip_ports_checked as (_ & _ & _ & K).
  destruct (dip_port_ok_sound _ K) as (H1 & H2 & H3 & H4).
  destruct (H1 d v Hd Hv). auto.
Qed.

Lemma pooyan_dsw1_complete_witness :
  count_setting (mkDip 0x70 0x70 [0x70; 0x60; 0x50; 0x40; 0x30; 0x20; 0x10; 0x00]) 0xA5
  = 1%nat /\
  In (Z.land 0xA5 0x70) [0x70; 0x60; 0x50; 0x40; 0x30; 0x20; 0x10; 0x00].
Proof.
  destruct (pooyan_dsw1_complete
              (mkDip 0x70 0x70 [0x70; 0x60; 0x50; 0x40; 0x30; 0x20; 0x10; 0x00]) 0xA5
              ltac:(cbn; auto 10) ltac:(lia)) as (H1 & H2 & _).
  split; [exact H1 | exact H2].
Defined.
